(** * Floor monitoring: identity tracking and absence alerts

    A shallow embedding of [app/tracking_system.py], [app/alert_manager.py]
    and the processing loop of [app/main.py], with the properties of the
    tracking and alerting pipeline stated and proved over it.

    Conventions of the embedding.
    - A Python [dict] is an association list in insertion order (module
      [Dict]); assigning to an existing key keeps its position, a new key is
      appended, as in CPython.
    - Objects held in a dict and mutated in place ([person.x = ...]) are
      modelled by [Dict.modify] at their key.
    - [datetime.now()] is an explicit argument [now : Z] of every operation
      that reads the clock (one reading per call); a [timedelta] of [m]
      minutes is [60 * m] clock units.
    - Centroids are integer pixel pairs.  The matrix of Euclidean distances
      is represented by the matrix of their squares: on integer centroids the
      order and the equalities of the distances are those of their squares.
      [max_distance] is an integer number of pixels, as in [config.py].
    - What the code leaves to its environment is a parameter of the
      embedding, and the properties hold for every value of it: the order
      numpy's [argsort] gives to equal values ([np.Argsort]), the order in
      which a Python [set] of indices is visited
      ([tracking_system.SetIteration]), the order SQLite gives to rows of
      equal sort key ([database.Engine]), and whether the alert's database
      write, notification and sound fail ([alert_manager.Host]). *)

From Stdlib Require Import QArith ZArith String List Bool Lia.
From Stdlib Require Import Permutation Sorted.
Import ListNotations.
Local Open Scope Z_scope.

(* ================================================================== *)
(** ** Python dictionaries *)

Module Dict.

Class Key (K : Type) := {
  eqb : K -> K -> bool;
  eqb_spec : forall a b : K, reflect (a = b) (eqb a b)
}.

Definition t (K V : Type) : Type := list (K * V).

Section Ops.
Context {K V : Type} `{Key K}.

Definition empty : t K V := [].

(** [d.get(k)] *)
Fixpoint get (k : K) (d : t K V) : option V :=
  match d with
  | [] => None
  | (k', v) :: r => if eqb k k' then Some v else get k r
  end.

(** [k in d] *)
Definition contains (k : K) (d : t K V) : bool :=
  match get k d with Some _ => true | None => false end.

(** [d[k] = v] *)
Fixpoint set (k : K) (v : V) (d : t K V) : t K V :=
  match d with
  | [] => [(k, v)]
  | (k', v') :: r => if eqb k k' then (k, v) :: r else (k', v') :: set k v r
  end.

(** In-place mutation of the object stored under [k]; nothing happens when
    [k] is absent. *)
Fixpoint modify (k : K) (f : V -> V) (d : t K V) : t K V :=
  match d with
  | [] => []
  | (k', v) :: r => if eqb k k' then (k', f v) :: r else (k', v) :: modify k f r
  end.

(** [del d[k]] *)
Fixpoint del (k : K) (d : t K V) : t K V :=
  match d with
  | [] => []
  | (k', v) :: r => if eqb k k' then r else (k', v) :: del k r
  end.

Definition keys (d : t K V) : list K := map fst d.
Definition values (d : t K V) : list V := map snd d.

End Ops.

#[global] Instance Z_key : Key Z :=
  {| eqb := Z.eqb; eqb_spec := Z.eqb_spec |}.
#[global] Instance string_key : Key string :=
  {| eqb := String.eqb; eqb_spec := String.eqb_spec |}.

End Dict.

(* ================================================================== *)
(** ** [app/config.py] *)

Module config.
Definition TRACKING_MAX_DISAPPEARED : Z := 30.
Definition TRACKING_MAX_DISTANCE : Z := 50.
Definition ABSENCE_TIMEOUT_MINUTES : Z := 20.
Definition ALERT_SOUND_ENABLED : bool := true.
Definition ALERT_NOTIFICATION_ENABLED : bool := true.
Definition FRAME_SKIP : Z := 2.
End config.

Definition datetime : Type := Z.
Definition Point : Type := (Z * Z)%type.
Definition BBox : Type := (Z * Z * Z * Z)%type.
(** A frame is only handed on to the collaborators; its pixels are never
    inspected here. *)
Definition Frame : Type := list (list Z).

(* ================================================================== *)
(** ** [app/detection_engine.py]: the [Detection] data class *)

Module detection_engine.

Record Detection : Type := {
  bbox : BBox;
  confidence : Q;
  center : Point;
  frame_id : Z
}.

End detection_engine.

(* ================================================================== *)
(** ** numpy / scipy helpers used by the tracker *)

Module np.

(** [dist.cdist(xs, ys)], squared entrywise. *)
Definition sq_dist (a b : Point) : Z :=
  (fst a - fst b) * (fst a - fst b) + (snd a - snd b) * (snd a - snd b).

Definition cdist (xs ys : list Point) : list (list Z) :=
  map (fun x => map (sq_dist x) ys) xs.

(** [row.min()] of a non-empty row. *)
Fixpoint min_from (best : Z) (l : list Z) : Z :=
  match l with
  | [] => best
  | x :: r => if x <? best then min_from x r else min_from best r
  end.

Definition min (l : list Z) : Z :=
  match l with [] => 0 | x :: r => min_from x r end.

(** [row.argmin()]: the first index holding the least entry. *)
Fixpoint argmin_from (best_i : nat) (best : Z) (i : nat) (l : list Z) : nat :=
  match l with
  | [] => best_i
  | x :: r =>
      if x <? best then argmin_from i x (S i) r
      else argmin_from best_i best (S i) r
  end.

Definition argmin (l : list Z) : nat :=
  match l with [] => 0%nat | x :: r => argmin_from 0 x 1 r end.

(** [D.min(axis=1)] and [D.argmin(axis=1)] *)
Definition min_axis1 (D : list (list Z)) : list Z := map min D.
Definition argmin_axis1 (D : list (list Z)) : list nat := map argmin D.

(** [v.argsort()] with numpy's default kind, which is not stable: the
    positions of [v] listed in ascending order of value, positions of equal
    values in an order numpy does not promise.  The function numpy computes
    is a parameter of the tracker; [sorts] says what is known of it. *)
Class Argsort : Type := {
  argsort : list Z -> list nat
}.

Definition sorts (numpy : Argsort) : Prop :=
  forall v,
    Permutation (@argsort numpy v) (seq 0 (length v)) /\
    StronglySorted (fun i j => nth i v 0 <= nth j v 0) (@argsort numpy v).

(** One such function: sorting by insertion, equal values kept in index
    order. *)
Fixpoint insert_index (v : list Z) (i : nat) (l : list nat) : list nat :=
  match l with
  | [] => [i]
  | j :: r =>
      if nth i v 0 <=? nth j v 0 then i :: j :: r
      else j :: insert_index v i r
  end.

Definition stable_argsort (v : list Z) : list nat :=
  fold_right (insert_index v) [] (seq 0 (length v)).

Definition stable : Argsort := {| argsort := stable_argsort |}.

(** [D[row, col]] *)
Definition at2 (D : list (list Z)) (row col : nat) : Z :=
  nth col (nth row D []) 0.

End np.

(* ================================================================== *)
(** ** [app/tracking_system.py] *)

Module tracking_system.

Import detection_engine.

Record TrackedPerson : Type := {
  tracking_id : Z;
  employee_id : option string;
  centroid : Point;
  bbox : BBox;
  first_seen : datetime;
  last_seen : datetime;
  disappeared_frames : Z;
  is_active : bool;
  camera_id : string;
  confidence : Q
}.

(** Attribute assignments on a [TrackedPerson]. *)

(** [person.is_active = b] *)
Definition set_is_active (b : bool) (p : TrackedPerson) : TrackedPerson :=
  {| tracking_id := tracking_id p; employee_id := employee_id p;
     centroid := centroid p; bbox := bbox p; first_seen := first_seen p;
     last_seen := last_seen p; disappeared_frames := disappeared_frames p;
     is_active := b; camera_id := camera_id p; confidence := confidence p |}.

(** [person.employee_id = e] *)
Definition set_employee (e : string) (p : TrackedPerson) : TrackedPerson :=
  {| tracking_id := tracking_id p; employee_id := Some e;
     centroid := centroid p; bbox := bbox p; first_seen := first_seen p;
     last_seen := last_seen p; disappeared_frames := disappeared_frames p;
     is_active := is_active p; camera_id := camera_id p;
     confidence := confidence p |}.

(** [person.disappeared_frames += 1; person.last_seen = datetime.now()] *)
Definition set_missed (now : datetime) (p : TrackedPerson) : TrackedPerson :=
  {| tracking_id := tracking_id p; employee_id := employee_id p;
     centroid := centroid p; bbox := bbox p; first_seen := first_seen p;
     last_seen := now; disappeared_frames := disappeared_frames p + 1;
     is_active := is_active p; camera_id := camera_id p;
     confidence := confidence p |}.

(** The five assignments made on a match (lines 142-146). *)
Definition set_matched (det : Detection) (now : datetime) (p : TrackedPerson)
  : TrackedPerson :=
  {| tracking_id := tracking_id p; employee_id := employee_id p;
     centroid := center det; bbox := detection_engine.bbox det;
     first_seen := first_seen p; last_seen := now; disappeared_frames := 0;
     is_active := is_active p; camera_id := camera_id p;
     confidence := detection_engine.confidence det |}.

Record CentroidTracker : Type := {
  next_object_id : Z;
  objects : Dict.t Z TrackedPerson;
  max_disappeared : Z;
  max_distance : Z
}.

Definition with_objects (self : CentroidTracker) (o : Dict.t Z TrackedPerson)
  : CentroidTracker :=
  {| next_object_id := next_object_id self; objects := o;
     max_disappeared := max_disappeared self;
     max_distance := max_distance self |}.

(** [CentroidTracker.__init__] *)
Definition init (max_disappeared max_distance : Z) : CentroidTracker :=
  {| next_object_id := 1; objects := Dict.empty;
     max_disappeared := max_disappeared; max_distance := max_distance |}.

(** [CentroidTracker.register]: the new table and the person created. *)
Definition register (self : CentroidTracker) (centroid : Point) (bbox : BBox)
  (confidence : Q) (camera_id : string) (now : datetime)
  : CentroidTracker * TrackedPerson :=
  let tracking_id := next_object_id self in
  let tracked_person :=
    {| tracking_id := tracking_id; employee_id := None;
       centroid := centroid; bbox := bbox;
       first_seen := now; last_seen := now;
       disappeared_frames := 0; is_active := true;
       camera_id := camera_id; confidence := confidence |} in
  ({| next_object_id := next_object_id self + 1;
      objects := Dict.set tracking_id tracked_person (objects self);
      max_disappeared := max_disappeared self;
      max_distance := max_distance self |},
   tracked_person).

(** [CentroidTracker.deregister]: the entry stays in the table, inactive. *)
Definition deregister (self : CentroidTracker) (tracking_id : Z)
  : CentroidTracker :=
  if Dict.contains tracking_id (objects self)
  then with_objects self
         (Dict.modify tracking_id (set_is_active false) (objects self))
  else self.

(** The body run for a person that was not seen in this frame (lines 94-99
    and 156-160): count the miss, stamp the time, deregister past the
    tolerance. *)
Definition miss (now : datetime) (self : CentroidTracker) (tracking_id : Z)
  : CentroidTracker :=
  match Dict.get tracking_id (objects self) with
  | None => self
  | Some person =>
      let self1 :=
        with_objects self
          (Dict.modify tracking_id (set_missed now) (objects self)) in
      if disappeared_frames person + 1 >? max_disappeared self
      then deregister self1 tracking_id
      else self1
  end.

(** [v.is_active and v.camera_id == camera_id] *)
Definition active_on (camera_id : string) (v : TrackedPerson) : bool :=
  is_active v && String.eqb (tracking_system.camera_id v) camera_id.

(** The comprehension of lines 107-108. *)
Definition active_objects (self : CentroidTracker) (camera_id : string)
  : Dict.t Z TrackedPerson :=
  filter (fun kv => active_on camera_id (snd kv)) (objects self).

(** The distance matrix [D] of line 119. *)
Definition distance_matrix (self : CentroidTracker)
  (detections : list Detection) (camera_id : string) : list (list Z) :=
  np.cdist (map centroid (Dict.values (active_objects self camera_id)))
           (map center detections).

(** [D[row, col] > self.max_distance], on squared distances. *)
Definition too_far (D : list (list Z)) (row col : nat) (max_distance : Z)
  : bool :=
  (max_distance <? 0) || (max_distance * max_distance <? np.at2 D row col).

Definition mem (i : nat) (s : list nat) : bool := existsb (Nat.eqb i) s.

(** State of the matching loop of lines 126-149. *)
Record match_state : Type := {
  ms_self : CentroidTracker;
  used_rows : list nat;
  used_cols : list nat
}.

(** One iteration of [for (row, col) in zip(rows, cols)]. *)
Definition match_step (D : list (list Z)) (object_ids : list Z)
  (detections : list Detection) (now : datetime)
  (st : match_state) (rc : nat * nat) : match_state :=
  let (row, col) := rc in
  if mem row (used_rows st) || mem col (used_cols st) then st
  else if too_far D row col (max_distance (ms_self st)) then st
  else
    match nth_error object_ids row, nth_error detections col with
    | Some tracking_id, Some det =>
        {| ms_self :=
             with_objects (ms_self st)
               (Dict.modify tracking_id (set_matched det now)
                  (objects (ms_self st)));
           used_rows := row :: used_rows st;
           used_cols := col :: used_cols st |}
    | _, _ => st
    end.

(** Python visits a set in the order of its hash table, which need not be
    the ascending one.  [range_minus n used] is [set(range(n)) - used] as the
    loops of lines 152-165 visit it: every remaining index, once. *)
Class SetIteration : Type := {
  range_minus : nat -> list nat -> list nat;
  range_minus_lists : forall n used,
    Permutation (range_minus n used)
      (filter (fun i => negb (mem i used)) (seq 0 n))
}.

(** The iteration that visits the remaining indices in ascending order. *)
Definition ascending : SetIteration :=
  {| range_minus := fun n used => filter (fun i => negb (mem i used)) (seq 0 n);
     range_minus_lists := fun n used => Permutation_refl _ |}.

Section WithNumpy.
Context {numpy : np.Argsort} {python : SetIteration}.

(** [rows] and [cols] of lines 123-124. *)
Definition match_order (D : list (list Z)) : list (nat * nat) :=
  let rows := np.argsort (np.min_axis1 D) in
  let cols := map (fun r => nth r (np.argmin_axis1 D) 0%nat) rows in
  combine rows cols.

(** The whole matching loop. *)
Definition match_loop (self : CentroidTracker) (detections : list Detection)
  (camera_id : string) (now : datetime) : match_state :=
  let D := distance_matrix self detections camera_id in
  let object_ids := Dict.keys (active_objects self camera_id) in
  fold_left (match_step D object_ids detections now) (match_order D)
    {| ms_self := self; used_rows := []; used_cols := [] |}.

(** [set(range(n)) - used], in the order the [for] loops visit it. *)
Definition unused (n : nat) (used : list nat) : list nat :=
  range_minus n used.

(** [CentroidTracker.update].  The returned dictionary is [self.objects]
    itself, that is [objects] of the result. *)
Definition update (self : CentroidTracker) (detections : list Detection)
  (camera_id : string) (now : datetime) : CentroidTracker :=
  match detections with
  | [] =>
      fold_left
        (fun self tracking_id =>
           match Dict.get tracking_id (objects self) with
           | Some person =>
               if active_on camera_id person
               then miss now self tracking_id
               else self
           | None => self
           end)
        (Dict.keys (objects self)) self
  | _ :: _ =>
      let active_objects := active_objects self camera_id in
      if (length active_objects =? 0)%nat then
        fold_left
          (fun self det =>
             fst (register self (center det) (detection_engine.bbox det)
                    (detection_engine.confidence det) camera_id now))
          detections self
      else
        let object_ids := Dict.keys active_objects in
        let D := distance_matrix self detections camera_id in
        let st := match_loop self detections camera_id now in
        let unused_rows := unused (length D) (used_rows st) in
        let self1 :=
          fold_left
            (fun self row =>
               match nth_error object_ids row with
               | Some tracking_id => miss now self tracking_id
               | None => self
               end)
            unused_rows (ms_self st) in
        let unused_cols := unused (length detections) (used_cols st) in
        fold_left
          (fun self col =>
             match nth_error detections col with
             | Some det =>
                 fst (register self (center det) (detection_engine.bbox det)
                        (detection_engine.confidence det) camera_id now)
             | None => self
             end)
          unused_cols self1
  end.

(** The (identity, detection index) pairs assigned by an update, in the
    order the loop assigned them; none when the loop is not reached. *)
Definition assigned_pairs (self : CentroidTracker)
  (detections : list Detection) (camera_id : string) (now : datetime)
  : list (Z * nat) :=
  match detections with
  | [] => []
  | _ :: _ =>
      if (length (active_objects self camera_id) =? 0)%nat then []
      else
        let st := match_loop self detections camera_id now in
        let object_ids := Dict.keys (active_objects self camera_id) in
        map (fun rc => (nth (fst rc) object_ids 0, snd rc))
            (rev (combine (used_rows st) (used_cols st)))
  end.

(** Python truthiness of an optional string argument. *)
Definition truthy (s : option string) : bool :=
  match s with
  | Some s => negb (String.eqb s "")
  | None => false
  end.

(** [CentroidTracker.get_active_persons] *)
Definition get_active_persons (self : CentroidTracker)
  (camera_id : option string) : Dict.t Z TrackedPerson :=
  if truthy camera_id then
    filter (fun kv => active_on (match camera_id with Some c => c | None => "" end)
                        (snd kv)) (objects self)
  else filter (fun kv => is_active (snd kv)) (objects self).

(** [CentroidTracker.get_person] *)
Definition get_person (self : CentroidTracker) (tracking_id : Z)
  : option TrackedPerson :=
  Dict.get tracking_id (objects self).

(** [CentroidTracker.set_employee_id] *)
Definition set_employee_id (self : CentroidTracker) (tracking_id : Z)
  (employee_id : string) : CentroidTracker :=
  if Dict.contains tracking_id (objects self)
  then with_objects self
         (Dict.modify tracking_id (set_employee employee_id) (objects self))
  else self.

Record TrackingManager : Type := {
  trackers : Dict.t string CentroidTracker;
  (** [identify_face] of the engine handed to the constructor, if any *)
  face_recognition : option (Frame -> BBox -> option string)
}.

Definition with_trackers (self : TrackingManager)
  (t : Dict.t string CentroidTracker) : TrackingManager :=
  {| trackers := t; face_recognition := face_recognition self |}.

(** [TrackingManager.__init__] *)
Definition manager_init
  (face_recognition_engine : option (Frame -> BBox -> option string))
  : TrackingManager :=
  {| trackers := Dict.empty; face_recognition := face_recognition_engine |}.

(** [TrackingManager.get_tracker]: get or create. *)
Definition get_tracker (self : TrackingManager) (camera_id : string)
  : TrackingManager * CentroidTracker :=
  match Dict.get camera_id (trackers self) with
  | Some tracker => (self, tracker)
  | None =>
      let tracker :=
        init config.TRACKING_MAX_DISAPPEARED config.TRACKING_MAX_DISTANCE in
      (with_trackers self (Dict.set camera_id tracker (trackers self)),
       tracker)
  end.

(** The identification loop of lines 232-239 on one tracker. *)
Definition identify_all (identify : Frame -> BBox -> option string)
  (frame : Frame) (tracker : CentroidTracker) : CentroidTracker :=
  fold_left
    (fun tracker tracking_id =>
       match Dict.get tracking_id (objects tracker) with
       | Some person =>
           if is_active person &&
              match employee_id person with None => true | Some _ => false end
           then
             let employee_id := identify frame (bbox person) in
             if truthy employee_id
             then set_employee_id tracker tracking_id
                    (match employee_id with Some e => e | None => "" end)
             else tracker
           else tracker
       | None => tracker
       end)
    (Dict.keys (objects tracker)) tracker.

(** [TrackingManager.update]: the manager afterwards and the dictionary
    returned. *)
Definition manager_update (self : TrackingManager) (camera_id : string)
  (detections : list Detection) (frame : option Frame) (now : datetime)
  : TrackingManager * Dict.t Z TrackedPerson :=
  let (self1, tracker) := get_tracker self camera_id in
  let tracker1 := update tracker detections camera_id now in
  let tracker2 :=
    match face_recognition self1, frame with
    | Some identify, Some frame => identify_all identify frame tracker1
    | _, _ => tracker1
    end in
  (with_trackers self1 (Dict.set camera_id tracker2 (trackers self1)),
   objects tracker2).

(** [all_persons.update(d)] *)
Definition dict_update {V : Type} (into d : Dict.t Z V) : Dict.t Z V :=
  fold_left (fun acc kv => Dict.set (fst kv) (snd kv) acc) d into.

(** [TrackingManager.get_active_persons] *)
Definition manager_get_active_persons (self : TrackingManager)
  (camera_id : option string)
  : TrackingManager * Dict.t Z TrackedPerson :=
  if truthy camera_id then
    let (self1, tracker) :=
      get_tracker self (match camera_id with Some c => c | None => "" end) in
    (self1, get_active_persons tracker None)
  else
    (self,
     fold_left (fun all_persons tracker =>
                  dict_update all_persons (get_active_persons tracker None))
       (Dict.values (trackers self)) Dict.empty).

(** [TrackingManager.get_newly_left_persons] *)
Definition get_newly_left_persons (self : TrackingManager)
  (camera_id : string) : TrackingManager * list TrackedPerson :=
  let (self1, tracker) := get_tracker self camera_id in
  (self1,
   filter
     (fun person =>
        negb (is_active person) &&
        String.eqb (tracking_system.camera_id person) camera_id &&
        (disappeared_frames person =? max_disappeared tracker + 1))
     (Dict.values (objects tracker))).

(** [CentroidTracker.clear_camera] *)
Definition clear_camera (self : CentroidTracker) (camera_id : string)
  : CentroidTracker :=
  fold_left
    (fun self tracking_id =>
       match Dict.get tracking_id (objects self) with
       | Some person =>
           if String.eqb (tracking_system.camera_id person) camera_id
           then deregister self tracking_id
           else self
       | None => self
       end)
    (Dict.keys (objects self)) self.

(** [TrackingManager.clear_camera] *)
Definition manager_clear_camera (self : TrackingManager) (camera_id : string)
  : TrackingManager :=
  match Dict.get camera_id (trackers self) with
  | Some tracker =>
      with_trackers self
        (Dict.set camera_id (clear_camera tracker camera_id) (trackers self))
  | None => self
  end.

(** The dictionary returned by [TrackingManager.get_statistics]; an entry of
    [cameras] is (camera, (total, active)). *)
Record Statistics : Type := {
  total_cameras : Z;
  total_tracked : Z;
  total_active : Z;
  cameras : list (string * (Z * Z))
}.

(** [sum(...)] *)
Definition sum (l : list Z) : Z := fold_left Z.add l 0.

(** [TrackingManager.get_statistics] *)
Definition manager_get_statistics (self : TrackingManager) : Statistics :=
  {| total_cameras := Z.of_nat (length (trackers self));
     total_tracked :=
       sum (map (fun t => Z.of_nat (length (objects t)))
              (Dict.values (trackers self)));
     total_active :=
       sum (map (fun t => Z.of_nat (length (get_active_persons t None)))
              (Dict.values (trackers self)));
     cameras :=
       map (fun item =>
              (fst item,
               (Z.of_nat (length (objects (snd item))),
                Z.of_nat (length (get_active_persons (snd item) None)))))
         (trackers self) |}.

End WithNumpy.

End tracking_system.

(* ================================================================== *)
(** ** [app/database.py]: the two tables the pipeline writes

    The writes of the processing loop ([log_entry], [log_exit]) are taken
    to succeed.  Whether the write of an alert raises is the host's
    ([alert_manager.Host]): [_trigger_alert] catches it and goes on. *)

Module database.

Record PresenceLog : Type := {
  tracking_id : Z;
  camera_id : string;
  employee_id : option string;
  entry_time : datetime;
  exit_time : option datetime
}.

Record AbsenceAlert : Type := {
  alert_tracking_id : Z;
  alert_employee_id : string;
  left_at : datetime;
  alert_triggered_at : datetime;
  timeout_minutes : Z
}.

Record Database : Type := {
  presence_logs : list PresenceLog;
  absence_alerts : list AbsenceAlert
}.

Definition empty : Database := {| presence_logs := []; absence_alerts := [] |}.

(** [Database.log_entry] *)
Definition log_entry (self : Database) (tracking_id : Z) (camera_id : string)
  (employee_id : option string) (now : datetime) : Database :=
  {| presence_logs :=
       presence_logs self ++
       [{| tracking_id := tracking_id; camera_id := camera_id;
           employee_id := employee_id; entry_time := now;
           exit_time := None |}];
     absence_alerts := absence_alerts self |}.

(** The [WHERE] clause of [log_exit]. *)
Definition open_for (tracking_id : Z) (camera_id : string) (row : PresenceLog)
  : bool :=
  (database.tracking_id row =? tracking_id) &&
  String.eqb (database.camera_id row) camera_id &&
  match exit_time row with None => true | Some _ => false end.

(** Position of the open row with the latest [entry_time]. *)
Fixpoint latest_open (tracking_id : Z) (camera_id : string)
  (rows : list PresenceLog) (i : nat) (best : option (nat * datetime))
  : option nat :=
  match rows with
  | [] => option_map fst best
  | row :: rest =>
      latest_open tracking_id camera_id rest (S i)
        (if open_for tracking_id camera_id row then
           match best with
           | Some (_, t) =>
               if t <=? entry_time row then Some (i, entry_time row) else best
           | None => Some (i, entry_time row)
           end
         else best)
  end.

Fixpoint close_at (i : nat) (now : datetime) (rows : list PresenceLog)
  : list PresenceLog :=
  match rows, i with
  | [], _ => []
  | row :: rest, O =>
      {| tracking_id := tracking_id row; camera_id := camera_id row;
         employee_id := employee_id row; entry_time := entry_time row;
         exit_time := Some now |} :: rest
  | row :: rest, S j => row :: close_at j now rest
  end.

(** [Database.log_exit] *)
Definition log_exit (self : Database) (tracking_id : Z) (camera_id : string)
  (now : datetime) : Database * bool :=
  match latest_open tracking_id camera_id (presence_logs self) 0 None with
  | Some i =>
      ({| presence_logs := close_at i now (presence_logs self);
          absence_alerts := absence_alerts self |}, true)
  | None => (self, false)
  end.

(** SQLite returns the rows of a query with [ORDER BY entry_time DESC] by
    descending entry time; the order of rows of equal entry time is the
    engine's.  [before_on_tie rows row r] tells whether, in the result for
    the selected [rows], [row] comes before the later row [r] of the same
    entry time. *)
Class Engine : Type := {
  before_on_tie : list PresenceLog -> PresenceLog -> PresenceLog -> bool
}.

(** The engine that leaves rows of equal entry time in table order. *)
Definition table_order : Engine := {| before_on_tie := fun _ _ _ => true |}.

Section WithEngine.
Context {sqlite : Engine}.

Fixpoint insert_row (rows : list PresenceLog) (row : PresenceLog)
  (sorted : list PresenceLog) : list PresenceLog :=
  match sorted with
  | [] => [row]
  | r :: rest =>
      if (entry_time r <? entry_time row) ||
         ((entry_time r =? entry_time row) && before_on_tie rows row r)
      then row :: sorted
      else r :: insert_row rows row rest
  end.

(** [ORDER BY pl.entry_time DESC] *)
Definition order_by_entry_time_desc (rows : list PresenceLog)
  : list PresenceLog :=
  fold_right (insert_row rows) [] rows.

(** [Database.get_active_presences(camera_id)], as the tracking ids of the
    rows returned, in the order they are returned. *)
Definition get_active_presences (self : Database) (camera_id : string)
  : list Z :=
  map tracking_id
    (order_by_entry_time_desc
       (filter
          (fun row =>
             match exit_time row with None => true | Some _ => false end &&
             (String.eqb camera_id "" ||
              String.eqb (database.camera_id row) camera_id))
          (presence_logs self))).

End WithEngine.

(** [Database.create_alert] *)
Definition create_alert (self : Database) (tracking_id : Z)
  (employee_id : string) (left_at : datetime) (timeout_minutes : Z)
  (now : datetime) : Database :=
  {| presence_logs := presence_logs self;
     absence_alerts :=
       absence_alerts self ++
       [{| alert_tracking_id := tracking_id;
           alert_employee_id := employee_id; left_at := left_at;
           alert_triggered_at := now;
           timeout_minutes := timeout_minutes |}] |}.

End database.

(* ================================================================== *)
(** ** [app/alert_manager.py] *)

Module alert_manager.

Record Alert : Type := {
  tracking_id : Z;
  employee_id : string;
  left_at : datetime;
  timeout_minutes : Z;
  alert_time : datetime;
  triggered : bool;
  acknowledged : bool
}.

(** [Alert.__init__] *)
Definition new_alert (tracking_id : Z) (employee_id : string)
  (left_at : datetime) (timeout_minutes : Z) : Alert :=
  {| tracking_id := tracking_id; employee_id := employee_id;
     left_at := left_at; timeout_minutes := timeout_minutes;
     alert_time := left_at + 60 * timeout_minutes;
     triggered := false; acknowledged := false |}.

(** [Alert.should_trigger] *)
Definition should_trigger (self : Alert) (now : datetime) : bool :=
  negb (triggered self) && (alert_time self <=? now).

(** [alert.triggered = True] *)
Definition set_triggered (a : Alert) : Alert :=
  {| tracking_id := tracking_id a; employee_id := employee_id a;
     left_at := left_at a; timeout_minutes := timeout_minutes a;
     alert_time := alert_time a; triggered := true;
     acknowledged := acknowledged a |}.

(** [alert.acknowledged = True] *)
Definition set_acknowledged (a : Alert) : Alert :=
  {| tracking_id := tracking_id a; employee_id := employee_id a;
     left_at := left_at a; timeout_minutes := timeout_minutes a;
     alert_time := alert_time a; triggered := triggered a;
     acknowledged := true |}.

(** What a triggered alert sends out of the process. *)
Inductive Output : Type :=
| Notification (alert : Alert) (employee_name : string)
| Sound
| CallbackCalled (callback : nat) (alert : Alert).

(** What lies outside the manager and is written by it: the database and the
    outputs sent so far, oldest first. *)
Record World : Type := {
  db : database.Database;
  outputs : list Output
}.

Definition emit (w : World) (o : Output) : World :=
  {| db := db w; outputs := outputs w ++ [o] |}.

Record AlertManager : Type := {
  manager_timeout_minutes : Z;
  pending_alerts : Dict.t Z Alert;
  (** the registered callbacks, by identity *)
  alert_callbacks : list nat
}.

Definition with_pending (self : AlertManager) (p : Dict.t Z Alert)
  : AlertManager :=
  {| manager_timeout_minutes := manager_timeout_minutes self;
     pending_alerts := p; alert_callbacks := alert_callbacks self |}.

(** [AlertManager.__init__]; [timeout_minutes or config....] *)
Definition init (timeout_minutes : option Z) : AlertManager :=
  {| manager_timeout_minutes :=
       match timeout_minutes with
       | Some m => if m =? 0 then config.ABSENCE_TIMEOUT_MINUTES else m
       | None => config.ABSENCE_TIMEOUT_MINUTES
       end;
     pending_alerts := Dict.empty;
     alert_callbacks := [] |}.

(** [AlertManager.register_callback] *)
Definition register_callback (self : AlertManager) (callback : nat)
  : AlertManager :=
  {| manager_timeout_minutes := manager_timeout_minutes self;
     pending_alerts := pending_alerts self;
     alert_callbacks := alert_callbacks self ++ [callback] |}.

(** [AlertManager.add_pending_alert] *)
Definition add_pending_alert (self : AlertManager)
  (person : tracking_system.TrackedPerson) : AlertManager :=
  if Dict.contains (tracking_system.tracking_id person) (pending_alerts self)
  then self
  else
    let alert :=
      new_alert (tracking_system.tracking_id person)
        (match tracking_system.employee_id person with
         | Some e => if String.eqb e "" then "Unknown" else e
         | None => "Unknown"
         end)
        (tracking_system.last_seen person)
        (manager_timeout_minutes self) in
    with_pending self
      (Dict.set (tracking_system.tracking_id person) alert
         (pending_alerts self)).

(** [AlertManager.cancel_alert] *)
Definition cancel_alert (self : AlertManager) (tracking_id : Z)
  : AlertManager :=
  match Dict.get tracking_id (pending_alerts self) with
  | Some alert =>
      if negb (triggered alert)
      then with_pending self (Dict.del tracking_id (pending_alerts self))
      else self
  | None => self
  end.

(** What [_trigger_alert] relies on outside the process and guards with
    [try] / [except] or an availability flag: each can fail, and the method
    then logs and goes on. *)
Class Host : Type := {
  (** [self.database.create_alert(...)] raises for this alert at this time *)
  create_alert_raises : Alert -> datetime -> bool;
  (** the import of plyer at module load succeeded *)
  PLYER_AVAILABLE : bool;
  (** [notification.notify(...)] raises for this alert at this time *)
  notify_raises : Alert -> datetime -> bool;
  (** the import of winsound at module load succeeded *)
  WINSOUND_AVAILABLE : bool;
  (** [winsound.MessageBeep(...)] raises at this time *)
  MessageBeep_raises : datetime -> bool
}.

(** A host on which nothing fails. *)
Definition reliable : Host :=
  {| create_alert_raises := fun _ _ => false;
     PLYER_AVAILABLE := true;
     notify_raises := fun _ _ => false;
     WINSOUND_AVAILABLE := true;
     MessageBeep_raises := fun _ => false |}.

Section WithHost.
Context {host : Host}.

(** [AlertManager._show_notification] *)
Definition _show_notification (w : World) (alert : Alert) (now : datetime)
  : World :=
  if negb config.ALERT_NOTIFICATION_ENABLED then w
  else if PLYER_AVAILABLE then
    if notify_raises alert now then w
    else
      emit w (Notification alert
                (if String.eqb (employee_id alert) "" then "Unknown Employee"
                 else employee_id alert))
  else w.

(** [AlertManager._play_alert_sound] *)
Definition _play_alert_sound (w : World) (now : datetime) : World :=
  if WINSOUND_AVAILABLE then
    if MessageBeep_raises now then w else emit w Sound
  else w.

(** [AlertManager._trigger_alert].  The alert is passed by reference: it is
    the object held in [pending_alerts] under [alert_ref], and setting its
    [triggered] flag is seen through the dictionary.  A callback that
    raises has been called all the same. *)
Definition _trigger_alert (self : AlertManager) (w : World) (alert_ref : Z)
  (now : datetime) : AlertManager * World :=
  match Dict.get alert_ref (pending_alerts self) with
  | None => (self, w)
  | Some alert0 =>
      let self1 :=
        with_pending self
          (Dict.modify alert_ref set_triggered (pending_alerts self)) in
      let alert := set_triggered alert0 in
      let w1 :=
        if create_alert_raises alert now then w
        else
          {| db := database.create_alert (db w) (tracking_id alert)
                     (employee_id alert) (left_at alert)
                     (timeout_minutes alert) now;
             outputs := outputs w |} in
      let w2 := _show_notification w1 alert now in
      let w3 :=
        if config.ALERT_SOUND_ENABLED then _play_alert_sound w2 now else w2 in
      let w4 :=
        fold_left (fun w callback => emit w (CallbackCalled callback alert))
          (alert_callbacks self) w3 in
      (self1, w4)
  end.

(** [AlertManager._check_alerts] *)
Definition _check_alerts (self : AlertManager) (w : World) (now : datetime)
  : AlertManager * World :=
  let alerts_to_trigger :=
    map fst
      (filter (fun item => should_trigger (snd item) now)
         (pending_alerts self)) in
  fold_left (fun sw alert_ref => _trigger_alert (fst sw) (snd sw) alert_ref now)
    alerts_to_trigger (self, w).

End WithHost.

(** [AlertManager.get_pending_alerts] *)
Definition get_pending_alerts (self : AlertManager) : list Alert :=
  Dict.values (pending_alerts self).

(** [AlertManager.get_triggered_alerts] *)
Definition get_triggered_alerts (self : AlertManager) : list Alert :=
  filter (fun alert => triggered alert && negb (acknowledged alert))
    (Dict.values (pending_alerts self)).

(** [AlertManager.acknowledge_alert] *)
Definition acknowledge_alert (self : AlertManager) (tracking_id : Z)
  : AlertManager :=
  if Dict.contains tracking_id (pending_alerts self)
  then with_pending self
         (Dict.modify tracking_id set_acknowledged (pending_alerts self))
  else self.

(** [AlertManager.get_statistics]:
    [(total_pending, triggered, acknowledged, unacknowledged)] *)
Definition get_statistics (self : AlertManager) : Z * Z * Z * Z :=
  let total_pending := Z.of_nat (length (pending_alerts self)) in
  let triggered :=
    Z.of_nat (length (filter triggered (Dict.values (pending_alerts self)))) in
  let acknowledged :=
    Z.of_nat (length (filter acknowledged
                        (Dict.values (pending_alerts self)))) in
  (total_pending, triggered, acknowledged, triggered - acknowledged).

End alert_manager.

(* ================================================================== *)
(** ** [app/camera_manager.py]: the frame buffer and the camera table

    Opening the device and reading from it are outside; what is modelled is
    what the stream does with a frame once [capture.read()] has returned
    one, and what readers get.  [queue.Queue] is a list, oldest first. *)

Module camera_manager.

Record CameraStream : Type := {
  buffer_size : Z;
  frame_queue : list Frame;
  stopped : bool;
  frame_count : Z;
  last_frame : option Frame;
  (** [camera_info.is_active] *)
  info_is_active : bool
}.

(** [CameraStream.__init__] *)
Definition new_stream (buffer_size : Z) : CameraStream :=
  {| buffer_size := buffer_size; frame_queue := []; stopped := false;
     frame_count := 0; last_frame := None; info_is_active := false |}.

(** [self.frame_queue.full()]: [0 < maxsize <= qsize]; a queue made with
    [maxsize <= 0] is never full. *)
Definition full (self : CameraStream) : bool :=
  (0 <? buffer_size self) &&
  (buffer_size self <=? Z.of_nat (length (frame_queue self))).

(** The end of one round of [CameraStream._update], from "Update last
    frame" on, for a frame just read. *)
Definition deliver (self : CameraStream) (frame : Frame) : CameraStream :=
  {| buffer_size := buffer_size self;
     frame_queue :=
       if negb (full self) then frame_queue self ++ [frame]
       else
         match frame_queue self with
         | [] => []
         | _ :: rest => rest ++ [frame]
         end;
     stopped := stopped self;
     frame_count := frame_count self + 1;
     last_frame := Some frame;
     info_is_active := info_is_active self |}.

(** [CameraStream.read]: the stream afterwards and the frame returned. *)
Definition read (self : CameraStream) : CameraStream * option Frame :=
  match frame_queue self with
  | [] => (self, last_frame self)
  | frame :: rest =>
      ({| buffer_size := buffer_size self; frame_queue := rest;
          stopped := stopped self; frame_count := frame_count self;
          last_frame := last_frame self;
          info_is_active := info_is_active self |},
       Some frame)
  end.

(** [CameraStream.get_latest_frame] *)
Definition get_latest_frame (self : CameraStream) : option Frame :=
  last_frame self.

(** [CameraStream.is_active] *)
Definition is_active (self : CameraStream) : bool :=
  info_is_active self && negb (stopped self).

(** [CameraStream.stop] *)
Definition stop (self : CameraStream) : CameraStream :=
  {| buffer_size := buffer_size self; frame_queue := frame_queue self;
     stopped := true; frame_count := frame_count self;
     last_frame := last_frame self; info_is_active := false |}.

(** What [CameraStream.start] leaves when the device opened. *)
Definition started (self : CameraStream) : CameraStream :=
  {| buffer_size := buffer_size self; frame_queue := frame_queue self;
     stopped := false; frame_count := frame_count self;
     last_frame := last_frame self; info_is_active := true |}.

Record CameraManager : Type := {
  cameras : Dict.t string CameraStream
}.

(** [CameraManager.__init__] *)
Definition init : CameraManager := {| cameras := Dict.empty |}.

(** [CameraManager.add_camera]; [opened] is whether [stream.start()]
    managed to open the device. *)
Definition add_camera (self : CameraManager) (camera_id : string)
  (opened : bool) : CameraManager * bool :=
  if Dict.contains camera_id (cameras self) then (self, false)
  else
    let stream := new_stream 5 in
    if opened
    then ({| cameras := Dict.set camera_id (started stream) (cameras self) |},
          true)
    else (self, false).

(** [CameraManager.remove_camera] *)
Definition remove_camera (self : CameraManager) (camera_id : string)
  : CameraManager :=
  if Dict.contains camera_id (cameras self)
  then {| cameras := Dict.del camera_id (cameras self) |}
  else self.

(** [CameraManager.get_frame] *)
Definition get_frame (self : CameraManager) (camera_id : string)
  : option Frame :=
  match Dict.get camera_id (cameras self) with
  | Some camera =>
      if is_active camera then get_latest_frame camera else None
  | None => None
  end.

(** [CameraManager.get_active_cameras] *)
Definition get_active_cameras (self : CameraManager) : list string :=
  map fst (filter (fun item => is_active (snd item)) (cameras self)).

(** A frame arriving on one camera's stream: its thread running one round
    of [while not self.stopped] in [_update]. *)
Definition frame_arrives (self : CameraManager) (camera_id : string)
  (frame : Frame) : CameraManager :=
  {| cameras :=
       Dict.modify camera_id
         (fun s => if stopped s then s else deliver s frame)
         (cameras self) |}.

End camera_manager.

(* ================================================================== *)
(** ** [app/main.py]: the processing loop and the alert monitor *)

Module main.

Import tracking_system.

Section WithEnvironment.
Context {numpy : np.Argsort} {python : tracking_system.SetIteration}
  {sqlite : database.Engine} {host : alert_manager.Host}.

(** The module-level components and the loop's counter. *)
Record System : Type := {
  world : alert_manager.World;
  tracking_manager : TrackingManager;
  alert_mgr : alert_manager.AlertManager;
  frame_skip_counter : Z;
  (** [camera_update] messages sent over the socket:
      camera, detections, tracked, timestamp *)
  camera_updates : list (string * Z * Z * datetime)
}.

Definition with_db (w : alert_manager.World) (d : database.Database)
  : alert_manager.World :=
  {| alert_manager.db := d; alert_manager.outputs := alert_manager.outputs w |}.

(** The body of [for camera_id in active_cameras] in [process_cameras], for
    one camera: [frame] is what [camera_manager.get_frame] returned and
    [detections] what the detector returns on it. *)
Definition process_camera (sys : System) (camera_id : string)
  (frame : option Frame) (detections : list detection_engine.Detection)
  (now : datetime) : System :=
  match frame with
  | None => sys
  | Some frame =>
      let counter := frame_skip_counter sys + 1 in
      if negb (counter mod config.FRAME_SKIP =? 0) then
        {| world := world sys; tracking_manager := tracking_manager sys;
           alert_mgr := alert_mgr sys; frame_skip_counter := counter;
           camera_updates := camera_updates sys |}
      else
        let (tm1, tracked_persons) :=
          manager_update (tracking_manager sys) camera_id detections
            (Some frame) now in
        let (tm2, active_persons) :=
          manager_get_active_persons tm1 (Some camera_id) in
        let db1 :=
          fold_left
            (fun db item =>
               let existing_ids := database.get_active_presences db camera_id in
               if existsb (Z.eqb (fst item)) existing_ids then db
               else database.log_entry db (fst item) camera_id
                      (employee_id (snd item)) now)
            active_persons (alert_manager.db (world sys)) in
        let (tm3, newly_left) := get_newly_left_persons tm2 camera_id in
        let (db2, am) :=
          fold_left
            (fun st person =>
               (fst (database.log_exit (fst st) (tracking_id person)
                       camera_id now),
                alert_manager.add_pending_alert (snd st) person))
            newly_left (db1, alert_mgr sys) in
        {| world := with_db (world sys) db2;
           tracking_manager := tm3;
           alert_mgr := am;
           frame_skip_counter := counter;
           camera_updates :=
             camera_updates sys ++
             [(camera_id, Z.of_nat (length detections),
               Z.of_nat (length active_persons), now)] |}
  end.

(** One pass of [AlertManager._monitor_loop], run by the monitor thread
    under the manager's lock. *)
Definition monitor_pass (sys : System) (now : datetime) : System :=
  let (am, w) := alert_manager._check_alerts (alert_mgr sys) (world sys) now in
  {| world := w; tracking_manager := tracking_manager sys;
     alert_mgr := am; frame_skip_counter := frame_skip_counter sys;
     camera_updates := camera_updates sys |}.

(** What happens in a running system: the processing thread handles one
    camera, or the monitor thread makes one pass.  The two threads
    interleave at this grain here; the manager's lock serialises its own
    operations. *)
Inductive Event : Type :=
| CameraFrame (camera_id : string) (frame : option Frame)
    (detections : list detection_engine.Detection) (now : datetime)
| MonitorPass (now : datetime).

Definition step (sys : System) (e : Event) : System :=
  match e with
  | CameraFrame camera_id frame detections now =>
      process_camera sys camera_id frame detections now
  | MonitorPass now => monitor_pass sys now
  end.

Definition run (sys : System) (events : list Event) : System :=
  fold_left step events sys.

(** The components as created at import of [main.py], after [init_system]
    registered its socket callback. *)
Definition initial : System :=
  {| world := {| alert_manager.db := database.empty;
                 alert_manager.outputs := [] |};
     tracking_manager := manager_init (Some (fun _ _ => None));
     alert_mgr :=
       alert_manager.register_callback
         (alert_manager.init (Some config.ABSENCE_TIMEOUT_MINUTES)) 0;
     frame_skip_counter := 0;
     camera_updates := [] |}.

End WithEnvironment.

End main.

(* ================================================================== *)
(** ** Observations and invariants used in the statements *)

Module observe.

Import alert_manager.

Section WithEnvironment.
Context {numpy : np.Argsort} {python : tracking_system.SetIteration}
  {sqlite : database.Engine} {host : Host}.

(** Rows of [absence_alerts] recorded for a tracking id. *)
Definition db_records (tid : Z) (w : World) : nat :=
  length (filter (fun row => database.alert_tracking_id row =? tid)
            (database.absence_alerts (db w))).

Definition is_notification_for (tid : Z) (o : Output) : bool :=
  match o with
  | Notification alert _ => tracking_id alert =? tid
  | _ => false
  end.

(** Desktop notifications shown for a tracking id. *)
Definition notifications (tid : Z) (w : World) : nat :=
  length (filter (is_notification_for tid) (outputs w)).

Definition is_call_for (callback : nat) (tid : Z) (o : Output) : bool :=
  match o with
  | CallbackCalled c alert => Nat.eqb c callback && (tracking_id alert =? tid)
  | _ => false
  end.

(** Invocations of one registered callback for a tracking id. *)
Definition callback_calls (callback : nat) (tid : Z) (w : World) : nat :=
  length (filter (is_call_for callback tid) (outputs w)).

(** Rows [database.create_alert] leaves for an alert triggered at a time:
    none when the write raises. *)
Definition recorded (alert : Alert) (now : datetime) : nat :=
  if create_alert_raises alert now then 0 else 1.

(** Notifications shown for an alert triggered at a time: none without
    plyer or when [notify] raises. *)
Definition notified (alert : Alert) (now : datetime) : nat :=
  if negb config.ALERT_NOTIFICATION_ENABLED then 0
  else if PLYER_AVAILABLE then
    if notify_raises alert now then 0 else 1
  else 0.

(** The same for the alert pending under a tracking id, were it triggered
    at that time. *)
Definition to_record (self : AlertManager) (now : datetime) (tid : Z) : nat :=
  match Dict.get tid (pending_alerts self) with
  | Some a => recorded (set_triggered a) now
  | None => 0
  end.

Definition to_notify (self : AlertManager) (now : datetime) (tid : Z) : nat :=
  match Dict.get tid (pending_alerts self) with
  | Some a => notified (set_triggered a) now
  | None => 0
  end.

(** Every pending alert is filed under its own tracking id, once. *)
Definition alerts_ok (self : AlertManager) : Prop :=
  NoDup (Dict.keys (pending_alerts self)) /\
  Forall (fun item => tracking_id (snd item) = fst item) (pending_alerts self).

(** [a'] is [a], possibly with its [triggered] flag set since. *)
Definition kept (a a' : Alert) : Prop := a' = a \/ a' = set_triggered a.

(** The evaluator run at each of the given times in turn. *)
Definition check_all (self : AlertManager) (w : World) (times : list datetime)
  : AlertManager * World :=
  fold_left (fun sw now => _check_alerts (fst sw) (snd sw) now) times (self, w).

(** Tracking ids are issued in sequence from 1 and entries are never
    deleted: the table's keys are [1, ..., next_object_id - 1] in order, and
    each person carries the id it is filed under. *)
Definition issued_ids (next_object_id : Z) : list Z :=
  map Z.of_nat (seq 1 (Z.to_nat (next_object_id - 1))).

(** The person carries the id it is filed under. *)
Definition keyed (item : Z * tracking_system.TrackedPerson) : Prop :=
  tracking_system.tracking_id (snd item) = fst item.

Definition tracker_ok (self : tracking_system.CentroidTracker) : Prop :=
  1 <= tracking_system.next_object_id self /\
  Dict.keys (tracking_system.objects self) =
    issued_ids (tracking_system.next_object_id self) /\
  Forall keyed (tracking_system.objects self).

(** What a missed frame does to one person (the body [miss] seen from the
    person). *)
Definition missed (now : datetime) (max_disappeared : Z)
  (p : tracking_system.TrackedPerson) : tracking_system.TrackedPerson :=
  if tracking_system.disappeared_frames p + 1 >? max_disappeared
  then tracking_system.set_is_active false (tracking_system.set_missed now p)
  else tracking_system.set_missed now p.

(** What a frame without detections does to one person. *)
Definition aged (camera_id : string) (now : datetime) (max_disappeared : Z)
  (p : tracking_system.TrackedPerson) : tracking_system.TrackedPerson :=
  if tracking_system.active_on camera_id p
  then missed now max_disappeared p
  else p.

(** The person [register] creates for a detection. *)
Definition new_person (tracking_id : Z) (det : detection_engine.Detection)
  (camera_id : string) (now : datetime) : tracking_system.TrackedPerson :=
  {| tracking_system.tracking_id := tracking_id;
     tracking_system.employee_id := None;
     tracking_system.centroid := detection_engine.center det;
     tracking_system.bbox := detection_engine.bbox det;
     tracking_system.first_seen := now;
     tracking_system.last_seen := now;
     tracking_system.disappeared_frames := 0;
     tracking_system.is_active := true;
     tracking_system.camera_id := camera_id;
     tracking_system.confidence := detection_engine.confidence det |}.

(** The entries created by registering detections in turn, the first under
    [next_object_id]. *)
Fixpoint registered (next_object_id : Z)
  (detections : list detection_engine.Detection) (camera_id : string)
  (now : datetime) : Dict.t Z tracking_system.TrackedPerson :=
  match detections with
  | [] => []
  | det :: rest =>
      (next_object_id, new_person next_object_id det camera_id now)
      :: registered (next_object_id + 1) rest camera_id now
  end.

(** The elements of [l] at the given positions, in that order (positions
    out of range give nothing). *)
Definition picks {A : Type} (l : list A) (positions : list nat) : list A :=
  flat_map (fun i => match nth_error l i with Some x => [x] | None => [] end)
    positions.

(** [update] called with an empty detection list at each of the given
    times in turn. *)
Definition feed_empty (self : tracking_system.CentroidTracker)
  (camera_id : string) (times : list datetime)
  : tracking_system.CentroidTracker :=
  fold_left (fun t now => tracking_system.update t [] camera_id now)
    times self.

(** One call of [CentroidTracker.update] / [TrackingManager.update]. *)
Record Call : Type := {
  call_camera : string;
  call_detections : list detection_engine.Detection;
  call_frame : option Frame;
  call_now : datetime
}.

Definition tracker_run (self : tracking_system.CentroidTracker)
  (calls : list Call) : tracking_system.CentroidTracker :=
  fold_left
    (fun t c =>
       tracking_system.update t (call_detections c) (call_camera c)
         (call_now c))
    calls self.

Definition manager_run (self : tracking_system.TrackingManager)
  (calls : list Call) : tracking_system.TrackingManager :=
  fold_left
    (fun m c =>
       fst (tracking_system.manager_update m (call_camera c)
              (call_detections c) (call_frame c) (call_now c)))
    calls self.

(** Every tracker of the manager satisfies the table invariant. *)
Definition manager_ok (self : tracking_system.TrackingManager) : Prop :=
  forall camera_id tracker,
    Dict.get camera_id (tracking_system.trackers self) = Some tracker ->
    tracker_ok tracker.

(** Tracking ids held by a camera's tracker, in order of creation. *)
Definition ids_of (self : tracking_system.TrackingManager)
  (camera_id : string) : list Z :=
  match Dict.get camera_id (tracking_system.trackers self) with
  | Some tracker =>
      map tracking_system.tracking_id
        (Dict.values (tracking_system.objects tracker))
  | None => []
  end.

Definition same_pairs {A : Type} (l1 l2 : list A) : Prop :=
  forall x, In x l1 <-> In x l2.

(** [i] stands before [j] in the listing [l]. *)
Definition listed_before (l : list nat) (i j : nat) : Prop :=
  exists pre post, l = pre ++ i :: post /\ In j post.

(** The order in which the insertion sort lists the positions of [v]: by
    value, equal values by position. *)
Definition row_before (v : list Z) (i j : nat) : Prop :=
  nth i v 0 < nth j v 0 \/ (nth i v 0 = nth j v 0 /\ (i < j)%nat).

End WithEnvironment.

End observe.

(* ================================================================== *)
(** ** The assignment policy as the specification words it

    Section 4.2 of the specification: "repeatedly pick the globally smallest
    remaining distance whose row (existing identity) and column (detection)
    are both unused; assign it only if the distance is at most
    [maxDistance]; mark row and column used and continue until no eligible
    pair remains", ties "broken by input order".  This is written from those
    words, to be compared with [tracking_system.match_loop]. *)

Module reference.

Import tracking_system.

(** Pairs with unused row and column, detections in input order. *)
Definition remaining (n_rows n_cols : nat) (used_rows used_cols : list nat)
  : list (nat * nat) :=
  filter (fun rc => negb (mem (fst rc) used_rows) &&
                    negb (mem (snd rc) used_cols))
    (flat_map (fun c => map (fun r => (r, c)) (seq 0 n_rows)) (seq 0 n_cols)).

(** The first pair of least distance. *)
Fixpoint smallest (D : list (list Z)) (best : nat * nat)
  (l : list (nat * nat)) : nat * nat :=
  match l with
  | [] => best
  | rc :: r =>
      if np.at2 D (fst rc) (snd rc) <? np.at2 D (fst best) (snd best)
      then smallest D rc r
      else smallest D best r
  end.

(** One round per identity at most, so [rounds = n_rows] runs to the end. *)
Fixpoint greedy (rounds : nat) (D : list (list Z)) (n_rows n_cols : nat)
  (max_distance : Z) (used_rows used_cols : list nat) : list (nat * nat) :=
  match rounds with
  | O => []
  | S rounds =>
      match remaining n_rows n_cols used_rows used_cols with
      | [] => []
      | rc :: r =>
          let best := smallest D rc r in
          if too_far D (fst best) (snd best) max_distance then []
          else best :: greedy rounds D n_rows n_cols max_distance
                         (fst best :: used_rows) (snd best :: used_cols)
      end
  end.

Definition greedy_pairs (self : CentroidTracker)
  (detections : list detection_engine.Detection) (camera_id : string)
  : list (Z * nat) :=
  let D := distance_matrix self detections camera_id in
  let object_ids := Dict.keys (active_objects self camera_id) in
  map (fun rc => (nth (fst rc) object_ids 0, snd rc))
    (greedy (length D) D (length D) (length detections)
       (max_distance self) [] []).

End reference.

(* ================================================================== *)
(** ** Sample data, after the fixtures of [tests/] *)

Module sample.

Import tracking_system.

(** The samples are computed with the insertion sort for [argsort], sets
    visited in ascending order, rows of equal entry time in table order, and
    on a host on which nothing fails. *)
#[local] Existing Instance np.stable.
#[local] Existing Instance tracking_system.ascending.
#[local] Existing Instance database.table_order.
#[local] Existing Instance alert_manager.reliable.

Definition det (x y : Z) : detection_engine.Detection :=
  {| detection_engine.bbox := (x - 25, y - 50, 50, 100);
     detection_engine.confidence := (9 # 10)%Q;
     detection_engine.center := (x, y);
     detection_engine.frame_id := 1 |}.

(** [sample_person] of [tests/test_alerts.py], last seen at time 0. *)
Definition person (tracking_id : Z) : TrackedPerson :=
  {| tracking_id := tracking_id; employee_id := Some "EMP001"%string;
     centroid := (100, 100); bbox := (80, 80, 40, 80);
     first_seen := 0; last_seen := 0; disappeared_frames := 0;
     is_active := true; camera_id := "cam1"%string;
     confidence := (0 # 1)%Q |}.

(** [alert_manager] of [tests/test_alerts.py] with [sample_person] added. *)
Definition manager_with_alert : alert_manager.AlertManager :=
  alert_manager.add_pending_alert (alert_manager.init (Some 20)) (person 1).

Definition no_world : alert_manager.World :=
  {| alert_manager.db := database.empty; alert_manager.outputs := [] |}.

(** [centroid_tracker] of [tests/test_tracking.py]. *)
Definition centroid_tracker : CentroidTracker := init 5 50.

(** One person seen on [cam1] at time 0. *)
Definition one_person : CentroidTracker :=
  update centroid_tracker [det 125 150] "cam1" 0.

(** That person after one frame without detections. *)
Definition one_person_missed_once : CentroidTracker :=
  update one_person [] "cam1" 1.

(** Two persons seen together at time 0; then, for six frames, only the
    second: the first has departed, the second is active at (130,155). *)
Definition departed_and_active : CentroidTracker :=
  observe.tracker_run
    (update centroid_tracker [det 125 150; det 130 155] "cam1" 0)
    (map (fun i => {| observe.call_camera := "cam1"%string;
                      observe.call_detections := [det 130 155];
                      observe.call_frame := None;
                      observe.call_now := Z.of_nat i |})
       (seq 1 6)).

(** The end-to-end scenario of the specification: two persons registered,
    then a frame in which only the first is seen. *)
Definition scenario : CentroidTracker :=
  update (update centroid_tracker [det 125 150; det 325 250] "cam1" 0)
    [det 130 155] "cam1" 1.

(** Two persons ten pixels apart. *)
Definition two_close : CentroidTracker :=
  update centroid_tracker [det 0 0; det 0 10] "cam1" 0.

Definition call (camera_id : string)
  (detections : list detection_engine.Detection) (now : datetime)
  : observe.Call :=
  {| observe.call_camera := camera_id;
     observe.call_detections := detections;
     observe.call_frame := None;
     observe.call_now := now |}.

(** [n] updates of [cam1] without detections, at times [t+1, ..., t+n]. *)
Definition empty_calls (t : datetime) (n : nat) : list observe.Call :=
  map (fun i => call "cam1" [] (t + Z.of_nat i)) (seq 1 n).

(** A manager that saw one person on [cam1] at time 0 and then nothing for
    31 frames, one more than [config.TRACKING_MAX_DISAPPEARED]. *)
Definition manager_after_departure : TrackingManager :=
  observe.manager_run (manager_init None)
    (call "cam1" [det 125 150] 0 :: empty_calls 0 31).

(** A recogniser that knows everybody as EMP001. *)
Definition recogniser : Frame -> BBox -> option string :=
  fun _ _ => Some "EMP001"%string.

(** A manager with that recogniser after one person was seen on [cam1]. *)
Definition manager_with_employee : TrackingManager :=
  fst (manager_update (manager_init (Some recogniser)) "cam1" [det 125 150]
         (Some []) 0).

(** A manager that saw one person on each of two cameras. *)
Definition two_cameras : TrackingManager :=
  observe.manager_run (manager_init None)
    [call "cam1" [det 125 150] 0; call "cam2" [det 325 250] 0].



(** A system whose alert manager holds the sample alert. *)
Definition system_with_alert : main.System :=
  {| main.world := no_world;
     main.tracking_manager := main.tracking_manager main.initial;
     main.alert_mgr := manager_with_alert;
     main.frame_skip_counter := 0;
     main.camera_updates := [] |}.

End sample.

(* ================================================================== *)
(** ** Further observations, for the properties beyond the claims *)

Module behaviour.

Import tracking_system.

Section WithEnvironment.
Context {numpy : np.Argsort} {python : tracking_system.SetIteration}
  {sqlite : database.Engine} {host : alert_manager.Host}.

(** What [clear_camera] does to one person. *)
Definition cleared (camera_id : string) (p : TrackedPerson) : TrackedPerson :=
  if String.eqb (tracking_system.camera_id p) camera_id
  then set_is_active false p
  else p.

(** The counter discipline of the tracker: an active person has missed at
    most [max_disappeared] frames in a row, a departed one exactly one
    more. *)
Definition counted (max_disappeared : Z) (p : TrackedPerson) : Prop :=
  (is_active p = true /\ 0 <= disappeared_frames p <= max_disappeared) \/
  (is_active p = false /\ disappeared_frames p = max_disappeared + 1).

(** What the identification loop of [TrackingManager.update] does to one
    person. *)
Definition identified (identify : Frame -> BBox -> option string)
  (frame : Frame) (p : TrackedPerson) : TrackedPerson :=
  if is_active p &&
     match employee_id p with None => true | Some _ => false end
  then
    let employee_id := identify frame (bbox p) in
    if truthy employee_id
    then set_employee (match employee_id with Some e => e | None => "" end) p
    else p
  else p.

(** Every entry of a table changed in place. *)
Definition map_values (f : TrackedPerson -> TrackedPerson)
  (d : Dict.t Z TrackedPerson) : Dict.t Z TrackedPerson :=
  map (fun item => (fst item, f (snd item))) d.

(** The persons of a camera that have departed. *)
Definition departed (camera_id : string) (person : TrackedPerson) : bool :=
  negb (is_active person) &&
  String.eqb (tracking_system.camera_id person) camera_id.

(** Every tracker of the manager is well formed, has the configured
    tolerance and keeps the counter discipline. *)
Definition disciplined (self : TrackingManager) : Prop :=
  forall camera_id t,
    Dict.get camera_id (trackers self) = Some t ->
    observe.tracker_ok t /\
    max_disappeared t = config.TRACKING_MAX_DISAPPEARED /\
    forall k p, Dict.get k (objects t) = Some p ->
                counted config.TRACKING_MAX_DISAPPEARED p.

(** [n] calls of [CameraStream.read] in a row: the stream afterwards and
    the answers, first call first. *)
Fixpoint reads (n : nat) (self : camera_manager.CameraStream)
  : camera_manager.CameraStream * list (option Frame) :=
  match n with
  | O => (self, [])
  | S n =>
      let (self1, frame) := camera_manager.read self in
      let (self2, frames) := reads n self1 in
      (self2, frame :: frames)
  end.

(** One turn of the processing loop for a camera that has a frame: the
    frame, what the detector finds on it, and the time. *)
Definition frame_event (camera_id : string)
  (x : Frame * list detection_engine.Detection * datetime) : main.Event :=
  main.CameraFrame camera_id (Some (fst (fst x))) (snd (fst x)) (snd x).

(** Rounds of [for camera_id in active_cameras] over two active cameras
    that both have a frame. *)
Definition two_camera_rounds (cam1 cam2 : string)
  (rounds : list ((Frame * list detection_engine.Detection * datetime) *
                  (Frame * list detection_engine.Detection * datetime)))
  : list main.Event :=
  flat_map (fun r => [frame_event cam1 (fst r); frame_event cam2 (snd r)])
    rounds.

(** The calls a client can make on an [AlertManager], the monitor's pass
    among them. *)
Inductive Op : Type :=
| Add (person : TrackedPerson)
| Cancel (tracking_id : Z)
| Acknowledge (tracking_id : Z)
| Check (now : datetime)
| RegisterCallback (callback : nat).

Definition apply (sw : alert_manager.AlertManager * alert_manager.World)
  (op : Op) : alert_manager.AlertManager * alert_manager.World :=
  match op with
  | Add person => (alert_manager.add_pending_alert (fst sw) person, snd sw)
  | Cancel tid => (alert_manager.cancel_alert (fst sw) tid, snd sw)
  | Acknowledge tid => (alert_manager.acknowledge_alert (fst sw) tid, snd sw)
  | Check now => alert_manager._check_alerts (fst sw) (snd sw) now
  | RegisterCallback c => (alert_manager.register_callback (fst sw) c, snd sw)
  end.

Definition run (sw : alert_manager.AlertManager * alert_manager.World)
  (ops : list Op) : alert_manager.AlertManager * alert_manager.World :=
  fold_left apply ops sw.


(** Number of alerts of a list with a given property. *)
Definition count (p : alert_manager.Alert -> bool)
  (l : list alert_manager.Alert) : Z :=
  Z.of_nat (length (filter p l)).

End WithEnvironment.

End behaviour.

(* ================================================================== *)
(** * Properties *)

(* ------------------------------------------------------------------ *)
(** ** Dictionary facts *)

Module DictFacts.

Section Facts.
Context {K V : Type} `{Dict.Key K}.

Implicit Types (k : K) (v : V) (d : Dict.t K V).

Lemma eqb_refl k : Dict.eqb k k = true.
Proof. destruct (Dict.eqb_spec k k); congruence. Qed.

Lemma eqb_neq k k' : k <> k' -> Dict.eqb k k' = false.
Proof. intros ne. destruct (Dict.eqb_spec k k'); congruence. Qed.

Lemma get_In k v d : Dict.get k d = Some v -> In (k, v) d.
Proof.
  induction d as [|[k' v'] r IH]; simpl; [discriminate|].
  destruct (Dict.eqb_spec k k') as [->|ne].
  - intros [= ->]. now left.
  - intros e. right. auto.
Qed.

Lemma get_None_keys k d : Dict.get k d = None <-> ~ In k (Dict.keys d).
Proof.
  induction d as [|[k' v'] r IH]; simpl.
  - tauto.
  - destruct (Dict.eqb_spec k k') as [->|ne].
    + split; [discriminate | intros n; exfalso; apply n; now left].
    + rewrite IH. unfold Dict.keys. intuition congruence.
Qed.

Lemma get_Some_keys k v d : Dict.get k d = Some v -> In k (Dict.keys d).
Proof.
  intros e. apply get_In in e. unfold Dict.keys.
  change k with (fst (k, v)). now apply in_map.
Qed.

Lemma In_get k v d :
  NoDup (Dict.keys d) -> In (k, v) d -> Dict.get k d = Some v.
Proof.
  induction d as [|[k' v'] r IH]; simpl; [tauto|].
  intros nd [e|i].
  - injection e as -> ->. now rewrite eqb_refl.
  - inversion nd as [|? ? ni nd']; subst.
    destruct (Dict.eqb_spec k k') as [->|ne].
    + exfalso. apply ni. change k' with (fst (k', v)). now apply in_map.
    + auto.
Qed.


Lemma contains_false k d :
  Dict.contains k d = false <-> Dict.get k d = None.
Proof.
  unfold Dict.contains. destruct (Dict.get k d); split; congruence.
Qed.

Lemma keys_modify k f d : Dict.keys (Dict.modify k f d) = Dict.keys d.
Proof.
  induction d as [|[k' v'] r IH]; simpl; [reflexivity|].
  destruct (Dict.eqb k k'); simpl; [reflexivity | now rewrite IH].
Qed.

Lemma length_modify k f d : length (Dict.modify k f d) = length d.
Proof.
  induction d as [|[k' v'] r IH]; simpl; [reflexivity|].
  destruct (Dict.eqb k k'); simpl; [reflexivity | now rewrite IH].
Qed.

Lemma get_modify k k' f d :
  Dict.get k' (Dict.modify k f d) =
  if Dict.eqb k' k then option_map f (Dict.get k' d) else Dict.get k' d.
Proof.
  induction d as [|[k0 v0] r IH]; simpl.
  - now destruct (Dict.eqb k' k).
  - destruct (Dict.eqb_spec k k0) as [->|ne]; simpl.
    + destruct (Dict.eqb_spec k' k0) as [->|ne']; reflexivity.
    + rewrite IH. destruct (Dict.eqb_spec k' k0) as [->|ne'].
      * rewrite eqb_neq by congruence. reflexivity.
      * reflexivity.
Qed.

Lemma get_modify_same k f d :
  Dict.get k (Dict.modify k f d) = option_map f (Dict.get k d).
Proof. now rewrite get_modify, eqb_refl. Qed.

Lemma get_modify_other k k' f d :
  k' <> k -> Dict.get k' (Dict.modify k f d) = Dict.get k' d.
Proof. intros ne. now rewrite get_modify, eqb_neq. Qed.

Lemma modify_absent k f d : Dict.get k d = None -> Dict.modify k f d = d.
Proof.
  induction d as [|[k' v'] r IH]; simpl; [reflexivity|].
  destruct (Dict.eqb k k'); [discriminate|].
  intros e. now rewrite IH.
Qed.

Lemma set_absent k v d : Dict.get k d = None -> Dict.set k v d = d ++ [(k, v)].
Proof.
  induction d as [|[k' v'] r IH]; simpl; [reflexivity|].
  destruct (Dict.eqb k k'); [discriminate|].
  intros e. now rewrite IH.
Qed.

Lemma get_set k k' v d :
  Dict.get k' (Dict.set k v d) =
  if Dict.eqb k' k then Some v else Dict.get k' d.
Proof.
  induction d as [|[k0 v0] r IH]; simpl.
  - reflexivity.
  - destruct (Dict.eqb_spec k k0) as [->|ne]; simpl.
    + now destruct (Dict.eqb k' k0).
    + rewrite IH. destruct (Dict.eqb_spec k' k0) as [->|ne'].
      * now rewrite eqb_neq by congruence.
      * reflexivity.
Qed.

Lemma get_app_l k d d' :
  Dict.get k (d ++ d') =
  match Dict.get k d with Some v => Some v | None => Dict.get k d' end.
Proof.
  induction d as [|[k0 v0] r IH]; simpl; [reflexivity|].
  now destruct (Dict.eqb k k0).
Qed.

Lemma del_set_absent k v d :
  Dict.get k d = None -> Dict.del k (Dict.set k v d) = d.
Proof.
  induction d as [|[k' v'] r IH]; simpl.
  - now rewrite eqb_refl.
  - destruct (Dict.eqb k k') eqn:e; [discriminate|].
    intros g. simpl. rewrite e. now rewrite IH.
Qed.

Lemma get_del k k' d :
  NoDup (Dict.keys d) ->
  Dict.get k' (Dict.del k d) = if Dict.eqb k' k then None else Dict.get k' d.
Proof.
  induction d as [|[k0 v0] r IH]; simpl; intros nd.
  - now destruct (Dict.eqb k' k).
  - inversion nd as [|? ? ni nd']; subst.
    destruct (Dict.eqb_spec k k0) as [->|ne]; simpl.
    + destruct (Dict.eqb_spec k' k0) as [->|ne']; [|reflexivity].
      now apply get_None_keys.
    + rewrite IH by assumption.
      destruct (Dict.eqb_spec k' k0) as [->|ne'].
      * now rewrite eqb_neq by congruence.
      * reflexivity.
Qed.

Lemma Forall_modify (P : K * V -> Prop) k f d :
  (forall k0 v0, P (k0, v0) -> P (k0, f v0)) ->
  Forall P d -> Forall P (Dict.modify k f d).
Proof.
  intros hf. induction 1 as [|[k0 v0] r p a IH]; simpl; [constructor|].
  destruct (Dict.eqb k k0); constructor; auto.
Qed.

Lemma modify_modify (f g : V -> V) k d :
  Dict.modify k f (Dict.modify k g d) = Dict.modify k (fun v => f (g v)) d.
Proof.
  induction d as [|[k' v'] r IH]; simpl; [reflexivity|].
  destruct (Dict.eqb k k') eqn:e; simpl; rewrite e; [reflexivity|].
  now rewrite IH.
Qed.

Lemma modify_ext (f g : V -> V) k d :
  (forall v, Dict.get k d = Some v -> f v = g v) ->
  Dict.modify k f d = Dict.modify k g d.
Proof.
  induction d as [|[k' v'] r IH]; simpl; [reflexivity|].
  destruct (Dict.eqb k k') eqn:e; intros h.
  - now rewrite h.
  - now rewrite IH.
Qed.

Lemma modify_id (f : V -> V) k d :
  (forall v, Dict.get k d = Some v -> f v = v) -> Dict.modify k f d = d.
Proof.
  induction d as [|[k' v'] r IH]; simpl; [reflexivity|].
  destruct (Dict.eqb k k') eqn:e; intros h.
  - now rewrite h.
  - now rewrite IH.
Qed.




Lemma NoDup_keys_filter (q : K * V -> bool) d :
  NoDup (Dict.keys d) -> NoDup (Dict.keys (filter q d)).
Proof.
  induction d as [|[k v] r IH]; simpl; intros nd; [constructor|].
  inversion nd as [|? ? ni nd']; subst.
  destruct (q (k, v)); simpl; auto. constructor; auto.
  intros i. apply ni. unfold Dict.keys in *.
  apply in_map_iff in i as ([k' v'] & e & i).
  simpl in e. subst. apply filter_In in i as [i _].
  change k with (fst (k, v')). now apply in_map.
Qed.

Lemma In_keys_filter (q : K * V -> bool) d k :
  NoDup (Dict.keys d) ->
  (In k (Dict.keys (filter q d)) <->
   exists v, Dict.get k d = Some v /\ q (k, v) = true).
Proof.
  intros nd. unfold Dict.keys. rewrite in_map_iff. split.
  - intros ([k' v] & e & i). simpl in e. subst.
    apply filter_In in i as [i qv]. exists v. split; [|assumption].
    now apply In_get.
  - intros (v & g & qv). exists (k, v). split; [reflexivity|].
    apply filter_In. split; [now apply get_In | assumption].
Qed.

End Facts.

End DictFacts.

(* ------------------------------------------------------------------ *)
(** ** The alert manager *)

Module AlertFacts.

Import alert_manager observe.

Section General.
Context {numpy : np.Argsort} {python : tracking_system.SetIteration}
  {sqlite : database.Engine} {host : alert_manager.Host}.

Lemma with_pending_same self : with_pending self (pending_alerts self) = self.
Proof. now destruct self. Qed.

Lemma outputs_fanout alert cbs w :
  outputs (fold_left (fun w c => emit w (CallbackCalled c alert)) cbs w) =
    outputs w ++ map (fun c => CallbackCalled c alert) cbs /\
  db (fold_left (fun w c => emit w (CallbackCalled c alert)) cbs w) = db w.
Proof.
  revert w. induction cbs as [|c r IH]; intros w; simpl.
  - now rewrite app_nil_r.
  - destruct (IH (emit w (CallbackCalled c alert))) as [e1 e2].
    rewrite e1, e2. simpl. now rewrite <- app_assoc.
Qed.

Lemma filter_length_app {A} (p : A -> bool) l l' :
  length (filter p (l ++ l')) = (length (filter p l) + length (filter p l'))%nat.
Proof. now rewrite filter_app, length_app. Qed.

Lemma calls_in_fanout cb tid alert cbs :
  length (filter (is_call_for cb tid)
            (map (fun c => CallbackCalled c alert) cbs)) =
  if tracking_id alert =? tid then count_occ Nat.eq_dec cbs cb else 0%nat.
Proof.
  induction cbs as [|c r IH]; simpl.
  - now destruct (tracking_id alert =? tid).
  - destruct (tracking_id alert =? tid) eqn:e.
    + rewrite andb_true_r. destruct (Nat.eq_dec c cb) as [->|ne].
      * rewrite Nat.eqb_refl. simpl. now rewrite IH.
      * apply Nat.eqb_neq in ne. rewrite ne. exact IH.
    + rewrite andb_false_r. exact IH.
Qed.

Lemma no_notification_in_fanout tid alert cbs :
  filter (is_notification_for tid)
    (map (fun c => CallbackCalled c alert) cbs) = [].
Proof. induction cbs; simpl; auto. Qed.

(** What one trigger does, seen through the observations: the record and
    the notification are made unless the host fails, the callbacks are
    called in any case. *)
Lemma trigger_one self w k a now :
  Dict.get k (pending_alerts self) = Some a ->
  tracking_id a = k ->
  let r := _trigger_alert self w k now in
  pending_alerts (fst r) = Dict.modify k set_triggered (pending_alerts self) /\
  alert_callbacks (fst r) = alert_callbacks self /\
  forall tid,
    db_records tid (snd r) =
      (db_records tid w +
       if (k =? tid)%Z then recorded (set_triggered a) now else 0)%nat /\
    notifications tid (snd r) =
      (notifications tid w +
       if (k =? tid)%Z then notified (set_triggered a) now else 0)%nat /\
    forall cb,
      callback_calls cb tid (snd r) =
        (callback_calls cb tid w +
         if (k =? tid)%Z then count_occ Nat.eq_dec (alert_callbacks self) cb
         else 0)%nat.
Proof.
  intros g ek. unfold _trigger_alert. rewrite g. cbv zeta.
  split; [reflexivity|]. split; [reflexivity|]. intros tid.
  match goal with
  | |- context [fold_left _ ?l ?w0] =>
      destruct (outputs_fanout (set_triggered a) l w0) as [eo ed]
  end.
  unfold db_records, notifications, callback_calls, recorded, notified.
  cbn [snd]. rewrite eo, ed.
  unfold _show_notification, _play_alert_sound.
  change config.ALERT_NOTIFICATION_ENABLED with true.
  change config.ALERT_SOUND_ENABLED with true. cbn [negb].
  rewrite <- ek.
  repeat split.
  - destruct (create_alert_raises (set_triggered a) now), PLYER_AVAILABLE,
      (notify_raises (set_triggered a) now), WINSOUND_AVAILABLE,
      (MessageBeep_raises now); cbn;
      try rewrite filter_length_app; cbn;
      destruct (tracking_id a =? tid); cbn; lia.
  - rewrite !filter_length_app. rewrite no_notification_in_fanout.
    destruct (create_alert_raises (set_triggered a) now), PLYER_AVAILABLE,
      (notify_raises (set_triggered a) now), WINSOUND_AVAILABLE,
      (MessageBeep_raises now); cbn;
      rewrite ?filter_length_app; cbn;
      destruct (tracking_id a =? tid); cbn; lia.
  - intros cb. rewrite !filter_length_app. rewrite calls_in_fanout.
    destruct (create_alert_raises (set_triggered a) now), PLYER_AVAILABLE,
      (notify_raises (set_triggered a) now), WINSOUND_AVAILABLE,
      (MessageBeep_raises now); cbn;
      rewrite ?filter_length_app; cbn;
      destruct (tracking_id a =? tid); cbn; lia.
Qed.

Lemma alerts_ok_modify self k f :
  (forall a, tracking_id (f a) = tracking_id a) ->
  alerts_ok self ->
  alerts_ok (with_pending self (Dict.modify k f (pending_alerts self))).
Proof.
  intros hf [nd fa]. split; simpl.
  - now rewrite DictFacts.keys_modify.
  - apply DictFacts.Forall_modify; [|assumption].
    intros k0 v0. simpl. now rewrite hf.
Qed.

Lemma pick_head (k0 tid : Z) (ks : list Z) (x : nat) :
  ~ In k0 ks ->
  ((if (k0 =? tid)%Z then x else 0) +
   (if in_dec Z.eq_dec tid ks then x else 0) =
   if in_dec Z.eq_dec tid (k0 :: ks) then x else 0)%nat.
Proof.
  intros ni. destruct (Z.eqb_spec k0 tid) as [e|ne].
  - subst k0. destruct (in_dec Z.eq_dec tid ks) as [j|nj]; [contradiction|].
    destruct (in_dec Z.eq_dec tid (tid :: ks)) as [|n]; [lia|].
    exfalso. apply n. now left.
  - destruct (in_dec Z.eq_dec tid ks) as [j|nj];
      destruct (in_dec Z.eq_dec tid (k0 :: ks)) as [i|n]; try lia.
    + exfalso. apply n. now right.
    + destruct i; [congruence | contradiction].
Qed.

(** A run of triggers over distinct pending keys. *)
Lemma trigger_fold now ks :
  forall self w,
    alerts_ok self -> NoDup ks ->
    (forall k, In k ks -> In k (Dict.keys (pending_alerts self))) ->
    let r := fold_left
               (fun sw k => _trigger_alert (fst sw) (snd sw) k now)
               ks (self, w) in
    alerts_ok (fst r) /\
    alert_callbacks (fst r) = alert_callbacks self /\
    Dict.keys (pending_alerts (fst r)) = Dict.keys (pending_alerts self) /\
    (forall k,
       Dict.get k (pending_alerts (fst r)) =
       if in_dec Z.eq_dec k ks
       then option_map set_triggered (Dict.get k (pending_alerts self))
       else Dict.get k (pending_alerts self)) /\
    forall tid,
      db_records tid (snd r) =
        (db_records tid w +
         if in_dec Z.eq_dec tid ks then to_record self now tid else 0)%nat /\
      notifications tid (snd r) =
        (notifications tid w +
         if in_dec Z.eq_dec tid ks then to_notify self now tid else 0)%nat /\
      forall cb,
        callback_calls cb tid (snd r) =
          (callback_calls cb tid w +
           if in_dec Z.eq_dec tid ks
           then count_occ Nat.eq_dec (alert_callbacks self) cb else 0)%nat.
Proof.
  induction ks as [|k0 ks IH]; intros self w ok nd sub.
  - simpl. split; [assumption|]. do 3 (split; [reflexivity|]).
    intros tid. repeat split; intros; lia.
  - inversion nd as [|? ? ni nd']; subst.
    assert (ik : In k0 (Dict.keys (pending_alerts self))) by (apply sub; now left).
    destruct (Dict.get k0 (pending_alerts self)) as [a|] eqn:g;
      [|apply DictFacts.get_None_keys in g; contradiction].
    assert (ek : tracking_id a = k0).
    { destruct ok as [_ fa]. rewrite Forall_forall in fa.
      apply (fa (k0, a)). now apply DictFacts.get_In. }
    destruct (trigger_one self w k0 a now g ek) as (ep & ec & ew).
    cbn [fold_left fst snd].
    set (r1 := _trigger_alert self w k0 now) in *.
    assert (e1 : fst r1 = with_pending self
                   (Dict.modify k0 set_triggered (pending_alerts self))).
    { unfold r1, _trigger_alert. rewrite g. reflexivity. }
    assert (ok1 : alerts_ok (fst r1)).
    { rewrite e1. now apply alerts_ok_modify. }
    assert (sub1 : forall k, In k ks -> In k (Dict.keys (pending_alerts (fst r1)))).
    { intros k i. rewrite ep, DictFacts.keys_modify. apply sub. now right. }
    specialize (IH (fst r1) (snd r1) ok1 nd' sub1).
    rewrite <- surjective_pairing in IH.
    destruct IH as (ok' & cb' & keys' & get' & cnt').
    split; [assumption|]. split; [congruence|].
    split; [now rewrite keys', ep, DictFacts.keys_modify|].
    split.
    + intros k. rewrite get', ep, DictFacts.get_modify.
      destruct (Dict.eqb_spec k k0) as [->|ne].
      * destruct (in_dec Z.eq_dec k0 ks) as [i'|_]; [contradiction|].
        destruct (in_dec Z.eq_dec k0 (k0 :: ks)) as [_|n]; [reflexivity|].
        exfalso. apply n. now left.
      * destruct (in_dec Z.eq_dec k ks) as [i'|n'];
          destruct (in_dec Z.eq_dec k (k0 :: ks)) as [i|n]; try reflexivity.
        -- exfalso. apply n. now right.
        -- destruct i as [e|i]; [congruence | contradiction].
    + intros tid. destruct (cnt' tid) as (c1 & c2 & c3).
      destruct (ew tid) as (d1 & d2 & d3).
      pose proof (fun x => pick_head k0 tid ks x ni) as pick.
      assert (same : In tid ks ->
                Dict.get tid (pending_alerts (fst r1)) =
                Dict.get tid (pending_alerts self)).
      { intros i. rewrite ep, DictFacts.get_modify.
        destruct (Dict.eqb_spec tid k0) as [->|ne]; [contradiction|].
        reflexivity. }
      assert (t1 : (if in_dec Z.eq_dec tid ks
                    then to_record (fst r1) now tid else 0%nat) =
                   (if in_dec Z.eq_dec tid ks
                    then to_record self now tid else 0%nat)).
      { destruct (in_dec Z.eq_dec tid ks) as [i|]; [|reflexivity].
        unfold to_record. now rewrite same. }
      assert (t2 : (if in_dec Z.eq_dec tid ks
                    then to_notify (fst r1) now tid else 0%nat) =
                   (if in_dec Z.eq_dec tid ks
                    then to_notify self now tid else 0%nat)).
      { destruct (in_dec Z.eq_dec tid ks) as [i|]; [|reflexivity].
        unfold to_notify. now rewrite same. }
      assert (h1 : (if (k0 =? tid)%Z
                    then recorded (set_triggered a) now else 0%nat) =
                   (if (k0 =? tid)%Z then to_record self now tid else 0%nat)).
      { destruct (Z.eqb_spec k0 tid) as [<-|]; [|reflexivity].
        unfold to_record. now rewrite g. }
      assert (h2 : (if (k0 =? tid)%Z
                    then notified (set_triggered a) now else 0%nat) =
                   (if (k0 =? tid)%Z then to_notify self now tid else 0%nat)).
      { destruct (Z.eqb_spec k0 tid) as [<-|]; [|reflexivity].
        unfold to_notify. now rewrite g. }
      repeat split.
      * rewrite c1, d1, t1, h1, <- (pick (to_record self now tid)). lia.
      * rewrite c2, d2, t2, h2, <- (pick (to_notify self now tid)). lia.
      * intros cb. rewrite c3, d3, ec, <- pick. lia.
Qed.

Lemma due_keys_NoDup (p : Alert -> bool) (d : Dict.t Z Alert) :
  NoDup (Dict.keys d) -> NoDup (map fst (filter (fun item => p (snd item)) d)).
Proof.
  induction d as [|[k a] r IH]; simpl; intros nd; [constructor|].
  inversion nd as [|? ? ni nd']; subst.
  destruct (p a); simpl; auto. constructor; auto.
  intros i. apply ni. apply in_map_iff in i as ([k' a'] & e & i).
  simpl in e. subst. apply filter_In in i as [i _].
  change k with (fst (k, a')). now apply in_map.
Qed.

Lemma due_keys_In (p : Alert -> bool) (d : Dict.t Z Alert) k :
  NoDup (Dict.keys d) ->
  (In k (map fst (filter (fun item => p (snd item)) d)) <->
   exists a, Dict.get k d = Some a /\ p a = true).
Proof.
  intros nd. rewrite in_map_iff. split.
  - intros ([k' a] & e & i). simpl in e. subst.
    apply filter_In in i as [i pa]. exists a. split; [|assumption].
    now apply DictFacts.In_get.
  - intros (a & g & pa). exists (k, a). split; [reflexivity|].
    apply filter_In. split; [now apply DictFacts.get_In | assumption].
Qed.

(** One evaluator pass, seen through the observations. *)
Lemma check_effect self w now :
  alerts_ok self ->
  let r := _check_alerts self w now in
  let due k := match Dict.get k (pending_alerts self) with
               | Some a => should_trigger a now
               | None => false
               end in
  alerts_ok (fst r) /\
  alert_callbacks (fst r) = alert_callbacks self /\
  (forall k,
     Dict.get k (pending_alerts (fst r)) =
     if due k then option_map set_triggered (Dict.get k (pending_alerts self))
     else Dict.get k (pending_alerts self)) /\
  forall tid,
    db_records tid (snd r) =
      (db_records tid w + if due tid then to_record self now tid else 0)%nat /\
    notifications tid (snd r) =
      (notifications tid w + if due tid then to_notify self now tid else 0)%nat /\
    forall cb,
      callback_calls cb tid (snd r) =
        (callback_calls cb tid w +
         if due tid then count_occ Nat.eq_dec (alert_callbacks self) cb
         else 0)%nat.
Proof.
  intros ok. pose proof ok as [nd fa]. cbv zeta. unfold _check_alerts.
  set (ks := map fst (filter (fun item => should_trigger (snd item) now)
                        (pending_alerts self))).
  assert (ndk : NoDup ks)
    by (apply (due_keys_NoDup (fun a => should_trigger a now)); assumption).
  assert (sub : forall k, In k ks -> In k (Dict.keys (pending_alerts self))).
  { intros k i. apply (due_keys_In (fun a => should_trigger a now)) in i
      as (a & g & _); [|assumption].
    eapply DictFacts.get_Some_keys; eauto. }
  destruct (trigger_fold now ks self w ok ndk sub) as (ok' & cb' & _ & get' & cnt').
  assert (dec : forall k,
            (if in_dec Z.eq_dec k ks then true else false) =
            match Dict.get k (pending_alerts self) with
            | Some a => should_trigger a now
            | None => false
            end).
  { intros k. destruct (in_dec Z.eq_dec k ks) as [i|n].
    - apply (due_keys_In (fun a => should_trigger a now)) in i
        as (a & g & pa); [|assumption]. now rewrite g.
    - destruct (Dict.get k (pending_alerts self)) as [a|] eqn:g; [|reflexivity].
      destruct (should_trigger a now) eqn:pa; [|reflexivity].
      exfalso. apply n.
      apply (due_keys_In (fun a => should_trigger a now)); eauto. }
  split; [assumption|]. split; [assumption|]. split.
  - intros k. rewrite get', <- dec. now destruct (in_dec Z.eq_dec k ks).
  - intros tid. destruct (cnt' tid) as (c1 & c2 & c3).
    rewrite <- dec. repeat split.
    + rewrite c1. now destruct (in_dec Z.eq_dec tid ks).
    + rewrite c2. now destruct (in_dec Z.eq_dec tid ks).
    + intros cb. rewrite c3. now destruct (in_dec Z.eq_dec tid ks).
Qed.

(** The invariant holds of a new manager and is kept by every operation. *)
Lemma alerts_ok_init timeout : alerts_ok (init timeout).
Proof. split; constructor. Qed.

Lemma alerts_ok_add self person :
  alerts_ok self -> alerts_ok (add_pending_alert self person).
Proof.
  intros [nd fa]. unfold add_pending_alert.
  destruct (Dict.contains _ _) eqn:c; [now split|].
  apply DictFacts.contains_false in c.
  rewrite (DictFacts.set_absent _ _ _ c). split; cbn [pending_alerts with_pending].
  - apply DictFacts.get_None_keys in c. unfold Dict.keys in *.
    rewrite map_app. cbn [map fst].
    rewrite <- (rev_involutive (map fst (pending_alerts self) ++ [_])).
    apply NoDup_rev. rewrite rev_app_distr. cbn [rev app].
    constructor; [|now apply NoDup_rev].
    intros i. apply c. now apply in_rev.
  - apply Forall_app. split; [assumption|]. repeat constructor.
Qed.


Lemma alerts_ok_acknowledge self tid :
  alerts_ok self -> alerts_ok (acknowledge_alert self tid).
Proof.
  intros ok. unfold acknowledge_alert.
  destruct (Dict.contains _ _); [|assumption].
  now apply alerts_ok_modify.
Qed.

Lemma alerts_ok_check self w now :
  alerts_ok self -> alerts_ok (fst (_check_alerts self w now)).
Proof. intros ok. now destruct (check_effect self w now ok). Qed.

(** Once triggered, further passes leave the alert and its footprint
    alone. *)
Lemma check_all_triggered times :
  forall self w tid a,
    alerts_ok self ->
    Dict.get tid (pending_alerts self) = Some a ->
    triggered a = true ->
    let r := check_all self w times in
    Dict.get tid (pending_alerts (fst r)) = Some a /\
    db_records tid (snd r) = db_records tid w /\
    notifications tid (snd r) = notifications tid w /\
    forall cb, callback_calls cb tid (snd r) = callback_calls cb tid w.
Proof.
  induction times as [|now times IH]; intros self w tid a ok g tr.
  - simpl. auto.
  - unfold check_all. cbn [fold_left fst snd].
    destruct (check_effect self w now ok) as (ok1 & _ & get1 & cnt1).
    specialize (get1 tid). destruct (cnt1 tid) as (c1 & c2 & c3).
    rewrite g in get1, c1, c2, c3. unfold should_trigger in get1, c1, c2, c3.
    rewrite tr in get1, c1, c2, c3. simpl in get1, c1, c2, c3.
    set (r1 := _check_alerts self w now) in *.
    specialize (IH (fst r1) (snd r1) tid a ok1 get1 tr).
    unfold check_all in IH. rewrite <- surjective_pairing in IH.
    destruct IH as (i1 & i2 & i3 & i4).
    repeat split; try congruence; try lia.
    intros cb. rewrite i4, c3. lia.
Qed.

End General.

End AlertFacts.

(* ------------------------------------------------------------------ *)
(** ** Claims on the alert manager *)

Module AlertClaims.

Import alert_manager observe.

Section General.
Context {numpy : np.Argsort} {python : tracking_system.SetIteration}
  {sqlite : database.Engine} {host : alert_manager.Host}.

(** C4, amended: [acknowledge_alert] sets [acknowledged] on the pending
    alert of the given tracking id whenever one exists, triggered or not,
    leaving its other fields and all other alerts as they were; it changes
    nothing when the tracking id is unknown. *)
Theorem acknowledge_alert_marks_any_pending :
  forall self tid,
    match Dict.get tid (pending_alerts self) with
    | Some a =>
        Dict.get tid (pending_alerts (acknowledge_alert self tid)) =
          Some (set_acknowledged a) /\
        acknowledged (set_acknowledged a) = true /\
        triggered (set_acknowledged a) = triggered a
    | None => acknowledge_alert self tid = self
    end /\
    Dict.keys (pending_alerts (acknowledge_alert self tid)) =
      Dict.keys (pending_alerts self) /\
    forall k, k <> tid ->
      Dict.get k (pending_alerts (acknowledge_alert self tid)) =
      Dict.get k (pending_alerts self).
Proof.
  intros self tid. unfold acknowledge_alert, Dict.contains.
  destruct (Dict.get tid (pending_alerts self)) as [a|] eqn:g; simpl.
  - rewrite DictFacts.get_modify_same, g, DictFacts.keys_modify.
    repeat split. intros k ne. now apply DictFacts.get_modify_other.
  - repeat split.
Qed.

(** C5: a pending alert whose fire time has passed is triggered exactly once
    however many times the evaluator runs: after the passes it is still in
    the pending set with [triggered = true]; the one trigger called each
    registered callback once, made one database record unless the write
    raised, and showed one notification unless plyer is missing or [notify]
    raised; no later pass adds a record, a notification or a call for it. *)
Theorem overdue_alert_triggers_exactly_once :
  forall self w tid a now times,
    alerts_ok self ->
    Dict.get tid (pending_alerts self) = Some a ->
    triggered a = false ->
    alert_time a <= now ->
    let r := check_all self w (now :: times) in
    Dict.get tid (pending_alerts (fst r)) = Some (set_triggered a) /\
    db_records tid (snd r) =
      (db_records tid w + recorded (set_triggered a) now)%nat /\
    notifications tid (snd r) =
      (notifications tid w + notified (set_triggered a) now)%nat /\
    (db_records tid (snd r) <= S (db_records tid w))%nat /\
    (notifications tid (snd r) <= S (notifications tid w))%nat /\
    forall cb,
      callback_calls cb tid (snd r) =
      (callback_calls cb tid w +
       count_occ Nat.eq_dec (alert_callbacks self) cb)%nat.
Proof.
  intros self w tid a now times ok g tr due. cbv zeta.
  unfold check_all. cbn [fold_left fst snd].
  destruct (AlertFacts.check_effect self w now ok) as (ok1 & _ & get1 & cnt1).
  specialize (get1 tid). destruct (cnt1 tid) as (c1 & c2 & c3).
  assert (st : should_trigger a now = true).
  { unfold should_trigger. rewrite tr. simpl. now apply Z.leb_le. }
  unfold to_record in c1. unfold to_notify in c2.
  rewrite g, st in get1, c1, c2, c3. simpl in get1.
  set (r1 := _check_alerts self w now) in *.
  destruct (AlertFacts.check_all_triggered times (fst r1) (snd r1) tid
              (set_triggered a) ok1 get1 eq_refl) as (i1 & i2 & i3 & i4).
  unfold check_all in i1, i2, i3, i4.
  rewrite <- surjective_pairing in i1, i2, i3, i4.
  assert (b1 : (recorded (set_triggered a) now <= 1)%nat).
  { unfold recorded. destruct (create_alert_raises _ _); lia. }
  assert (b2 : (notified (set_triggered a) now <= 1)%nat).
  { unfold notified. destruct (negb _); [lia|].
    destruct PLYER_AVAILABLE; [|lia]. destruct (notify_raises _ _); lia. }
  split; [exact i1|].
  split; [rewrite i2, c1; reflexivity|].
  split; [rewrite i3, c2; reflexivity|].
  split; [rewrite i2, c1; lia|].
  split; [rewrite i3, c2; lia|].
  intros cb. rewrite i4, c3. reflexivity.
Qed.

(** C8: [cancel_alert] removes the pending alert of a tracking id when it
    exists and has not been triggered, and changes nothing when the alert
    has been triggered; so, while no alert of that id has been triggered, a
    departure immediately followed by a cancellation leaves no alert for
    the id and the other alerts as they were, and on a fresh manager leaves
    no pending and no triggered alert at all. *)
Theorem cancel_alert_removes_untriggered_only :
  forall self tid,
    (forall a,
       NoDup (Dict.keys (pending_alerts self)) ->
       Dict.get tid (pending_alerts self) = Some a ->
       triggered a = false ->
       Dict.get tid (pending_alerts (cancel_alert self tid)) = None /\
       forall k, k <> tid ->
         Dict.get k (pending_alerts (cancel_alert self tid)) =
         Dict.get k (pending_alerts self)) /\
    (forall a,
       Dict.get tid (pending_alerts self) = Some a ->
       triggered a = true ->
       cancel_alert self tid = self) /\
    (forall person,
       tracking_system.tracking_id person = tid ->
       NoDup (Dict.keys (pending_alerts self)) ->
       (forall a, Dict.get tid (pending_alerts self) = Some a ->
                  triggered a = false) ->
       let m := cancel_alert (add_pending_alert self person) tid in
       Dict.get tid (pending_alerts m) = None /\
       forall k, k <> tid ->
         Dict.get k (pending_alerts m) = Dict.get k (pending_alerts self)) /\
    (forall timeout person,
       tracking_system.tracking_id person = tid ->
       let m := cancel_alert (add_pending_alert (init timeout) person) tid in
       get_pending_alerts m = [] /\
       get_triggered_alerts m = [] /\
       get_statistics m = (0, 0, 0, 0)).
Proof.
  intros self tid.
  assert (readd : forall s person,
            tracking_system.tracking_id person = tid ->
            Dict.get tid (pending_alerts s) = None ->
            pending_alerts (cancel_alert (add_pending_alert s person) tid) =
            pending_alerts s).
  { intros s person et g. unfold add_pending_alert, Dict.contains.
    rewrite et, g. unfold cancel_alert. cbn [pending_alerts with_pending].
    rewrite DictFacts.get_set, DictFacts.eqb_refl. cbn.
    now apply DictFacts.del_set_absent. }
  assert (removes : forall a,
            NoDup (Dict.keys (pending_alerts self)) ->
            Dict.get tid (pending_alerts self) = Some a ->
            triggered a = false ->
            Dict.get tid (pending_alerts (cancel_alert self tid)) = None /\
            forall k, k <> tid ->
              Dict.get k (pending_alerts (cancel_alert self tid)) =
              Dict.get k (pending_alerts self)).
  { intros a nd g tr. unfold cancel_alert. rewrite g, tr. cbn. split.
    - rewrite DictFacts.get_del by assumption.
      now rewrite DictFacts.eqb_refl.
    - intros k ne. rewrite DictFacts.get_del by assumption.
      now rewrite DictFacts.eqb_neq. }
  split; [exact removes|]. split; [|split].
  - intros a g tr. unfold cancel_alert. now rewrite g, tr.
  - intros person et nd untriggered. cbv zeta.
    destruct (Dict.get tid (pending_alerts self)) as [a|] eqn:g.
    + assert (same : add_pending_alert self person = self).
      { unfold add_pending_alert, Dict.contains. now rewrite et, g. }
      rewrite same. apply (removes a nd eq_refl). now apply untriggered.
    + rewrite (readd self person et g). split; [assumption | reflexivity].
  - intros timeout person et. cbv zeta.
    unfold get_pending_alerts, get_triggered_alerts, get_statistics.
    rewrite (readd (init timeout) person et eq_refl). repeat split.
Qed.

End General.

(** On the samples: the insertion sort for [argsort], sets visited in
    ascending order, rows of equal entry time in table order, and a host on
    which nothing fails. *)
Section AtSample.
Existing Instance np.stable.
Existing Instance tracking_system.ascending.
Existing Instance database.table_order.
Existing Instance alert_manager.reliable.

(** C4, as stated, fails: acknowledging is not a no-op on an alert that has
    not been triggered.  On the manager of the test suite holding the sample
    alert (never triggered), [acknowledge_alert] changes the state. *)
Lemma acknowledge_untriggered_changes_state :
  ~ (forall self tid a,
       Dict.get tid (pending_alerts self) = Some a ->
       triggered a = false ->
       acknowledge_alert self tid = self).
Proof.
  intros h.
  specialize (h sample.manager_with_alert 1 _ eq_refl eq_refl).
  discriminate h.
Qed.

Lemma acknowledge_alert_marks_any_pending_witness :
  Dict.get 2 (pending_alerts (acknowledge_alert sample.manager_with_alert 1)) =
  Dict.get 2 (pending_alerts sample.manager_with_alert).
Proof.
  apply (proj2 (proj2
           (acknowledge_alert_marks_any_pending sample.manager_with_alert 1))).
  discriminate.
Defined.

Lemma sample_alerts_ok : alerts_ok sample.manager_with_alert.
Proof.
  split.
  - repeat constructor. simpl. tauto.
  - repeat constructor.
Defined.

Lemma overdue_alert_triggers_exactly_once_witness :
  db_records 1
    (snd (check_all sample.manager_with_alert sample.no_world
            [1200; 1230; 1260])) = 1%nat.
Proof.
  refine (proj1 (proj2
    (overdue_alert_triggers_exactly_once sample.manager_with_alert
       sample.no_world 1 _ 1200 [1230; 1260]
       sample_alerts_ok eq_refl eq_refl _))).
  vm_compute. discriminate.
Defined.

Lemma cancel_alert_removes_untriggered_only_witness :
  Dict.get 1 (pending_alerts (cancel_alert sample.manager_with_alert 1)) = None.
Proof.
  refine (proj1 (proj1
    (cancel_alert_removes_untriggered_only sample.manager_with_alert 1)
    _ (proj1 sample_alerts_ok) eq_refl eq_refl)).
Defined.

End AtSample.

End AlertClaims.

(* ------------------------------------------------------------------ *)
(** ** The integrated pipeline *)

Module PipelineFacts.

Import alert_manager observe.

Section General.
Context {numpy : np.Argsort} {python : tracking_system.SetIteration}
  {sqlite : database.Engine} {host : alert_manager.Host}.

Lemma kept_refl a : kept a a.
Proof. now left. Qed.

Lemma kept_trans a b c : kept a b -> kept b c -> kept a c.
Proof.
  unfold kept. intros [-> | ->] [-> | ->]; auto.
Qed.

Lemma add_pending_keeps self person tid a :
  Dict.get tid (pending_alerts self) = Some a ->
  Dict.get tid (pending_alerts (add_pending_alert self person)) = Some a.
Proof.
  intros g. unfold add_pending_alert.
  destruct (Dict.contains _ _) eqn:c; [assumption|].
  cbn [pending_alerts with_pending]. rewrite DictFacts.get_set.
  destruct (Dict.eqb_spec tid (tracking_system.tracking_id person)) as [e|ne];
    [|assumption].
  apply DictFacts.contains_false in c. congruence.
Qed.

Lemma departures_keep camera_id now tid a newly_left :
  forall d self,
    Dict.get tid (pending_alerts self) = Some a ->
    Dict.get tid
      (pending_alerts
         (snd (fold_left
                 (fun st person =>
                    (fst (database.log_exit (fst st)
                            (tracking_system.tracking_id person)
                            camera_id now),
                     add_pending_alert (snd st) person))
                 newly_left (d, self)))) = Some a.
Proof.
  induction newly_left as [|p r IH]; intros d self g; simpl; [assumption|].
  apply IH. now apply add_pending_keeps.
Qed.

Lemma trigger_keeps self w k now tid a :
  Dict.get tid (pending_alerts self) = Some a ->
  exists a',
    Dict.get tid (pending_alerts (fst (_trigger_alert self w k now))) = Some a'
    /\ kept a a'.
Proof.
  intros g. unfold _trigger_alert.
  destruct (Dict.get k (pending_alerts self)) eqn:gk; cbn [fst].
  - cbn [pending_alerts with_pending]. rewrite DictFacts.get_modify, g.
    destruct (Dict.eqb tid k); simpl; eexists; split; eauto;
      [now right | now left].
  - exists a. split; [assumption | now left].
Qed.

Lemma check_keeps now tid ks :
  forall self w a,
    Dict.get tid (pending_alerts self) = Some a ->
    exists a',
      Dict.get tid
        (pending_alerts
           (fst (fold_left
                   (fun sw k => _trigger_alert (fst sw) (snd sw) k now)
                   ks (self, w)))) = Some a'
      /\ kept a a'.
Proof.
  induction ks as [|k ks IH]; intros self w a g; simpl.
  - exists a. split; [assumption | apply kept_refl].
  - destruct (trigger_keeps self w k now tid a g) as (a1 & g1 & k1).
    rewrite (surjective_pairing (_trigger_alert self w k now)).
    destruct (IH _ (snd (_trigger_alert self w k now)) a1 g1) as (a2 & g2 & k2).
    exists a2. split; [assumption | eapply kept_trans; eauto].
Qed.

Lemma step_keeps sys e tid a :
  Dict.get tid (pending_alerts (main.alert_mgr sys)) = Some a ->
  exists a',
    Dict.get tid (pending_alerts (main.alert_mgr (main.step sys e))) = Some a'
    /\ kept a a'.
Proof.
  intros g. destruct e as [camera_id frame detections t | t]; simpl.
  - exists a. split; [|apply kept_refl].
    unfold main.process_camera.
    destruct frame as [frame|]; [|assumption].
    destruct (negb _); [assumption|].
    destruct (tracking_system.manager_update _ _ _ _ _) as [tm1 tracked].
    destruct (tracking_system.manager_get_active_persons _ _) as [tm2 active].
    destruct (tracking_system.get_newly_left_persons _ _) as [tm3 newly_left].
    match goal with
    | |- context [fold_left ?f newly_left (?d, ?s)] =>
        pose proof (departures_keep camera_id t tid a newly_left d s g) as h;
        destruct (fold_left f newly_left (d, s)) as [db2 am]
    end.
    exact h.
  - unfold main.monitor_pass.
    destruct (check_keeps t tid
                (map fst (filter (fun item => should_trigger (snd item) t)
                            (pending_alerts (main.alert_mgr sys))))
                (main.alert_mgr sys) (main.world sys) a g) as (a' & g' & k').
    fold (_check_alerts (main.alert_mgr sys) (main.world sys) t) in g'.
    destruct (_check_alerts (main.alert_mgr sys) (main.world sys) t)
      as [am w].
    exists a'. split; assumption.
Qed.

End General.

End PipelineFacts.

Module PipelineClaims.

Import alert_manager.

Section General.
Context {numpy : np.Argsort} {python : tracking_system.SetIteration}
  {sqlite : database.Engine} {host : alert_manager.Host}.

(** C10: nothing the running system does -- the processing loop handling a
    camera frame, or a pass of the alert monitor -- removes a pending alert:
    an alert found in the pending set is still there, under the same
    tracking id, after any sequence of these events, unchanged except that
    its [triggered] flag may have been set by the monitor. *)
Theorem pipeline_never_removes_pending_alert :
  forall sys events tid a,
    Dict.get tid (pending_alerts (main.alert_mgr sys)) = Some a ->
    exists a',
      Dict.get tid (pending_alerts (main.alert_mgr (main.run sys events))) =
        Some a' /\
      (a' = a \/ a' = set_triggered a).
Proof.
  intros sys events. revert sys.
  induction events as [|e events IH]; intros sys tid a g.
  - exists a. split; [assumption | now left].
  - destruct (PipelineFacts.step_keeps sys e tid a g) as (a1 & g1 & k1).
    destruct (IH (main.step sys e) tid a1 g1) as (a2 & g2 & k2).
    exists a2. split; [exact g2|].
    exact (PipelineFacts.kept_trans _ _ _ k1 k2).
Qed.

End General.

(** On the samples: the insertion sort for [argsort], sets visited in
    ascending order, rows of equal entry time in table order, and a host on
    which nothing fails. *)
Section AtSample.
Existing Instance np.stable.
Existing Instance tracking_system.ascending.
Existing Instance database.table_order.
Existing Instance alert_manager.reliable.

Lemma pipeline_never_removes_pending_alert_witness :
  exists a',
    Dict.get 1
      (pending_alerts
         (main.alert_mgr
            (main.run sample.system_with_alert
               [main.CameraFrame "cam1" (Some []) [sample.det 100 100] 10;
                main.CameraFrame "cam1" (Some []) [sample.det 100 100] 20;
                main.MonitorPass 1500;
                main.CameraFrame "cam1" (Some []) [] 1510]))) = Some a' /\
    (a' = alert_manager.new_alert 1 "EMP001" 0 20 \/
     a' = set_triggered (alert_manager.new_alert 1 "EMP001" 0 20)).
Proof.
  exact (pipeline_never_removes_pending_alert sample.system_with_alert _ 1 _
           eq_refl).
Defined.

End AtSample.

End PipelineClaims.

(* ------------------------------------------------------------------ *)
(** ** The centroid tracker: what an update does to the table *)

Module TrackerFacts.

Import tracking_system observe.

Section General.
Context {numpy : np.Argsort} {python : tracking_system.SetIteration}
  {sqlite : database.Engine} {host : alert_manager.Host}.

Lemma with_objects_same self : with_objects self (objects self) = self.
Proof. now destruct self. Qed.

(** [miss] is an in-place change of the person filed under the id. *)
Lemma miss_spec now self k :
  miss now self k =
  with_objects self
    (Dict.modify k (missed now (max_disappeared self)) (objects self)).
Proof.
  unfold miss. destruct (Dict.get k (objects self)) as [p|] eqn:g.
  - assert (c : Dict.contains k
                  (Dict.modify k (set_missed now) (objects self)) = true).
    { unfold Dict.contains. now rewrite DictFacts.get_modify_same, g. }
    destruct (disappeared_frames p + 1 >? max_disappeared self) eqn:e.
    + unfold deregister. cbn [objects with_objects]. rewrite c.
      unfold with_objects. cbn. f_equal. rewrite DictFacts.modify_modify.
      apply DictFacts.modify_ext. intros v gv. unfold missed.
      replace v with p by congruence. now rewrite e.
    + unfold with_objects. f_equal. apply DictFacts.modify_ext. intros v gv.
      unfold missed. replace v with p by congruence. now rewrite e.
  - rewrite DictFacts.modify_absent by assumption.
    now rewrite with_objects_same.
Qed.

(** Changing every entry of a table in place, key by key. *)
Lemma fold_modify_skip {V} (f : V -> V) ks :
  forall (k0 : Z) (v0 : V) (d : Dict.t Z V),
    ~ In k0 ks ->
    fold_left (fun d k => Dict.modify k f d) ks ((k0, v0) :: d) =
    (k0, v0) :: fold_left (fun d k => Dict.modify k f d) ks d.
Proof.
  induction ks as [|k ks IH]; intros k0 v0 d ni; simpl; [reflexivity|].
  destruct (Z.eqb_spec k k0) as [e|ne].
  - exfalso. apply ni. now left.
  - apply IH. intros i. apply ni. now right.
Qed.

Lemma fold_modify_all {V} (f : V -> V) (d : Dict.t Z V) :
  NoDup (Dict.keys d) ->
  fold_left (fun d k => Dict.modify k f d) (Dict.keys d) d =
  map (fun item => (fst item, f (snd item))) d.
Proof.
  induction d as [|[k v] r IH]; simpl; intros nd; [reflexivity|].
  inversion nd as [|? ? ni nd']; subst.
  rewrite Z.eqb_refl. rewrite fold_modify_skip by assumption.
  now rewrite IH.
Qed.

Lemma get_fold_modify {V} (f : V -> V) ks :
  forall (d : Dict.t Z V) k,
    NoDup ks ->
    Dict.get k (fold_left (fun d k => Dict.modify k f d) ks d) =
    if in_dec Z.eq_dec k ks then option_map f (Dict.get k d)
    else Dict.get k d.
Proof.
  induction ks as [|k0 ks IH]; intros d k nd; simpl; [reflexivity|].
  inversion nd as [|? ? ni nd']; subst.
  rewrite IH by assumption. rewrite DictFacts.get_modify.
  destruct (Z.eq_dec k0 k) as [->|ne].
  - rewrite DictFacts.eqb_refl.
    destruct (in_dec Z.eq_dec k ks); [contradiction | reflexivity].
  - rewrite DictFacts.eqb_neq by congruence.
    destruct (in_dec Z.eq_dec k ks); reflexivity.
Qed.

Lemma keys_fold_modify {V} (f : V -> V) ks :
  forall d : Dict.t Z V,
    Dict.keys (fold_left (fun d k => Dict.modify k f d) ks d) = Dict.keys d.
Proof.
  induction ks as [|k0 ks IH]; intros d; simpl; [reflexivity|].
  now rewrite IH, DictFacts.keys_modify.
Qed.

(** A run of misses over a list of ids. *)
Lemma fold_miss now ks :
  forall self,
    fold_left (miss now) ks self =
    with_objects self
      (fold_left
         (fun d k => Dict.modify k (missed now (max_disappeared self)) d)
         ks (objects self)).
Proof.
  induction ks as [|k ks IH]; intros self; simpl.
  - now rewrite with_objects_same.
  - rewrite IH, miss_spec. reflexivity.
Qed.

(** An update without detections ages every person of the table. *)
Lemma update_empty self camera_id now :
  NoDup (Dict.keys (objects self)) ->
  update self [] camera_id now =
  with_objects self
    (map (fun item =>
            (fst item, aged camera_id now (max_disappeared self) (snd item)))
       (objects self)).
Proof.
  intros nd. unfold update.
  rewrite <- (fold_modify_all (aged camera_id now (max_disappeared self)))
    by assumption.
  generalize (Dict.keys (objects self)) as ks. intros ks. clear nd.
  revert self. induction ks as [|k ks IH]; intros self; simpl.
  - now rewrite with_objects_same.
  - assert (st : match Dict.get k (objects self) with
                 | Some person =>
                     if active_on camera_id person then miss now self k
                     else self
                 | None => self
                 end =
                 with_objects self
                   (Dict.modify k
                      (aged camera_id now (max_disappeared self))
                      (objects self))).
    { destruct (Dict.get k (objects self)) as [p|] eqn:g.
      - destruct (active_on camera_id p) eqn:a.
        + rewrite miss_spec. f_equal. apply DictFacts.modify_ext. intros v gv.
          unfold aged. replace v with p by congruence. now rewrite a.
        + rewrite DictFacts.modify_id; [now rewrite with_objects_same|].
          intros v gv. unfold aged. replace v with p by congruence.
          now rewrite a.
      - rewrite DictFacts.modify_absent by assumption.
        now rewrite with_objects_same. }
    rewrite st. rewrite IH. reflexivity.
Qed.

End General.

End TrackerFacts.

(* ------------------------------------------------------------------ *)
(** ** Frames without detections *)

Module EmptyFrames.

Import tracking_system observe.

Section General.
Context {numpy : np.Argsort} {python : tracking_system.SetIteration}
  {sqlite : database.Engine} {host : alert_manager.Host}.

Lemma keys_map_values {V} (f : V -> V) (d : Dict.t Z V) :
  Dict.keys (map (fun item => (fst item, f (snd item))) d) = Dict.keys d.
Proof.
  unfold Dict.keys. rewrite map_map. reflexivity.
Qed.

(** Feeding empty frames ages every person once per frame. *)
Lemma feed_empty_objects camera_id times :
  forall self,
    NoDup (Dict.keys (objects self)) ->
    feed_empty self camera_id times =
    with_objects self
      (map (fun item =>
              (fst item,
               fold_left (fun q now => aged camera_id now (max_disappeared self) q)
                 times (snd item)))
         (objects self)).
Proof.
  induction times as [|now times IH]; intros self nd.
  - unfold feed_empty. cbn [fold_left].
    rewrite <- (TrackerFacts.with_objects_same self) at 1. f_equal.
    rewrite <- (map_id (objects self)) at 1. apply map_ext.
    now intros [k v].
  - unfold feed_empty in *. cbn [fold_left].
    rewrite TrackerFacts.update_empty by assumption.
    rewrite IH.
    + unfold with_objects. cbn [objects max_disappeared next_object_id
        max_distance]. f_equal. rewrite map_map. reflexivity.
    + cbn [objects with_objects]. now rewrite keys_map_values.
Qed.

Lemma aged_inactive camera_id now m q :
  is_active q = false -> aged camera_id now m q = q.
Proof.
  intros h. unfold aged, active_on. now rewrite h.
Qed.

Lemma aged_iter_inactive camera_id m times :
  forall q,
    is_active q = false ->
    fold_left (fun q now => aged camera_id now m q) times q = q.
Proof.
  induction times as [|now times IH]; intros q h; simpl; [reflexivity|].
  rewrite aged_inactive by assumption. now apply IH.
Qed.

(** The course of an active person through frames without detections. *)
Lemma aged_iter_active cam m times :
  forall q,
    is_active q = true ->
    camera_id q = cam ->
    disappeared_frames q <= m ->
    let q' := fold_left (fun q now => aged cam now m q) times q in
    let n := Z.of_nat (length times) in
    is_active q' = (disappeared_frames q + n <=? m) /\
    disappeared_frames q' = Z.min (disappeared_frames q + n) (m + 1).
Proof.
  induction times as [|now times IH]; intros q act ec le.
  - cbv zeta. cbn [fold_left length]. rewrite act. change (Z.of_nat 0) with 0.
    rewrite Z.add_0_r. split; [|lia].
    symmetry. now apply Z.leb_le.
  - cbv zeta. cbn [fold_left length]. rewrite Nat2Z.inj_succ.
    set (q1 := aged cam now m q).
    assert (a : active_on cam q = true).
    { unfold active_on. now rewrite act, ec, String.eqb_refl. }
    assert (e1 : q1 = missed now m q) by (unfold q1, aged; now rewrite a).
    assert (c1 : camera_id q1 = cam).
    { rewrite e1. unfold missed.
      now destruct (disappeared_frames q + 1 >? m). }
    assert (d1 : disappeared_frames q1 = disappeared_frames q + 1).
    { rewrite e1. unfold missed.
      now destruct (disappeared_frames q + 1 >? m). }
    destruct (Z_le_gt_dec (disappeared_frames q + 1) m) as [ok|over].
    + assert (a1 : is_active q1 = true).
      { rewrite e1. unfold missed.
        destruct (Z.gtb_spec (disappeared_frames q + 1) m); [lia|].
        exact act. }
      assert (le1 : disappeared_frames q1 <= m) by lia.
      specialize (IH q1 a1 c1 le1). cbv zeta in IH.
      rewrite d1 in IH. destruct IH as (i1 & i2).
      rewrite i1, i2.
      replace (disappeared_frames q + 1 + Z.of_nat (length times))
        with (disappeared_frames q + Z.succ (Z.of_nat (length times))) by lia.
      split; reflexivity.
    + assert (a1 : is_active q1 = false).
      { rewrite e1. unfold missed.
        destruct (Z.gtb_spec (disappeared_frames q + 1) m); [|lia].
        reflexivity. }
      rewrite aged_iter_inactive by assumption.
      rewrite a1, d1. split.
      * symmetry. apply Z.leb_gt. lia.
      * lia.
Qed.

Lemma filter_active_map (f : TrackedPerson -> TrackedPerson)
  (d : Dict.t Z TrackedPerson) :
  (forall q, is_active q = false -> is_active (f q) = false) ->
  filter (fun kv => is_active (snd kv))
    (map (fun item => (fst item, f (snd item))) d) =
  filter (fun kv => is_active (snd kv))
    (map (fun item => (fst item, f (snd item)))
       (filter (fun kv => is_active (snd kv)) d)).
Proof.
  intros h. induction d as [|[k v] r IH]; simpl; [reflexivity|].
  destruct (is_active v) eqn:a; simpl.
  - now rewrite IH.
  - now rewrite (h v a).
Qed.

Lemma get_map_values {V} (f : V -> V) (d : Dict.t Z V) k :
  Dict.get k (map (fun item => (fst item, f (snd item))) d) =
  option_map f (Dict.get k d).
Proof.
  induction d as [|[k' v'] r IH]; simpl; [reflexivity|].
  now destruct (k =? k').
Qed.

End General.

End EmptyFrames.

Module EmptyFrameClaims.

Import tracking_system observe.

Section General.
Context {numpy : np.Argsort} {python : tracking_system.SetIteration}
  {sqlite : database.Engine} {host : alert_manager.Host}.

(** C6, amended: a tracker holding exactly one active identity, with [d]
    misses already counted ([d <= max_disappeared]), fed [n] consecutive
    empty detection lists for that identity's camera: the identity is still
    active after [n] of them exactly when [d + n <= max_disappeared].  So it
    becomes inactive once, on empty update number [max_disappeared + 1 - d]
    (number [max_disappeared + 1] when no miss was counted before), stays
    inactive with its counter frozen at [max_disappeared + 1], and from then
    on no person is active. *)
Theorem sole_identity_departs_when_tolerance_is_used_up :
  forall self camera_id k p times,
    NoDup (Dict.keys (objects self)) ->
    get_active_persons self None = [(k, p)] ->
    camera_id = tracking_system.camera_id p ->
    disappeared_frames p <= max_disappeared self ->
    let self' := feed_empty self camera_id times in
    let still := disappeared_frames p + Z.of_nat (length times)
                 <=? max_disappeared self in
    length (get_active_persons self' None) = (if still then 1 else 0)%nat /\
    exists p',
      Dict.get k (objects self') = Some p' /\
      is_active p' = still /\
      disappeared_frames p' =
        Z.min (disappeared_frames p + Z.of_nat (length times))
              (max_disappeared self + 1).
Proof.
  intros self camera_id k p times nd act cam le. cbv zeta. subst camera_id.
  unfold get_active_persons in *. cbn [truthy] in *.
  rewrite EmptyFrames.feed_empty_objects by assumption.
  cbn [objects with_objects].
  assert (ip : In (k, p) (objects self) /\ is_active p = true).
  { assert (i : In (k, p) [(k, p)]) by now left.
    rewrite <- act in i. apply filter_In in i. exact i. }
  destruct ip as [ip ap].
  destruct (EmptyFrames.aged_iter_active (tracking_system.camera_id p)
              (max_disappeared self) times p ap eq_refl le) as (i1 & i2).
  split.
  - rewrite EmptyFrames.filter_active_map.
    + rewrite act. cbn [map filter fst snd]. rewrite i1.
      now destruct (_ <=? _).
    + intros q h. now rewrite EmptyFrames.aged_iter_inactive.
  - rewrite EmptyFrames.get_map_values.
    rewrite (DictFacts.In_get k p (objects self) nd ip). simpl.
    eexists. split; [reflexivity|]. split; assumption.
Qed.

End General.

(** On the samples: the insertion sort for [argsort], sets visited in
    ascending order, rows of equal entry time in table order, and a host on
    which nothing fails. *)
Section AtSample.
Existing Instance np.stable.
Existing Instance tracking_system.ascending.
Existing Instance database.table_order.
Existing Instance alert_manager.reliable.

(** C6, as stated, fails.  The tracker of the test suite
    ([max_disappeared = 5]) that saw one person and then one frame without
    detections holds exactly one active identity, with one miss already
    counted; five more empty frames -- no more than [max_disappeared] --
    already make it depart, one frame earlier than update number
    [max_disappeared + 1]. *)
Lemma sole_identity_may_depart_before_update_max_plus_1 :
  ~ (forall self camera_id k p times,
       NoDup (Dict.keys (objects self)) ->
       get_active_persons self None = [(k, p)] ->
       camera_id = tracking_system.camera_id p ->
       Z.of_nat (length times) <= max_disappeared self ->
       length (get_active_persons (feed_empty self camera_id times) None)
       = 1%nat).
Proof.
  intros h.
  assert (nd : NoDup (Dict.keys (objects sample.one_person_missed_once))).
  { repeat constructor. simpl. tauto. }
  specialize (h sample.one_person_missed_once "cam1"%string 1 _
                [2; 3; 4; 5; 6] nd eq_refl eq_refl).
  assert (le : Z.of_nat (length [2; 3; 4; 5; 6]) <=
               max_disappeared sample.one_person_missed_once)
    by (vm_compute; discriminate).
  specialize (h le). vm_compute in h. discriminate h.
Qed.

(** The end-to-end scenario of the specification, run on the code: after
    the frame that misses person 2 its counter is 1, so with
    [max_disappeared = 5] it is still active after four empty frames and
    departs on the fifth. *)
Lemma scenario_person_2_departs_on_fifth_empty_frame :
  option_map (fun p => (disappeared_frames p, is_active p))
    (Dict.get 2 (objects sample.scenario)) = Some (1, true) /\
  option_map (fun p => (disappeared_frames p, is_active p))
    (Dict.get 2 (objects (feed_empty sample.scenario "cam1" [2; 3; 4; 5])))
  = Some (5, true) /\
  option_map (fun p => (disappeared_frames p, is_active p))
    (Dict.get 2
       (objects (feed_empty sample.scenario "cam1" [2; 3; 4; 5; 6])))
  = Some (6, false).
Proof. vm_compute. repeat split. Qed.

Lemma sole_identity_departs_when_tolerance_is_used_up_witness :
  length
    (get_active_persons
       (feed_empty sample.one_person "cam1" [1; 2; 3; 4; 5; 6]) None) = 0%nat.
Proof.
  refine (proj1
    (sole_identity_departs_when_tolerance_is_used_up sample.one_person
       "cam1"%string 1 _ [1; 2; 3; 4; 5; 6] _ eq_refl eq_refl _)).
  - repeat constructor. simpl. tauto.
  - vm_compute. discriminate.
Defined.

End AtSample.

End EmptyFrameClaims.

(* ------------------------------------------------------------------ *)
(** ** The table invariant, registration and the matching loop *)

Module TableFacts.

Import tracking_system observe.

Section General.
Context {numpy : np.Argsort} {python : tracking_system.SetIteration}
  {sqlite : database.Engine} {host : alert_manager.Host}.

Lemma issued_ids_succ n : 1 <= n -> issued_ids (n + 1) = issued_ids n ++ [n].
Proof.
  intros le. unfold issued_ids.
  replace (Z.to_nat (n + 1 - 1)) with (S (Z.to_nat (n - 1))) by lia.
  rewrite seq_S, map_app. simpl. f_equal. f_equal. lia.
Qed.

Lemma issued_ids_bound n k : In k (issued_ids n) -> 1 <= k < n.
Proof.
  unfold issued_ids. rewrite in_map_iff. intros (i & <- & h).
  apply in_seq in h. lia.
Qed.

Lemma issued_ids_NoDup n : NoDup (issued_ids n).
Proof.
  unfold issued_ids. apply Finite.Injective_map_NoDup.
  - intros a b. apply Nat2Z.inj.
  - apply seq_NoDup.
Qed.

Lemma issued_ids_length n : 1 <= n -> Z.of_nat (length (issued_ids n)) = n - 1.
Proof.
  intros le. unfold issued_ids. rewrite length_map, length_seq. lia.
Qed.

Lemma ok_NoDup self : tracker_ok self -> NoDup (Dict.keys (objects self)).
Proof.
  intros (_ & e & _). rewrite e. apply issued_ids_NoDup.
Qed.

Lemma ok_fresh self : tracker_ok self ->
  Dict.get (next_object_id self) (objects self) = None.
Proof.
  intros (_ & e & _). apply DictFacts.get_None_keys. rewrite e.
  intros i. apply issued_ids_bound in i. lia.
Qed.

Lemma ok_key_bound self k p :
  tracker_ok self -> Dict.get k (objects self) = Some p ->
  1 <= k < next_object_id self /\ tracking_id p = k.
Proof.
  intros (_ & e & fa) g. split.
  - apply issued_ids_bound. rewrite <- e.
    eapply DictFacts.get_Some_keys; eauto.
  - rewrite Forall_forall in fa. apply (fa (k, p)).
    now apply DictFacts.get_In.
Qed.

Lemma ok_init md mdist : tracker_ok (init md mdist).
Proof.
  split; [simpl; lia|]. split; [reflexivity | constructor].
Qed.

(** In-place changes that keep the id keep the invariant. *)
Lemma ok_with_objects self d :
  tracker_ok self ->
  Dict.keys d = Dict.keys (objects self) ->
  Forall (fun item => tracking_id (snd item) = fst item) d ->
  tracker_ok (with_objects self d).
Proof.
  intros (le & e & _) ek fa. split; [exact le|]. split; [|exact fa].
  cbn [objects with_objects next_object_id]. congruence.
Qed.

(** [register] appends one entry under the next id. *)
Lemma register_spec self det camera_id now :
  tracker_ok self ->
  fst (register self (detection_engine.center det)
         (detection_engine.bbox det) (detection_engine.confidence det)
         camera_id now) =
  {| next_object_id := next_object_id self + 1;
     objects := objects self ++
                [(next_object_id self,
                  new_person (next_object_id self) det camera_id now)];
     max_disappeared := max_disappeared self;
     max_distance := max_distance self |}.
Proof.
  intros ok. unfold register. cbn [fst]. f_equal.
  apply DictFacts.set_absent. now apply ok_fresh.
Qed.

Lemma keys_registered n dets camera_id now :
  Dict.keys (registered n dets camera_id now) =
  map (fun i => n + Z.of_nat i) (seq 0 (length dets)).
Proof.
  unfold Dict.keys. revert n.
  induction dets as [|det r IH]; intros n; simpl; [reflexivity|].
  f_equal; [lia|]. rewrite IH.
  rewrite <- seq_shift, map_map. apply map_ext. intros i. lia.
Qed.

Lemma issued_ids_app n dets camera_id now :
  1 <= n ->
  issued_ids n ++ Dict.keys (registered n dets camera_id now) =
  issued_ids (n + Z.of_nat (length dets)).
Proof.
  unfold Dict.keys. revert n.
  induction dets as [|det r IH]; intros n le; simpl.
  - now rewrite app_nil_r, Z.add_0_r.
  - change (n :: map fst (registered (n + 1) r camera_id now))
      with ([n] ++ map fst (registered (n + 1) r camera_id now)).
    rewrite app_assoc, <- issued_ids_succ by assumption.
    rewrite IH by lia. f_equal. lia.
Qed.

Lemma registered_keyed n dets camera_id now :
  Forall (fun item => tracking_id (snd item) = fst item)
    (registered n dets camera_id now).
Proof.
  revert n. induction dets as [|det r IH]; intros n; simpl; constructor; auto.
Qed.

Lemma registered_bound n dets camera_id now k p :
  In (k, p) (registered n dets camera_id now) ->
  n <= k /\ is_active p = true /\ tracking_id p = k /\
  disappeared_frames p = 0 /\ tracking_system.camera_id p = camera_id.
Proof.
  revert n. induction dets as [|det r IH]; intros n; simpl; [tauto|].
  intros [e|i].
  - injection e as <- <-. simpl. repeat split; lia.
  - apply IH in i. intuition lia.
Qed.

(** A run of registrations. *)
Lemma register_fold camera_id now dets :
  forall self,
    tracker_ok self ->
    fold_left
      (fun self det =>
         fst (register self (detection_engine.center det)
                (detection_engine.bbox det) (detection_engine.confidence det)
                camera_id now))
      dets self =
    {| next_object_id := next_object_id self + Z.of_nat (length dets);
       objects := objects self ++
                  registered (next_object_id self) dets camera_id now;
       max_disappeared := max_disappeared self;
       max_distance := max_distance self |}.
Proof.
  induction dets as [|det r IH]; intros self ok.
  - simpl. rewrite app_nil_r, Z.add_0_r. now destruct self.
  - cbn [fold_left]. rewrite register_spec by assumption.
    rewrite IH.
    + cbn [next_object_id objects max_disappeared max_distance length
           registered].
      rewrite <- app_assoc. cbn [app]. f_equal. lia.
    + destruct ok as (le & e & fa). split; [simpl; lia|]. split.
      * cbn [objects next_object_id]. unfold Dict.keys in *.
        rewrite map_app, e. simpl. now rewrite issued_ids_succ.
      * cbn [objects]. apply Forall_app. split; [assumption|].
        repeat constructor.
Qed.

Lemma fold_picks {S A} (f : S -> A -> S) (l : list A) positions :
  forall s,
    fold_left
      (fun s i => match nth_error l i with Some x => f s x | None => s end)
      positions s =
    fold_left f (picks l positions) s.
Proof.
  induction positions as [|i r IH]; intros s; simpl; [reflexivity|].
  rewrite fold_left_app. rewrite IH.
  destruct (nth_error l i); reflexivity.
Qed.

End General.

End TableFacts.

Module LoopFacts.

Import tracking_system observe.

Section General.
Context {numpy : np.Argsort} {python : tracking_system.SetIteration}
  {sqlite : database.Engine} {host : alert_manager.Host}.

Lemma mem_In i s : mem i s = true <-> In i s.
Proof.
  unfold mem. rewrite existsb_exists. split.
  - intros (x & ix & e). apply Nat.eqb_eq in e. now subst.
  - intros h. exists i. split; [assumption | apply Nat.eqb_refl].
Qed.

Lemma mem_not_In i s : mem i s = false <-> ~ In i s.
Proof.
  rewrite <- mem_In. destruct (mem i s); split; congruence.
Qed.

(** One iteration either skips the pair or assigns it. *)
Lemma match_step_cases D object_ids dets now st row col :
  match_step D object_ids dets now st (row, col) = st \/
  exists tid det,
    nth_error object_ids row = Some tid /\
    nth_error dets col = Some det /\
    ~ In row (used_rows st) /\ ~ In col (used_cols st) /\
    too_far D row col (max_distance (ms_self st)) = false /\
    match_step D object_ids dets now st (row, col) =
    {| ms_self :=
         with_objects (ms_self st)
           (Dict.modify tid (set_matched det now) (objects (ms_self st)));
       used_rows := row :: used_rows st;
       used_cols := col :: used_cols st |}.
Proof.
  unfold match_step.
  destruct (mem row (used_rows st)) eqn:mr; [now left|].
  destruct (mem col (used_cols st)) eqn:mc; [now left|].
  cbn [orb].
  destruct (too_far D row col (max_distance (ms_self st))) eqn:tf; [now left|].
  destruct (nth_error object_ids row) as [tid|]; [|now left].
  destruct (nth_error dets col) as [det|]; [|now left].
  right. exists tid, det. repeat split; try reflexivity.
  - now apply mem_not_In.
  - now apply mem_not_In.
Qed.

(** What the matching loop keeps and what it may change. *)
Lemma match_loop_facts D object_ids dets now pairs :
  forall st,
    let st' := fold_left (match_step D object_ids dets now) pairs st in
    ms_self st' = with_objects (ms_self st) (objects (ms_self st')) /\
    Dict.keys (objects (ms_self st')) = Dict.keys (objects (ms_self st)) /\
    (Forall (fun item => tracking_id (snd item) = fst item)
       (objects (ms_self st)) ->
     Forall (fun item => tracking_id (snd item) = fst item)
       (objects (ms_self st'))) /\
    (forall r, In r (used_rows st) -> In r (used_rows st')) /\
    (length (used_rows st) = length (used_cols st) ->
     length (used_rows st') = length (used_cols st')) /\
    (forall k,
       (forall r, In r (used_rows st') ->
                  nth_error object_ids r = Some k -> In r (used_rows st)) ->
       Dict.get k (objects (ms_self st')) = Dict.get k (objects (ms_self st))).
Proof.
  induction pairs as [|[row col] pairs IH]; intros st; cbv zeta.
  - cbn [fold_left]. rewrite TrackerFacts.with_objects_same. tauto.
  - cbn [fold_left].
    specialize (IH (match_step D object_ids dets now st (row, col))).
    cbv zeta in IH.
    destruct (match_step_cases D object_ids dets now st row col)
      as [e | (tid & det & er & ec & nr & nc & tf & e)]; rewrite e in IH |- *.
    + exact IH.
    + cbn [ms_self used_rows used_cols objects with_objects] in IH.
      destruct IH as (i1 & i2 & i3 & i4 & i5 & i6).
      repeat split.
      * rewrite i1. reflexivity.
      * now rewrite i2, DictFacts.keys_modify.
      * intros fa. apply i3. apply DictFacts.Forall_modify; [|assumption].
        now intros k0 v0.
      * intros r i. apply i4. now right.
      * intros el. apply i5. simpl. now rewrite el.
      * intros k h. rewrite i6.
        -- rewrite DictFacts.get_modify.
           destruct (Dict.eqb_spec k tid) as [->|ne]; [|reflexivity].
           exfalso. apply nr. apply h; [|assumption]. apply i4. now left.
        -- intros r i enr. right. now apply h.
Qed.

Lemma in_combine_fst {A B} (l1 : list A) (l2 : list B) x :
  length l1 = length l2 -> In x l1 -> exists y, In (x, y) (combine l1 l2).
Proof.
  revert l2. induction l1 as [|a l1 IH]; intros [|b l2]; simpl;
    try tauto; try discriminate.
  intros [= el] [->|i].
  - exists b. now left.
  - destruct (IH l2 el i) as (y & h). exists y. now right.
Qed.

Lemma in_combine_snd {A B} (l1 : list A) (l2 : list B) y :
  length l1 = length l2 -> In y l2 -> exists x, In (x, y) (combine l1 l2).
Proof.
  revert l2. induction l1 as [|a l1 IH]; intros [|b l2]; simpl;
    try tauto; try discriminate.
  intros [= el] [->|i].
  - exists a. now left.
  - destruct (IH l2 el i) as (x & h). exists x. now right.
Qed.

Lemma in_picks {A} (l : list A) positions x :
  In x (picks l positions) <->
  exists i, In i positions /\ nth_error l i = Some x.
Proof.
  unfold picks. rewrite in_flat_map. split.
  - intros (i & ii & h). exists i. split; [assumption|].
    destruct (nth_error l i); simpl in h; [|tauto].
    destruct h as [->|[]]. reflexivity.
  - intros (i & ii & h). exists i. split; [assumption|].
    rewrite h. now left.
Qed.

Lemma NoDup_picks {A} (l : list A) positions :
  NoDup l -> NoDup positions -> NoDup (picks l positions).
Proof.
  intros ndl. induction 1 as [|i r ni nd IH]; simpl; [constructor|].
  destruct (nth_error l i) as [x|] eqn:e; simpl; [|assumption].
  constructor; [|assumption].
  intros h. apply in_picks in h as (j & jr & ej).
  assert (i = j).
  { apply (proj1 (NoDup_nth_error l) ndl).
    - apply nth_error_Some. congruence.
    - congruence. }
  subst. contradiction.
Qed.

Lemma NoDup_unused n used : NoDup (unused n used).
Proof.
  unfold unused.
  apply (Permutation_NoDup (Permutation_sym (range_minus_lists n used))).
  apply NoDup_filter. apply seq_NoDup.
Qed.

Lemma in_unused n used i :
  In i (unused n used) <-> (i < n)%nat /\ ~ In i used.
Proof.
  unfold unused.
  transitivity (In i (filter (fun i => negb (mem i used)) (seq 0 n))).
  { split; apply Permutation_in;
      [|apply Permutation_sym]; apply range_minus_lists. }
  rewrite filter_In, in_seq, negb_true_iff, mem_not_In.
  intuition lia.
Qed.

End General.

End LoopFacts.

Module UpdateFacts.

Import tracking_system observe.

Section General.
Context {numpy : np.Argsort} {python : tracking_system.SetIteration}
  {sqlite : database.Engine} {host : alert_manager.Host}.

Lemma active_keys self camera_id k :
  NoDup (Dict.keys (objects self)) ->
  (In k (Dict.keys (active_objects self camera_id)) <->
   exists p, Dict.get k (objects self) = Some p /\
             active_on camera_id p = true).
Proof.
  intros nd. unfold active_objects.
  now rewrite DictFacts.In_keys_filter.
Qed.

Lemma length_distance_matrix self dets camera_id :
  length (distance_matrix self dets camera_id) =
  length (Dict.keys (active_objects self camera_id)).
Proof.
  unfold distance_matrix, np.cdist, Dict.values, Dict.keys.
  now rewrite !length_map.
Qed.

Lemma missed_id now m p : tracking_id (missed now m p) = tracking_id p.
Proof. unfold missed. now destruct (_ >? _). Qed.

Lemma aged_id c now m p : tracking_id (aged c now m p) = tracking_id p.
Proof. unfold aged. destruct (active_on c p); [apply missed_id | reflexivity]. Qed.

(** The shape of the table after an update: the old entries, changed in
    place, followed by the entries registered for some of the detections. *)
Lemma update_structure self dets camera_id now :
  tracker_ok self ->
  exists old news,
    update self dets camera_id now =
    {| next_object_id := next_object_id self + Z.of_nat (length news);
       objects := old ++ registered (next_object_id self) news camera_id now;
       max_disappeared := max_disappeared self;
       max_distance := max_distance self |} /\
    Dict.keys old = Dict.keys (objects self) /\
    Forall keyed old /\
    (forall k p,
       Dict.get k (objects self) = Some p ->
       active_on camera_id p = false ->
       Dict.get k old = Some p) /\
    (forall k p,
       Dict.get k (objects self) = Some p ->
       active_on camera_id p = true ->
       ~ In k (map fst (assigned_pairs self dets camera_id now)) ->
       Dict.get k old = Some (missed now (max_disappeared self) p)) /\
    (active_objects self camera_id = [] -> news = dets) /\
    (forall c det,
       nth_error dets c = Some det ->
       ~ In c (map snd (assigned_pairs self dets camera_id now)) ->
       In det news).
Proof.
  intros ok. pose proof (TableFacts.ok_NoDup self ok) as nd.
  pose proof ok as (le & ek & fa).
  destruct dets as [|d ds].
  - (* no detections *)
    exists (map (fun item =>
                   (fst item,
                    aged camera_id now (max_disappeared self) (snd item)))
              (objects self)), [].
    rewrite TrackerFacts.update_empty by assumption.
    split; [|split; [|split; [|split; [|split; [|split]]]]].
    + unfold with_objects. cbn [length registered]. f_equal.
      * change (Z.of_nat 0) with 0. lia.
      * now rewrite app_nil_r.
    + apply EmptyFrames.keys_map_values.
    + apply Forall_map. eapply Forall_impl; [|exact fa].
      intros [k v]. unfold keyed. simpl. intros e. now rewrite aged_id.
    + intros k p g a. rewrite EmptyFrames.get_map_values, g. simpl.
      unfold aged. now rewrite a.
    + intros k p g a _. rewrite EmptyFrames.get_map_values, g. simpl.
      unfold aged. now rewrite a.
    + reflexivity.
    + intros c det e. destruct c; discriminate e.
  - unfold update. cbv beta iota zeta.
    destruct (length (active_objects self camera_id) =? 0)%nat eqn:el.
    + (* nobody active on this camera *)
      exists (objects self), (d :: ds).
      rewrite TableFacts.register_fold by assumption.
      split; [reflexivity|]. split; [reflexivity|].
      split; [exact fa|]. split; [tauto|]. split; [|split; [reflexivity|]].
      * intros k p g a _. exfalso. apply Nat.eqb_eq in el.
        assert (i : In (k, p) (active_objects self camera_id)).
        { apply filter_In. split; [now apply DictFacts.get_In | exact a]. }
        destruct (active_objects self camera_id);
          [contradiction | discriminate].
      * intros c det e _. eapply nth_error_In; eauto.
    + (* matching *)
      set (object_ids := Dict.keys (active_objects self camera_id)).
      set (D := distance_matrix self (d :: ds) camera_id).
      set (st := match_loop self (d :: ds) camera_id now).
      pose proof (LoopFacts.match_loop_facts D object_ids (d :: ds) now
                    (match_order D)
                    {| ms_self := self; used_rows := []; used_cols := [] |})
        as mf.
      cbv zeta in mf.
      change (fold_left (match_step D object_ids (d :: ds) now)
                (match_order D)
                {| ms_self := self; used_rows := []; used_cols := [] |})
        with st in mf.
      cbn [ms_self used_rows used_cols] in mf.
      destruct mf as (m1 & m2 & m3 & _ & m5 & m6).
      rewrite (TableFacts.fold_picks (miss now) object_ids).
      rewrite TrackerFacts.fold_miss.
      set (ks := picks object_ids (unused (length D) (used_rows st))).
      assert (e0 : max_disappeared (ms_self st) = max_disappeared self)
        by (rewrite m1; reflexivity).
      rewrite e0.
      set (old := fold_left
                    (fun d k =>
                       Dict.modify k (missed now (max_disappeared self)) d)
                    ks (objects (ms_self st))).
      assert (kold : Dict.keys old = Dict.keys (objects self)).
      { unfold old. now rewrite TrackerFacts.keys_fold_modify. }
      assert (fold_keyed : forall ks0 d0,
                Forall keyed d0 ->
                Forall keyed
                  (fold_left
                     (fun d k =>
                        Dict.modify k (missed now (max_disappeared self)) d)
                     ks0 d0)).
      { induction ks0 as [|k0 ks0 IH0]; intros d0 f0; simpl; [assumption|].
        apply IH0. apply DictFacts.Forall_modify; [|assumption].
        intros k1 v1. unfold keyed. simpl. now rewrite missed_id. }
      assert (okold : tracker_ok (with_objects (ms_self st) old)).
      { rewrite m1. apply (TableFacts.ok_with_objects self old ok kold).
        apply fold_keyed. now apply m3. }
      rewrite (TableFacts.fold_picks
                 (fun self det =>
                    fst (register self (detection_engine.center det)
                           (detection_engine.bbox det)
                           (detection_engine.confidence det)
                           camera_id now))
                 (d :: ds)).
      rewrite TableFacts.register_fold by assumption.
      exists old, (picks (d :: ds) (unused (length (d :: ds)) (used_cols st))).
      assert (ndo : NoDup object_ids).
      { unfold object_ids, active_objects.
        now apply DictFacts.NoDup_keys_filter. }
      assert (ndk : NoDup ks).
      { apply LoopFacts.NoDup_picks; [assumption|].
        apply LoopFacts.NoDup_unused. }
      split; [|split; [|split; [|split; [|split; [|split]]]]].
      * rewrite m1. reflexivity.
      * exact kold.
      * apply fold_keyed. now apply m3.
      * intros k p g a.
        assert (nk : ~ In k object_ids).
        { intros i. apply (active_keys self camera_id k nd) in i
            as (p' & g' & a'). congruence. }
        unfold old. rewrite TrackerFacts.get_fold_modify by assumption.
        destruct (in_dec Z.eq_dec k ks) as [i|_].
        -- exfalso. apply nk. apply LoopFacts.in_picks in i as (r & _ & e).
           eapply nth_error_In; eauto.
        -- rewrite m6; [assumption|].
           intros r _ e. exfalso. apply nk. eapply nth_error_In; eauto.
      * intros k p g a na.
        assert (ik : In k object_ids).
        { apply (active_keys self camera_id k nd). eauto. }
        apply In_nth_error in ik as (r & er).
        assert (nu : ~ In r (used_rows st)).
        { intros i. apply na.
          unfold assigned_pairs. rewrite el. fold st. fold object_ids.
          destruct (LoopFacts.in_combine_fst (used_rows st) (used_cols st) r
                      (m5 eq_refl) i) as (c & ic).
          rewrite map_map. apply in_map_iff. exists (r, c). split.
          - simpl. apply nth_error_nth with (d := 0) in er. exact er.
          - now apply in_rev in ic. }
        assert (gk : Dict.get k (objects (ms_self st)) = Some p).
        { rewrite m6; [assumption|].
          intros r' i' e'.
          assert (r' = r).
          { apply (proj1 (NoDup_nth_error object_ids) ndo).
            - apply nth_error_Some. congruence.
            - congruence. }
          subst. contradiction. }
        unfold old. rewrite TrackerFacts.get_fold_modify by assumption.
        destruct (in_dec Z.eq_dec k ks) as [_|n].
        -- now rewrite gk.
        -- exfalso. apply n. apply LoopFacts.in_picks. exists r.
           split; [|assumption]. apply LoopFacts.in_unused.
           split; [|assumption].
           unfold D. rewrite length_distance_matrix. fold object_ids.
           apply nth_error_Some. congruence.
      * intros e. rewrite e in el. discriminate el.
      * intros c det e nc. apply LoopFacts.in_picks. exists c.
        split; [|assumption]. apply LoopFacts.in_unused.
        split; [apply nth_error_Some; congruence|].
        intros i. apply nc.
        unfold assigned_pairs. rewrite el. fold st. fold object_ids.
        destruct (LoopFacts.in_combine_snd (used_rows st) (used_cols st) c
                    (m5 eq_refl) i) as (r & ic).
        rewrite map_map. apply in_map_iff. exists (r, c).
        split; [reflexivity | now apply in_rev in ic].
Qed.

End General.

End UpdateFacts.

Module UpdateConsequences.

Import tracking_system observe.

Section General.
Context {numpy : np.Argsort} {python : tracking_system.SetIteration}
  {sqlite : database.Engine} {host : alert_manager.Host}.

Lemma update_ok self dets camera_id now :
  tracker_ok self -> tracker_ok (update self dets camera_id now).
Proof.
  intros ok. pose proof ok as (le & ek & fa).
  destruct (UpdateFacts.update_structure self dets camera_id now ok)
    as (old & news & e & kold & fold & _).
  rewrite e. split; [simpl; lia|]. split.
  - cbn [objects next_object_id]. unfold Dict.keys in *.
    rewrite map_app, kold, ek.
    apply (TableFacts.issued_ids_app _ news camera_id now le).
  - cbn [objects]. apply Forall_app. split; [assumption|].
    apply TableFacts.registered_keyed.
Qed.

Lemma tracker_run_ok calls :
  forall self, tracker_ok self -> tracker_ok (tracker_run self calls).
Proof.
  induction calls as [|c calls IH]; intros self ok; [assumption|].
  apply IH. now apply update_ok.
Qed.

Lemma update_fields self dets camera_id now :
  tracker_ok self ->
  max_disappeared (update self dets camera_id now) = max_disappeared self /\
  max_distance (update self dets camera_id now) = max_distance self /\
  next_object_id self <= next_object_id (update self dets camera_id now).
Proof.
  intros ok.
  destruct (UpdateFacts.update_structure self dets camera_id now ok)
    as (old & news & e & _).
  rewrite e. simpl. repeat split. lia.
Qed.

(** An old entry read after the update is read from the changed old part. *)
Lemma get_old self dets camera_id now old news k p :
  update self dets camera_id now =
  {| next_object_id := next_object_id self + Z.of_nat (length news);
     objects := old ++ registered (next_object_id self) news camera_id now;
     max_disappeared := max_disappeared self;
     max_distance := max_distance self |} ->
  Dict.get k old = Some p ->
  Dict.get k (objects (update self dets camera_id now)) = Some p.
Proof.
  intros e g. rewrite e. cbn [objects]. now rewrite DictFacts.get_app_l, g.
Qed.

(** A person that is not active on the camera is left as it is. *)
Lemma update_keeps_others self dets camera_id now k p :
  tracker_ok self ->
  Dict.get k (objects self) = Some p ->
  active_on camera_id p = false ->
  Dict.get k (objects (update self dets camera_id now)) = Some p.
Proof.
  intros ok g a.
  destruct (UpdateFacts.update_structure self dets camera_id now ok)
    as (old & news & e & _ & _ & keep & _).
  eapply get_old; eauto.
Qed.

Lemma inactive_not_active_on camera_id p :
  is_active p = false -> active_on camera_id p = false.
Proof. intros h. unfold active_on. now rewrite h. Qed.

Lemma get_registered n dets camera_id now i det :
  nth_error dets i = Some det ->
  Dict.get (n + Z.of_nat i) (registered n dets camera_id now) =
  Some (new_person (n + Z.of_nat i) det camera_id now).
Proof.
  revert n i. induction dets as [|d r IH]; intros n [|i]; simpl;
    try discriminate.
  - intros [= ->]. rewrite Z.add_0_r, Z.eqb_refl. reflexivity.
  - intros e. destruct (Z.eqb_spec (n + Z.pos (Pos.of_succ_nat i)) n); [lia|].
    replace (n + Z.pos (Pos.of_succ_nat i)) with (n + 1 + Z.of_nat i) by lia.
    now apply IH.
Qed.

End General.

End UpdateConsequences.

Module TrackerClaims.

Import tracking_system observe.

Section General.
Context {numpy : np.Argsort} {python : tracking_system.SetIteration}
  {sqlite : database.Engine} {host : alert_manager.Host}.

(** C9, amended: an active person of the camera left unmatched by an update
    (with or without detections) keeps its centroid, bounding box,
    confidence, id, employee id, first-seen time and camera; its
    [disappeared_frames] grows by one, its [last_seen] is set to the time
    of the call, and it becomes inactive exactly when the new count exceeds
    [max_disappeared]. *)
Theorem unmatched_identity_frame :
  forall self dets camera_id now k p,
    tracker_ok self ->
    Dict.get k (objects self) = Some p ->
    active_on camera_id p = true ->
    ~ In k (map fst (assigned_pairs self dets camera_id now)) ->
    exists p',
      Dict.get k (objects (update self dets camera_id now)) = Some p' /\
      centroid p' = centroid p /\ bbox p' = bbox p /\
      confidence p' = confidence p /\
      tracking_id p' = tracking_id p /\ employee_id p' = employee_id p /\
      first_seen p' = first_seen p /\
      tracking_system.camera_id p' = tracking_system.camera_id p /\
      disappeared_frames p' = disappeared_frames p + 1 /\
      last_seen p' = now /\
      is_active p' =
        negb (disappeared_frames p + 1 >? max_disappeared self).
Proof.
  intros self dets camera_id now k p ok g a na.
  destruct (UpdateFacts.update_structure self dets camera_id now ok)
    as (old & news & e & _ & _ & _ & miss & _).
  exists (missed now (max_disappeared self) p). split.
  - eapply UpdateConsequences.get_old; eauto.
  - assert (ap : is_active p = true).
    { unfold active_on in a. now apply andb_true_iff in a as [a _]. }
    unfold missed.
    destruct (disappeared_frames p + 1 >? max_disappeared self); simpl;
      repeat split; assumption.
Qed.

End General.

(** On the samples: the insertion sort for [argsort], sets visited in
    ascending order, rows of equal entry time in table order, and a host on
    which nothing fails. *)
Section AtSample.
Existing Instance np.stable.
Existing Instance tracking_system.ascending.
Existing Instance database.table_order.
Existing Instance alert_manager.reliable.

(** C9, as stated, fails on [lastSeen]: an active person left unmatched by
    an update has its [last_seen] set to the time of the call.  The tracker
    of the test suite holding one person last seen at time 0, updated at
    time 7 with one detection far away, leaves the person unmatched with
    [last_seen = 7]. *)
Lemma unmatched_identity_last_seen_changes :
  ~ (forall self dets camera_id now k p,
       tracker_ok self ->
       Dict.get k (objects self) = Some p ->
       active_on camera_id p = true ->
       ~ In k (map fst (assigned_pairs self dets camera_id now)) ->
       exists p',
         Dict.get k (objects (update self dets camera_id now)) = Some p' /\
         centroid p' = centroid p /\ bbox p' = bbox p /\
         confidence p' = confidence p /\
         last_seen p' = last_seen p).
Proof.
  intros h.
  assert (ok : tracker_ok sample.one_person).
  { apply UpdateConsequences.update_ok. apply TableFacts.ok_init. }
  destruct (h sample.one_person [sample.det 600 600] "cam1"%string 7 1 _
              ok eq_refl eq_refl)
    as (p' & g & _ & _ & _ & l).
  - vm_compute. tauto.
  - vm_compute in g. injection g as <-. discriminate l.
Qed.

Lemma sample_one_person_ok : tracker_ok sample.one_person.
Proof.
  vm_compute. split; [discriminate|].
  split; [reflexivity | repeat constructor].
Defined.

Lemma unmatched_identity_frame_witness :
  exists p',
    Dict.get 1
      (objects (update sample.one_person [sample.det 600 600] "cam1" 7)) =
      Some p' /\
    centroid p' = (125, 150) /\ last_seen p' = 7.
Proof.
  assert (na : ~ In 1 (map fst (assigned_pairs sample.one_person
                                  [sample.det 600 600] "cam1" 7))).
  { vm_compute. tauto. }
  destruct (unmatched_identity_frame sample.one_person [sample.det 600 600]
              "cam1"%string 7 1 _ sample_one_person_ok eq_refl eq_refl na)
    as (p' & g & c & _ & _ & _ & _ & _ & _ & _ & l & _).
  exists p'. repeat split; assumption.
Defined.

End AtSample.

End TrackerClaims.

(* ------------------------------------------------------------------ *)
(** ** The tracking manager *)

Module ManagerFacts.

Import tracking_system observe.

Section General.
Context {numpy : np.Argsort} {python : tracking_system.SetIteration}
  {sqlite : database.Engine} {host : alert_manager.Host}.

(** The identification loop changes employee ids of active persons only. *)
Lemma identify_all_facts (identify : Frame -> BBox -> option string)
  (frame : Frame) ks :
  forall t,
    let t' :=
      fold_left
        (fun tracker tracking_id =>
           match Dict.get tracking_id (objects tracker) with
           | Some person =>
               if is_active person &&
                  match employee_id person with
                  | None => true
                  | Some _ => false
                  end
               then
                 let employee_id := identify frame (bbox person) in
                 if truthy employee_id
                 then set_employee_id tracker tracking_id
                        (match employee_id with
                         | Some e => e
                         | None => ""%string
                         end)
                 else tracker
               else tracker
           | None => tracker
           end) ks t in
    next_object_id t' = next_object_id t /\
    max_disappeared t' = max_disappeared t /\
    Dict.keys (objects t') = Dict.keys (objects t) /\
    (Forall keyed (objects t) -> Forall keyed (objects t')) /\
    forall k p,
      Dict.get k (objects t) = Some p -> is_active p = false ->
      Dict.get k (objects t') = Some p.
Proof.
  induction ks as [|k0 ks IH]; intros t; cbv zeta.
  - cbn [fold_left]. tauto.
  - cbn [fold_left].
    match goal with
    | |- context [fold_left ?f ks ?t1] => set (t1' := t1)
    end.
    specialize (IH t1'). cbv zeta in IH.
    destruct IH as (i1 & i2 & i3 & i4 & i5).
    assert (st : t1' = t \/
                 exists e p0,
                   Dict.get k0 (objects t) = Some p0 /\
                   is_active p0 = true /\
                   t1' = with_objects t
                           (Dict.modify k0 (set_employee e) (objects t))).
    { unfold t1'. destruct (Dict.get k0 (objects t)) as [p0|] eqn:g0;
        [|now left].
      destruct (is_active p0) eqn:a0; [|now left].
      destruct (employee_id p0); [now left|]. cbn [andb].
      destruct (truthy (identify frame (bbox p0))); [|now left].
      right. unfold set_employee_id, Dict.contains. rewrite g0.
      eexists _, p0. split; [reflexivity|]. split; [assumption|].
      reflexivity. }
    assert (s1 : next_object_id t1' = next_object_id t /\
                 max_disappeared t1' = max_disappeared t /\
                 Dict.keys (objects t1') = Dict.keys (objects t) /\
                 (Forall keyed (objects t) -> Forall keyed (objects t1')) /\
                 forall k p,
                   Dict.get k (objects t) = Some p -> is_active p = false ->
                   Dict.get k (objects t1') = Some p).
    { destruct st as [e | (e & p0 & g0 & a0 & e1)].
      - rewrite e. tauto.
      - rewrite e1. cbn [objects with_objects next_object_id max_disappeared].
        rewrite DictFacts.keys_modify.
        split; [reflexivity|]. split; [reflexivity|].
        split; [reflexivity|]. split.
        + intros fa. apply DictFacts.Forall_modify; [|assumption].
          now intros k1 v1.
        + intros k p g ia. rewrite DictFacts.get_modify.
          destruct (Dict.eqb_spec k k0) as [->|ne]; [|assumption].
          congruence. }
    destruct s1 as (j1 & j2 & j3 & j4 & j5).
    split; [congruence|]. split; [congruence|]. split; [congruence|].
    split; [tauto|].
    intros k p g ia. apply i5; [|assumption]. now apply j5.
Qed.

Lemma identify_all_spec (identify : Frame -> BBox -> option string)
  (frame : Frame) t :
  next_object_id (identify_all identify frame t) = next_object_id t /\
  max_disappeared (identify_all identify frame t) = max_disappeared t /\
  Dict.keys (objects (identify_all identify frame t)) =
    Dict.keys (objects t) /\
  (Forall keyed (objects t) ->
   Forall keyed (objects (identify_all identify frame t))) /\
  forall k p,
    Dict.get k (objects t) = Some p -> is_active p = false ->
    Dict.get k (objects (identify_all identify frame t)) = Some p.
Proof.
  exact (identify_all_facts identify frame (Dict.keys (objects t)) t).
Qed.

(** What one manager update does to each camera's tracker. *)
Lemma manager_update_facts self camera_id dets frame now :
  manager_ok self ->
  let self' := fst (manager_update self camera_id dets frame now) in
  manager_ok self' /\
  forall cam0 t,
    Dict.get cam0 (trackers self) = Some t ->
    exists t',
      Dict.get cam0 (trackers self') = Some t' /\
      next_object_id t <= next_object_id t' /\
      max_disappeared t' = max_disappeared t /\
      forall k p,
        Dict.get k (objects t) = Some p -> is_active p = false ->
        Dict.get k (objects t') = Some p.
Proof.
  intros ok. cbv zeta. unfold manager_update.
  destruct (get_tracker self camera_id) as [self1 tracker] eqn:gt.
  cbn [fst].
  set (tracker1 := update tracker dets camera_id now).
  match goal with
  | |- context [Dict.set camera_id ?t2 _] => set (tracker2 := t2)
  end.
  (* the tracker fetched is well formed and is the camera's, if it had one *)
  assert (oktr : tracker_ok tracker /\
                 (forall cam0, cam0 <> camera_id ->
                    Dict.get cam0 (trackers self1) =
                    Dict.get cam0 (trackers self)) /\
                 (forall t, Dict.get camera_id (trackers self) = Some t ->
                    t = tracker)).
  { unfold get_tracker in gt.
    destruct (Dict.get camera_id (trackers self)) as [t0|] eqn:g0;
      injection gt as <- <-.
    - split; [eapply ok; eauto|]. split; [reflexivity|]. congruence.
    - split; [apply TableFacts.ok_init|]. split; [|discriminate].
      intros cam0 ne. cbn [trackers with_trackers].
      rewrite DictFacts.get_set. now rewrite DictFacts.eqb_neq. }
  destruct oktr as (oktr & other & same).
  pose proof (UpdateConsequences.update_ok tracker dets camera_id now oktr)
    as ok1.
  pose proof (UpdateConsequences.update_fields tracker dets camera_id now oktr)
    as (f1 & _ & f3).
  assert (t2 : tracker_ok tracker2 /\
               next_object_id tracker2 = next_object_id tracker1 /\
               max_disappeared tracker2 = max_disappeared tracker1 /\
               forall k p,
                 Dict.get k (objects tracker1) = Some p ->
                 is_active p = false ->
                 Dict.get k (objects tracker2) = Some p).
  { unfold tracker2.
    destruct (face_recognition self1) as [identify|]; [|tauto].
    destruct frame as [fr|]; [|tauto].
    destruct (identify_all_spec identify fr tracker1)
      as (i1 & i2 & i3 & i4 & i5).
    cbv beta iota. split; [|tauto].
    destruct ok1 as (o1 & o2 & o3). unfold tracker_ok. rewrite i1, i3.
    split; [assumption|]. split; [assumption | now apply i4]. }
  destruct t2 as (ok2 & n2 & m2 & keep2).
  split.
  - intros cam0 t. cbn [trackers with_trackers]. rewrite DictFacts.get_set.
    destruct (Dict.eqb_spec cam0 camera_id) as [->|ne].
    + now intros [= <-].
    + rewrite other by assumption. apply ok.
  - intros cam0 t g. cbn [trackers with_trackers]. rewrite DictFacts.get_set.
    destruct (Dict.eqb_spec cam0 camera_id) as [->|ne].
    + exists tracker2. split; [reflexivity|].
      apply same in g. subst t. split; [rewrite n2; exact f3|].
      split; [rewrite m2; exact f1|].
      intros k p gk ia. apply keep2; [|assumption].
      apply UpdateConsequences.update_keeps_others; try assumption.
      now apply UpdateConsequences.inactive_not_active_on.
    + exists t. rewrite other by assumption.
      split; [assumption|]. split; [lia|]. split; [reflexivity|]. tauto.
Qed.

Lemma manager_run_facts calls :
  forall self,
    manager_ok self ->
    manager_ok (manager_run self calls) /\
    forall cam0 t,
      Dict.get cam0 (trackers self) = Some t ->
      exists t',
        Dict.get cam0 (trackers (manager_run self calls)) = Some t' /\
        next_object_id t <= next_object_id t' /\
        max_disappeared t' = max_disappeared t /\
        forall k p,
          Dict.get k (objects t) = Some p -> is_active p = false ->
          Dict.get k (objects t') = Some p.
Proof.
  induction calls as [|c calls IH]; intros self ok.
  - split; [assumption|]. intros cam0 t g. exists t.
    split; [assumption|]. split; [lia|]. split; [reflexivity|]. tauto.
  - cbn [manager_run fold_left].
    destruct (manager_update_facts self (call_camera c) (call_detections c)
                (call_frame c) (call_now c) ok) as (ok1 & step).
    destruct (IH _ ok1) as (ok' & rest).
    split; [exact ok'|].
    intros cam0 t g.
    destruct (step cam0 t g) as (t1 & g1 & n1 & m1 & k1).
    destruct (rest cam0 t1 g1) as (t2 & g2 & n2 & m2 & k2).
    exists t2. split; [exact g2|]. split; [lia|]. split; [congruence|].
    intros k p gk ia. apply k2; [|assumption]. now apply k1.
Qed.

Lemma manager_init_ok fr : manager_ok (manager_init fr).
Proof. intros cam t. discriminate. Qed.

Lemma ids_issued t :
  tracker_ok t ->
  map tracking_id (Dict.values (objects t)) = issued_ids (next_object_id t).
Proof.
  intros (_ & ek & fa). rewrite <- ek. unfold Dict.values, Dict.keys.
  rewrite map_map. apply map_ext_in. intros item i.
  rewrite Forall_forall in fa. now apply fa.
Qed.

Lemma issued_prefix n n' :
  1 <= n <= n' -> exists extra, issued_ids n' = issued_ids n ++ extra.
Proof.
  intros le. unfold issued_ids.
  replace (Z.to_nat (n' - 1))
    with (Z.to_nat (n - 1) + Z.to_nat (n' - n))%nat by lia.
  rewrite seq_app, map_app. eauto.
Qed.

Lemma issued_exact n :
  issued_ids n = map Z.of_nat (seq 1 (length (issued_ids n))).
Proof.
  unfold issued_ids. now rewrite length_map, length_seq.
Qed.

(** A person reported as newly left stays reported after any further
    updates: the test of [get_newly_left_persons] reads a counter that is
    frozen once the person is inactive. *)
Lemma newly_left_persists self camera_id p more :
  manager_ok self ->
  In p (snd (get_newly_left_persons self camera_id)) ->
  In p (snd (get_newly_left_persons (manager_run self more) camera_id)).
Proof.
  intros ok. unfold get_newly_left_persons, get_tracker.
  destruct (Dict.get camera_id (trackers self)) as [t|] eqn:g.
  - cbn [snd]. intros i. apply filter_In in i as [i c].
    destruct (manager_run_facts more self ok) as (ok' & grow).
    destruct (grow camera_id t g) as (t' & g' & _ & m' & keep).
    rewrite g'. cbn [snd]. apply filter_In. rewrite m'.
    split; [|exact c].
    unfold Dict.values in *. apply in_map_iff in i as ([k q] & e & i).
    simpl in e. subst q.
    assert (gk : Dict.get k (objects t) = Some p).
    { apply DictFacts.In_get; [|assumption].
      apply TableFacts.ok_NoDup. eapply ok; eauto. }
    assert (ia : is_active p = false).
    { apply andb_true_iff in c as [c _]. apply andb_true_iff in c as [c _].
      now apply negb_true_iff in c. }
    apply in_map_iff. exists (k, p). split; [reflexivity|].
    apply DictFacts.get_In. now apply keep.
  - simpl. tauto.
Qed.

End General.

End ManagerFacts.

Module ManagerClaims.

Import tracking_system observe.

Section General.
Context {numpy : np.Argsort} {python : tracking_system.SetIteration}
  {sqlite : database.Engine} {host : alert_manager.Host}.

(** C2, amended: tracking ids are unique and never reused within each
    camera's tracker.  After any sequence of manager updates, the ids held
    for a camera are pairwise distinct and are exactly 1, 2, ..., n in order
    of creation, whatever happened on other cameras; and any further updates
    only extend that list, so an id once issued on a camera stays taken
    there. *)
Theorem tracking_ids_unique_per_camera :
  forall face_recognition_engine calls camera_id,
    let m := manager_run (manager_init face_recognition_engine) calls in
    NoDup (ids_of m camera_id) /\
    ids_of m camera_id =
      map Z.of_nat (seq 1 (length (ids_of m camera_id))) /\
    forall more,
      exists extra,
        ids_of (manager_run m more) camera_id = ids_of m camera_id ++ extra.
Proof.
  intros fr calls camera_id. cbv zeta.
  destruct (ManagerFacts.manager_run_facts calls (manager_init fr)
              (ManagerFacts.manager_init_ok fr)) as (ok & _).
  set (m := manager_run (manager_init fr) calls) in *.
  unfold ids_of at 1 2 3.
  destruct (Dict.get camera_id (trackers m)) as [t|] eqn:g.
  - pose proof (ok camera_id t g) as okt.
    rewrite (ManagerFacts.ids_issued t okt).
    split; [apply TableFacts.issued_ids_NoDup|].
    split; [apply ManagerFacts.issued_exact|].
    intros more.
    destruct (ManagerFacts.manager_run_facts more m ok) as (ok' & grow).
    destruct (grow camera_id t g) as (t' & g' & le & _).
    unfold ids_of. rewrite g, g'.
    rewrite (ManagerFacts.ids_issued t okt).
    rewrite (ManagerFacts.ids_issued t' (ok' camera_id t' g')).
    apply ManagerFacts.issued_prefix. destruct okt as (l1 & _). lia.
  - split; [constructor|]. split; [reflexivity|].
    intros more. unfold ids_of at 2. rewrite g. simpl. eauto.
Qed.

End General.

(** On the samples: the insertion sort for [argsort], sets visited in
    ascending order, rows of equal entry time in table order, and a host on
    which nothing fails. *)
Section AtSample.
Existing Instance np.stable.
Existing Instance tracking_system.ascending.
Existing Instance database.table_order.
Existing Instance alert_manager.reliable.

(** C2, as stated, fails: tracking ids are not unique across cameras.  After
    one update with one detection on [cam1] and one on [cam2], both cameras
    hold an identity with tracking id 1. *)
Lemma two_cameras_share_a_tracking_id :
  ~ (forall calls cam1 cam2 id,
       cam1 <> cam2 ->
       In id (ids_of (manager_run (manager_init None) calls) cam1) ->
       ~ In id (ids_of (manager_run (manager_init None) calls) cam2)).
Proof.
  intros h.
  apply (h [sample.call "cam1" [sample.det 125 150] 0;
            sample.call "cam2" [sample.det 125 150] 1]
           "cam1"%string "cam2"%string 1).
  - discriminate.
  - vm_compute. tauto.
  - vm_compute. tauto.
Qed.

(** C3: the code does not do what the claim (and the docstring of
    [get_newly_left_persons], "persons who just became inactive") says.
    With the configured tolerance of 30 frames, a person seen once on [cam1]
    and then missing for 31 frames is returned by [get_newly_left_persons]
    after the 31st empty update -- and is returned again after each later
    update, with or without detections. *)
Theorem departure_is_reported_again_after_later_updates :
  let m := sample.manager_after_departure in
  let m1 := manager_run m [sample.call "cam1" [] 32] in
  let m2 := manager_run m1 [sample.call "cam1" [sample.det 400 300] 33] in
  map tracking_id (snd (get_newly_left_persons m "cam1")) = [1] /\
  map tracking_id (snd (get_newly_left_persons m1 "cam1")) = [1] /\
  map tracking_id (snd (get_newly_left_persons m2 "cam1")) = [1].
Proof.
  vm_compute. repeat split.
Qed.

End AtSample.

End ManagerClaims.

(* ------------------------------------------------------------------ *)
(** ** [argmin], [min] and [argsort] *)

Module NpFacts.

Import observe.

(** Scanning the tail [l] of [pre ++ l] with the best of [pre] in hand. *)
Lemma argmin_from_spec l :
  forall pre best_i best,
    (best_i < length pre)%nat ->
    nth best_i pre 0 = best ->
    (forall j, (j < length pre)%nat -> best <= nth j pre 0) ->
    (forall j, (j < best_i)%nat -> best < nth j pre 0) ->
    let c := np.argmin_from best_i best (length pre) l in
    let full := pre ++ l in
    (c < length full)%nat /\
    nth c full 0 = np.min_from best l /\
    (forall j, (j < length full)%nat -> nth c full 0 <= nth j full 0) /\
    (forall j, (j < c)%nat -> nth c full 0 < nth j full 0).
Proof.
  induction l as [|x r IH]; intros pre best_i best lt eb lo first; cbv zeta.
  - cbn [np.argmin_from np.min_from]. rewrite app_nil_r.
    repeat split; try assumption.
    + intros j lj. rewrite eb. now apply lo.
    + intros j lj. rewrite eb. now apply first.
  - cbn [np.argmin_from np.min_from].
    assert (shape : pre ++ x :: r = (pre ++ [x]) ++ r)
      by now rewrite <- app_assoc.
    assert (len : length (pre ++ [x]) = S (length pre))
      by (rewrite length_app; simpl; lia).
    assert (last : nth (length pre) (pre ++ [x]) 0 = x).
    { rewrite app_nth2 by lia. now rewrite Nat.sub_diag. }
    assert (same : forall j, (j < length pre)%nat ->
                     nth j (pre ++ [x]) 0 = nth j pre 0).
    { intros j lj. now apply app_nth1. }
    destruct (Z.ltb_spec x best) as [better|worse].
    + specialize (IH (pre ++ [x]) (length pre) x).
      rewrite len in IH. rewrite shape. apply IH.
      * lia.
      * exact last.
      * intros j lj. destruct (Nat.eq_dec j (length pre)) as [->|ne].
        -- rewrite last. lia.
        -- rewrite same by lia. specialize (lo j). lia.
      * intros j lj. rewrite same by lia. specialize (lo j). lia.
    + specialize (IH (pre ++ [x]) best_i best).
      rewrite len in IH. rewrite shape. apply IH.
      * lia.
      * now rewrite same.
      * intros j lj. destruct (Nat.eq_dec j (length pre)) as [->|ne].
        -- now rewrite last.
        -- rewrite same by lia. apply lo. lia.
      * intros j lj. rewrite same by lia. now apply first.
Qed.

(** [argmin] is the first position holding the least entry, and [min] is
    that entry. *)
Lemma argmin_spec l :
  l <> [] ->
  (np.argmin l < length l)%nat /\
  nth (np.argmin l) l 0 = np.min l /\
  (forall j, (j < length l)%nat -> nth (np.argmin l) l 0 <= nth j l 0) /\
  (forall j, (j < np.argmin l)%nat -> nth (np.argmin l) l 0 < nth j l 0).
Proof.
  destruct l as [|x r]; [congruence|]. intros _.
  unfold np.argmin, np.min.
  apply (argmin_from_spec r [x] 0%nat x).
  - simpl. lia.
  - reflexivity.
  - intros [|j] lj; simpl in *; lia.
  - intros j lj. lia.
Qed.

Lemma row_before_asym v i j : row_before v i j -> row_before v j i -> False.
Proof. unfold row_before. lia. Qed.

Lemma row_before_trans v i j k :
  row_before v i j -> row_before v j k -> row_before v i k.
Proof. unfold row_before. lia. Qed.

Lemma row_before_le v i j : row_before v i j -> nth i v 0 <= nth j v 0.
Proof. unfold row_before. lia. Qed.

Lemma insert_In v i l x : In x (np.insert_index v i l) <-> x = i \/ In x l.
Proof.
  induction l as [|j r IH]; simpl.
  - intuition.
  - destruct (nth i v 0 <=? nth j v 0); simpl; [intuition|].
    rewrite IH. intuition.
Qed.

Lemma insert_sorted v i l :
  StronglySorted (row_before v) l ->
  (forall j, In j l -> (i < j)%nat) ->
  StronglySorted (row_before v) (np.insert_index v i l).
Proof.
  induction 1 as [|j r ss IH fa]; intros gt; simpl.
  - repeat constructor.
  - rewrite Forall_forall in fa.
    destruct (Z.leb_spec (nth i v 0) (nth j v 0)) as [le|lt].
    + assert (bij : row_before v i j).
      { unfold row_before. specialize (gt j (or_introl eq_refl)). lia. }
      constructor; [now constructor; [|apply Forall_forall]|].
      apply Forall_forall. intros x [<-|ix]; [assumption|].
      eapply row_before_trans; eauto.
    + constructor.
      * apply IH. intros x ix. apply gt. now right.
      * apply Forall_forall. intros x ix. apply insert_In in ix as [->|ix].
        -- unfold row_before. lia.
        -- now apply fa.
Qed.

Lemma argsort_from v n :
  forall s,
    StronglySorted (row_before v)
      (fold_right (np.insert_index v) [] (seq s n)) /\
    forall x, In x (fold_right (np.insert_index v) [] (seq s n)) <->
              In x (seq s n).
Proof.
  induction n as [|n IH]; intros s; simpl.
  - split; [constructor | tauto].
  - destruct (IH (S s)) as [ss mem]. split.
    + apply insert_sorted; [assumption|].
      intros j ij. apply mem in ij. apply in_seq in ij. lia.
    + intros x. rewrite insert_In, mem. intuition.
Qed.

Lemma argsort_sorted v : StronglySorted (row_before v) (np.stable_argsort v).
Proof. apply (argsort_from v (length v) 0). Qed.

Lemma argsort_In v x : In x (np.stable_argsort v) <-> (x < length v)%nat.
Proof.
  unfold np.stable_argsort. rewrite (proj2 (argsort_from v (length v) 0%nat)).
  rewrite in_seq. lia.
Qed.

Lemma sorted_split {A} (R : A -> A -> Prop) pre x post :
  StronglySorted R (pre ++ x :: post) ->
  (forall y, In y pre -> R y x) /\ (forall y, In y post -> R x y).
Proof.
  induction pre as [|a pre IH]; simpl; intros ss.
  - inversion ss as [|? ? _ fa]; subst. rewrite Forall_forall in fa.
    split; [tauto | assumption].
  - inversion ss as [|? ? ss' fa]; subst. rewrite Forall_forall in fa.
    destruct (IH ss') as [h1 h2]. split; [|assumption].
    intros y [<-|iy]; [|auto]. apply fa. apply in_or_app. right. now left.
Qed.

Lemma sorted_NoDup v l : StronglySorted (row_before v) l -> NoDup l.
Proof.
  induction 1 as [|x r ss IH fa]; constructor; [|assumption].
  intros i. rewrite Forall_forall in fa. specialize (fa x i).
  unfold row_before in fa. lia.
Qed.

Lemma sorted_impl {A} (R R' : A -> A -> Prop) l :
  (forall x y, R x y -> R' x y) ->
  StronglySorted R l -> StronglySorted R' l.
Proof.
  intros imp. induction 1 as [|x r ss IH fa]; constructor; [assumption|].
  eapply Forall_impl; [|exact fa]. intros y. apply imp.
Qed.

(** The insertion sort is one of the functions [argsort] may be. *)
Lemma stable_sorts : np.sorts np.stable.
Proof.
  intros v. cbn [np.argsort np.stable]. split.
  - apply NoDup_Permutation.
    + eapply sorted_NoDup. apply argsort_sorted.
    + apply seq_NoDup.
    + intros x. rewrite argsort_In, in_seq. lia.
  - eapply sorted_impl; [|apply argsort_sorted].
    intros x y. apply row_before_le.
Qed.

(** What is known of any such function. *)
Lemma sorts_In numpy v x :
  np.sorts numpy -> (In x (@np.argsort numpy v) <-> (x < length v)%nat).
Proof.
  intros ok. destruct (ok v) as [perm _]. split.
  - intros i. apply (Permutation_in _ perm) in i. apply in_seq in i. lia.
  - intros lt. apply (Permutation_in _ (Permutation_sym perm)).
    apply in_seq. lia.
Qed.

Lemma sorts_NoDup numpy v : np.sorts numpy -> NoDup (@np.argsort numpy v).
Proof.
  intros ok. destruct (ok v) as [perm _].
  apply (Permutation_NoDup (Permutation_sym perm)). apply seq_NoDup.
Qed.

Lemma NoDup_app_apart {A} (p q : list A) y :
  NoDup (p ++ q) -> In y p -> In y q -> False.
Proof.
  induction p as [|a p IH]; simpl; intros nd ip iq; [contradiction|].
  inversion nd as [|? ? ni nd']; subst.
  destruct ip as [->|ip]; [|eauto].
  apply ni. apply in_or_app. now right.
Qed.

(** In a listing without repetition an entry splits it in one way. *)
Lemma split_unique {A} (x : A) p1 :
  forall p2 q1 q2,
    NoDup (p1 ++ x :: q1) ->
    p1 ++ x :: q1 = p2 ++ x :: q2 ->
    p1 = p2 /\ q1 = q2.
Proof.
  induction p1 as [|a p1 IH]; intros [|b p2] q1 q2 nd e; simpl in *.
  - injection e as <-. now split.
  - injection e as <- ->. inversion nd as [|? ? ni _]; subst.
    exfalso. apply ni. apply in_or_app. right. now left.
  - injection e as -> <-. inversion nd as [|? ? ni _]; subst.
    exfalso. apply ni. apply in_or_app. right. now left.
  - injection e as <- e. inversion nd as [|? ? _ nd']; subst.
    destruct (IH p2 q1 q2 nd' e) as [-> ->]. now split.
Qed.

Lemma listed_before_split l pre x post y :
  NoDup l -> l = pre ++ x :: post ->
  (listed_before l x y <-> In y post).
Proof.
  intros nd e. split.
  - intros (pre' & post' & e' & i). rewrite e in nd, e'.
    destruct (split_unique x pre pre' post post' nd e') as [_ ->].
    exact i.
  - intros i. now exists pre, post.
Qed.

(** A valid listing puts smaller values first. *)
Lemma sorts_order numpy v :
  np.sorts numpy ->
  (forall i j, listed_before (@np.argsort numpy v) i j ->
               nth i v 0 <= nth j v 0) /\
  (forall i j, (i < length v)%nat -> (j < length v)%nat ->
               nth i v 0 < nth j v 0 ->
               listed_before (@np.argsort numpy v) i j).
Proof.
  intros ok. pose proof (sorts_NoDup numpy v ok) as nd.
  destruct (ok v) as [_ ss]. split.
  - intros i j (pre & post & e & ij). rewrite e in ss.
    destruct (sorted_split _ pre i post ss) as [_ after]. now apply after.
  - intros i j li lj lt.
    assert (ii : In i (@np.argsort numpy v)) by now apply sorts_In.
    assert (ij : In j (@np.argsort numpy v)) by now apply sorts_In.
    apply in_split in ii as (pre & post & e).
    exists pre, post. split; [exact e|].
    rewrite e in ij, ss.
    destruct (sorted_split _ pre i post ss) as [before _].
    apply in_app_or in ij as [ij | [ij | ij]].
    + specialize (before j ij). simpl in before. lia.
    + subst j. lia.
    + exact ij.
Qed.

End NpFacts.

(* ------------------------------------------------------------------ *)
(** ** Which pairs the matching loop assigns *)

Module AssignmentFacts.

Import tracking_system observe.

Section General.
Context {numpy : np.Argsort} {python : tracking_system.SetIteration}
  {sqlite : database.Engine} {host : alert_manager.Host}.

(** One iteration on a fresh row with valid indices: why it skips, or that
    it assigns. *)
Lemma match_step_reasons D object_ids dets now st row col :
  ~ In row (used_rows st) ->
  nth_error object_ids row <> None ->
  nth_error dets col <> None ->
  let st1 := match_step D object_ids dets now st (row, col) in
  ((In col (used_cols st) \/
    too_far D row col (max_distance (ms_self st)) = true) /\ st1 = st) \/
  (~ In col (used_cols st) /\
   too_far D row col (max_distance (ms_self st)) = false /\
   used_rows st1 = row :: used_rows st /\
   used_cols st1 = col :: used_cols st /\
   max_distance (ms_self st1) = max_distance (ms_self st)).
Proof.
  intros nr er ec. cbv zeta. unfold match_step.
  apply LoopFacts.mem_not_In in nr. rewrite nr. cbn [orb].
  destruct (mem col (used_cols st)) eqn:mc.
  - left. split; [|reflexivity]. left. now apply LoopFacts.mem_In.
  - apply LoopFacts.mem_not_In in mc.
    destruct (too_far D row col (max_distance (ms_self st))) eqn:tf.
    + left. split; [now right | reflexivity].
    + destruct (nth_error object_ids row); [|congruence].
      destruct (nth_error dets col); [|congruence].
      right. repeat split; assumption.
Qed.

(** The pairs assigned by a run of the loop over rows not used before. *)
Lemma loop_pairs D object_ids dets now pairs :
  forall st,
    NoDup (map fst pairs) ->
    (forall r c, In (r, c) pairs ->
       ~ In r (used_rows st) /\
       nth_error object_ids r <> None /\ nth_error dets c <> None) ->
    let st' := fold_left (match_step D object_ids dets now) pairs st in
    forall r c,
      In (r, c) (combine (used_rows st') (used_cols st')) <->
      In (r, c) (combine (used_rows st) (used_cols st)) \/
      exists pre post,
        pairs = pre ++ (r, c) :: post /\
        too_far D r c (max_distance (ms_self st)) = false /\
        ~ In c (used_cols st) /\
        forall r' c', In (r', c') pre -> c' = c ->
          too_far D r' c' (max_distance (ms_self st)) = true.
Proof.
  induction pairs as [|[r0 c0] pairs IH]; intros st nd valid; cbv zeta.
  - cbn [fold_left]. intros r c. split; [tauto|].
    intros [h | (pre & post & e & _)]; [assumption|].
    destruct pre; discriminate e.
  - cbn [fold_left]. intros r c.
    inversion nd as [|? ? ni nd']; subst.
    destruct (valid r0 c0 (or_introl eq_refl)) as (v1 & v2 & v3).
    destruct (match_step_reasons D object_ids dets now st r0 c0 v1 v2 v3)
      as [(why & e) | (nc & tf & er & ec & em)].
    + (* skipped *)
      rewrite e. rewrite (IH st nd').
      * split.
        -- intros [h | (pre & post & ep & t1 & t2 & t3)]; [now left|].
           right. exists ((r0, c0) :: pre), post. rewrite ep.
           split; [reflexivity|]. split; [assumption|]. split; [assumption|].
           intros r' c' [[= <- <-] | i] ec'; [|eauto].
           destruct why as [w|w]; [|assumption]. subst. contradiction.
        -- intros [h | (pre & post & ep & t1 & t2 & t3)]; [now left|].
           right. destruct pre as [|q pre].
           ++ injection ep as <- <- <-.
              destruct why as [w|w]; [contradiction | congruence].
           ++ injection ep as <- ->. exists pre, post.
              split; [reflexivity|]. split; [assumption|].
              split; [assumption|]. intros r' c' i. apply t3. now right.
      * intros r' c' i. apply valid. now right.
    + (* assigned *)
      set (st1 := match_step D object_ids dets now st (r0, c0)) in *.
      assert (valid1 : forall r' c', In (r', c') pairs ->
                ~ In r' (used_rows st1) /\
                nth_error object_ids r' <> None /\
                nth_error dets c' <> None).
      { intros r' c' i.
        destruct (valid r' c' (or_intror i)) as (w1 & w2 & w3).
        split; [|tauto]. rewrite er. intros [<-|h]; [|contradiction].
        apply ni. change r0 with (fst (r0, c')). now apply in_map. }
      rewrite (IH st1 nd' valid1). rewrite er, ec, em. cbn [combine].
      split.
      * intros [[h | h] | (pre & post & ep & t1 & t2 & t3)].
        -- injection h as <- <-. right. exists [], pairs.
           split; [reflexivity|]. split; [assumption|].
           split; [assumption|]. intros r' c' [].
        -- now left.
        -- right. exists ((r0, c0) :: pre), post. rewrite ep.
           split; [reflexivity|]. split; [assumption|].
           split; [intros h; apply t2; now right|].
           intros r' c' [[= <- <-] | i] ec'; [|eauto].
           exfalso. apply t2. now left.
      * intros [h | (pre & post & ep & t1 & t2 & t3)].
        -- left. now right.
        -- destruct pre as [|q pre].
           ++ injection ep as <- <- <-. left. now left.
           ++ injection ep as <- ->. right. exists pre, post.
              split; [reflexivity|]. split; [assumption|]. split.
              ** intros [<-|h]; [|contradiction].
                 specialize (t3 r0 c0 (or_introl eq_refl) eq_refl).
                 congruence.
              ** intros r' c' i. apply t3. now right.
Qed.

Lemma combine_map_self {A B} (f : A -> B) l :
  combine l (map f l) = map (fun x => (x, f x)) l.
Proof. induction l; simpl; congruence. Qed.

Lemma map_split_at {A B} (f : A -> B) l pre y post :
  map f l = pre ++ y :: post ->
  exists lpre x lpost,
    l = lpre ++ x :: lpost /\ pre = map f lpre /\ y = f x /\
    post = map f lpost.
Proof.
  revert pre. induction l as [|a l IH]; intros [|b pre]; simpl; intros e;
    try discriminate.
  - injection e as <- <-. exists [], a, l. auto.
  - injection e as <- e. destruct (IH pre e) as (lpre & x & lpost & h).
    exists (a :: lpre), x, lpost. simpl. intuition congruence.
Qed.

Lemma row_of_matrix self dets camera_id r :
  (r < length (distance_matrix self dets camera_id))%nat ->
  length (nth r (distance_matrix self dets camera_id) []) = length dets.
Proof.
  unfold distance_matrix, np.cdist. intros lt.
  rewrite length_map in lt.
  rewrite (nth_indep _ []
             (map (np.sq_dist (0, 0)) (map detection_engine.center dets)))
    by now rewrite length_map.
  rewrite (map_nth (fun x => map (np.sq_dist x)
                                (map detection_engine.center dets))).
  now rewrite !length_map.
Qed.

Lemma nth_argmin_axis1 D r :
  nth r (np.argmin_axis1 D) 0%nat = np.argmin (nth r D []).
Proof. unfold np.argmin_axis1. apply (map_nth np.argmin D [] r). Qed.

Lemma nth_min_axis1 D r : nth r (np.min_axis1 D) 0 = np.min (nth r D []).
Proof. unfold np.min_axis1. apply (map_nth np.min D [] r). Qed.

Lemma too_far_mono D r c r' c' m :
  np.at2 D r' c' <= np.at2 D r c ->
  too_far D r c m = false -> too_far D r' c' m = false.
Proof.
  unfold too_far. intros le h. apply orb_false_iff in h as [h1 h2].
  rewrite h1. cbn [orb]. apply Z.ltb_ge. apply Z.ltb_ge in h2. lia.
Qed.

(** The rows and columns assigned by [match_loop], characterised, whatever
    order [argsort] gives to rows of equal nearest distance. *)
Lemma assigned_rows_cols self dets camera_id now :
  np.sorts numpy ->
  dets <> [] ->
  let D := distance_matrix self dets camera_id in
  let st := match_loop self dets camera_id now in
  forall r c,
    In (r, c) (combine (used_rows st) (used_cols st)) <->
    (r < length D)%nat /\
    c = np.argmin (nth r D []) /\
    too_far D r c (max_distance self) = false /\
    forall r', (r' < length D)%nat -> r' <> r ->
      np.argmin (nth r' D []) = c ->
      listed_before (np.argsort (np.min_axis1 D)) r r'.
Proof.
  intros valid ne D st r c.
  set (v := np.min_axis1 D).
  set (rows := np.argsort v).
  set (a := fun r => nth r (np.argmin_axis1 D) 0%nat).
  set (object_ids := Dict.keys (active_objects self camera_id)).
  assert (order : match_order D = map (fun r => (r, a r)) rows).
  { unfold match_order. cbv zeta. fold v. fold rows.
    apply (combine_map_self a rows). }
  assert (lv : length v = length D) by (unfold v, np.min_axis1; apply length_map).
  assert (ss : StronglySorted (fun i j => nth i v 0 <= nth j v 0) rows)
    by apply valid.
  assert (ndr : NoDup rows) by now apply NpFacts.sorts_NoDup.
  assert (inr : forall x, In x rows <-> (x < length D)%nat).
  { intros x. unfold rows. rewrite NpFacts.sorts_In by assumption.
    now rewrite lv. }
  assert (row_ne : forall x, (x < length D)%nat -> nth x D [] <> []).
  { intros x lx e. apply (f_equal (@length Z)) in e.
    unfold D in e. rewrite row_of_matrix in e by assumption.
    destruct dets; [congruence | discriminate e]. }
  assert (near : forall x, (x < length D)%nat ->
                   np.at2 D x (a x) = nth x v 0 /\ (a x < length dets)%nat).
  { intros x lx. unfold np.at2, a, v.
    rewrite nth_argmin_axis1, nth_min_axis1.
    destruct (NpFacts.argmin_spec (nth x D []) (row_ne x lx)) as (b1 & b2 & _).
    split; [exact b2|]. unfold D in b1 |- *.
    now rewrite row_of_matrix in b1. }
  pose proof (loop_pairs D object_ids dets now (match_order D)
                {| ms_self := self; used_rows := []; used_cols := [] |})
    as lp.
  cbv zeta in lp.
  change (fold_left (match_step D object_ids dets now) (match_order D)
            {| ms_self := self; used_rows := []; used_cols := [] |})
    with st in lp.
  cbn [ms_self used_rows used_cols combine] in lp.
  rewrite lp; clear lp.
  - rewrite order. split.
    + intros [[] | (pre & post & e & tf & _ & first)].
      apply map_split_at in e
        as (rpre & x & rpost & erows & epre & ex & epost).
      injection ex as <- ->.
      assert (ir : In r rows)
        by (rewrite erows; apply in_or_app; right; now left).
      apply inr in ir.
      destruct (NpFacts.sorted_split
                  (fun i j => nth i v 0 <= nth j v 0) rpre r rpost)
        as [b1 b2]; [rewrite <- erows; exact ss|].
      split; [assumption|].
      split; [unfold a; apply nth_argmin_axis1|].
      split; [assumption|].
      intros r' lr' ner ea.
      assert (ir' : In r' rows) by now apply inr.
      rewrite erows in ir'. apply in_app_or in ir' as [ip | [e | ip]].
      * exfalso.
        assert (t : too_far D r' (a r') (max_distance self) = true).
        { apply first; [|unfold a; now rewrite nth_argmin_axis1].
          rewrite epre. apply in_map_iff. exists r'. split; auto. }
        rewrite (too_far_mono D r (a r) r' (a r')) in t;
          [discriminate | | assumption].
        destruct (near r ir) as [n1 _]. destruct (near r' lr') as [n2 _].
        rewrite n1, n2. now apply b1.
      * congruence.
      * exists rpre, rpost. split; assumption.
    + intros (lr & ec & tf & first).
      right. assert (ir : In r rows) by now apply inr.
      apply in_split in ir as (rpre & rpost & erows).
      exists (map (fun r => (r, a r)) rpre), (map (fun r => (r, a r)) rpost).
      assert (ea : a r = c) by (unfold a; now rewrite nth_argmin_axis1).
      split; [rewrite erows, map_app; simpl; now rewrite ea|].
      split; [assumption|]. split; [tauto|].
      intros r' c' i ec'. exfalso.
      apply in_map_iff in i as (x & ex & ix). injection ex as -> <-.
      assert (ix' : In r' rows)
        by (rewrite erows; apply in_or_app; now left).
      assert (ne' : r' <> r).
      { intros ->. rewrite erows in ndr.
        apply NoDup_remove_2 in ndr. apply ndr. apply in_or_app. now left. }
      assert (after : In r' rpost).
      { apply (NpFacts.listed_before_split rows rpre r rpost r' ndr erows).
        apply first; try assumption; [now apply inr|].
        unfold a in ec'. now rewrite nth_argmin_axis1 in ec'. }
      rewrite erows in ndr.
      apply (NpFacts.NoDup_app_apart rpre (r :: rpost) r' ndr ix).
      now right.
  - rewrite order. rewrite map_map. simpl. now rewrite map_id.
  - rewrite order. intros r' c' i.
    apply in_map_iff in i as (x & ex & ix). injection ex as -> <-.
    apply inr in ix. split; [tauto|]. split.
    + apply nth_error_Some. unfold object_ids.
      unfold D in ix. now rewrite UpdateFacts.length_distance_matrix in ix.
    + apply nth_error_Some. now apply near.
Qed.

End General.

End AssignmentFacts.

Module AssignmentClaims.

Import tracking_system observe.

Section General.
Context {numpy : np.Argsort} {python : tracking_system.SetIteration}
  {sqlite : database.Engine} {host : alert_manager.Host}.

(** C1, amended: each active identity competes only for its nearest
    detection.  With a non-empty set of active identities and a non-empty
    detection list, identity [k] (row [r] of the distance matrix) is
    assigned detection [c] exactly when [c] is the detection nearest to [k]
    (the first in input order among equally near ones), its distance is at
    most [max_distance], and [k] stands first, in the listing [argsort]
    gives of the identities by nearest distance, among the active identities
    whose nearest detection is [c].  That listing puts a smaller nearest
    distance first; among identities at equal nearest distance it is as
    numpy's unstable sort leaves it.  An identity whose nearest detection
    is taken gets no second choice. *)
Theorem update_assigns_only_nearest_detections :
  forall self dets camera_id now,
    np.sorts numpy ->
    active_objects self camera_id <> [] ->
    dets <> [] ->
    let D := distance_matrix self dets camera_id in
    let object_ids := Dict.keys (active_objects self camera_id) in
    let rows := np.argsort (np.min_axis1 D) in
    (forall k c,
       In (k, c) (assigned_pairs self dets camera_id now) <->
       exists r,
         nth_error object_ids r = Some k /\
         c = np.argmin (nth r D []) /\
         too_far D r c (max_distance self) = false /\
         forall r', (r' < length D)%nat -> r' <> r ->
           np.argmin (nth r' D []) = c ->
           listed_before rows r r') /\
    (forall r r',
       (r < length D)%nat -> (r' < length D)%nat ->
       nth r (np.min_axis1 D) 0 < nth r' (np.min_axis1 D) 0 ->
       listed_before rows r r') /\
    (forall r r',
       listed_before rows r r' ->
       nth r (np.min_axis1 D) 0 <= nth r' (np.min_axis1 D) 0) /\
    (forall r,
       (r < length D)%nat ->
       let c := np.argmin (nth r D []) in
       (c < length dets)%nat /\
       np.at2 D r c = nth r (np.min_axis1 D) 0 /\
       (forall j, (j < length dets)%nat -> np.at2 D r c <= np.at2 D r j) /\
       (forall j, (j < c)%nat -> np.at2 D r c < np.at2 D r j)).
Proof.
  intros self dets camera_id now valid na nd D object_ids rows.
  assert (lD : length D = length object_ids)
    by apply UpdateFacts.length_distance_matrix.
  assert (lv : length (np.min_axis1 D) = length D)
    by (unfold np.min_axis1; apply length_map).
  destruct (NpFacts.sorts_order numpy (np.min_axis1 D) valid) as [le lt].
  split; [|split; [|split]].
  - intros k c. unfold assigned_pairs.
    destruct dets as [|d ds]; [congruence|].
    destruct (length (active_objects self camera_id) =? 0)%nat eqn:el.
    { apply Nat.eqb_eq in el.
      destruct (active_objects self camera_id); [congruence | discriminate]. }
    fold object_ids.
    pose proof (AssignmentFacts.assigned_rows_cols self (d :: ds) camera_id
                  now valid nd) as rc.
    cbv zeta in rc. fold D in rc. fold rows in rc.
    rewrite in_map_iff. split.
    + intros ([r c'] & e & i). injection e as <- ->.
      apply in_rev in i. apply rc in i as (lr & i).
      exists r. split; [|exact i].
      apply nth_error_nth'. lia.
    + intros (r & er & i). exists (r, c). split.
      * simpl. f_equal. now apply nth_error_nth.
      * apply -> in_rev. apply rc. split; [|exact i].
        rewrite lD. apply nth_error_Some. congruence.
  - intros r r' lr lr'. apply lt; now rewrite lv.
  - exact le.
  - intros r lr. cbv zeta.
    assert (row_ne : nth r D [] <> []).
    { intros e. apply (f_equal (@length Z)) in e. unfold D in e.
      rewrite AssignmentFacts.row_of_matrix in e by assumption.
      destruct dets; [congruence | discriminate e]. }
    destruct (NpFacts.argmin_spec (nth r D []) row_ne) as (b1 & b2 & b3 & b4).
    assert (lrow : length (nth r D []) = length dets)
      by (unfold D; now apply AssignmentFacts.row_of_matrix).
    rewrite lrow in b1, b3. unfold np.at2.
    rewrite AssignmentFacts.nth_min_axis1.
    repeat split; assumption.
Qed.

End General.

(** On the samples: the insertion sort for [argsort], sets visited in
    ascending order, rows of equal entry time in table order, and a host on
    which nothing fails. *)
Section AtSample.
Existing Instance np.stable.
Existing Instance tracking_system.ascending.
Existing Instance database.table_order.
Existing Instance alert_manager.reliable.

(** C1, as stated, fails: the update does not compute the global greedy
    assignment.  Two persons at (0,0) and (0,10), detections at (0,1) and
    (0,30): the greedy assignment of the specification gives person 1 the
    first detection and person 2 the second (distance 20, within 50); the
    update gives person 1 the first detection and leaves person 2 unmatched,
    because person 2's nearest detection is the first one, already taken. *)
Lemma update_is_not_the_global_greedy :
  ~ (forall self dets camera_id now,
       active_objects self camera_id <> [] ->
       dets <> [] ->
       same_pairs (assigned_pairs self dets camera_id now)
                  (reference.greedy_pairs self dets camera_id)).
Proof.
  intros h.
  assert (i : In (2, 1%nat)
                (reference.greedy_pairs sample.two_close
                   [sample.det 0 1; sample.det 0 30] "cam1")).
  { vm_compute. tauto. }
  apply (h sample.two_close [sample.det 0 1; sample.det 0 30]
           "cam1"%string 1) in i.
  - vm_compute in i. destruct i as [e | []]. discriminate e.
  - discriminate.
  - discriminate.
Qed.

(** The table after the update above: person 1 moved to (0,1), person 2
    unmatched with one miss counted, and the detection at (0,30) registered
    as person 3. *)
Lemma two_close_after_update :
  map (fun item => (fst item, centroid (snd item),
                    disappeared_frames (snd item)))
    (objects (update sample.two_close [sample.det 0 1; sample.det 0 30]
                "cam1" 1)) =
  [(1, (0, 1), 0); (2, (0, 10), 1); (3, (0, 30), 0)].
Proof. vm_compute. reflexivity. Qed.

Lemma update_assigns_only_nearest_detections_witness :
  exists r,
    nth_error (Dict.keys (active_objects sample.two_close "cam1")) r = Some 1
    /\ 0%nat =
       np.argmin
         (nth r (distance_matrix sample.two_close
                   [sample.det 0 1; sample.det 0 30] "cam1") []).
Proof.
  assert (na : active_objects sample.two_close "cam1" <> []) by discriminate.
  assert (nd : [sample.det 0 1; sample.det 0 30] <> []) by discriminate.
  assert (i : In (1, 0%nat)
                (assigned_pairs sample.two_close
                   [sample.det 0 1; sample.det 0 30] "cam1" 1)).
  { vm_compute. tauto. }
  apply (proj1 (update_assigns_only_nearest_detections sample.two_close
                  [sample.det 0 1; sample.det 0 30] "cam1"%string 1
                  NpFacts.stable_sorts na nd))
    in i.
  destruct i as (r & e1 & e2 & _). exists r. split; assumption.
Defined.

End AtSample.

End AssignmentClaims.

(* ------------------------------------------------------------------ *)
(** ** Departed identities *)

Module RevivalFacts.

Import tracking_system observe.

Section General.
Context {numpy : np.Argsort} {python : tracking_system.SetIteration}
  {sqlite : database.Engine} {host : alert_manager.Host}.

(** A row the loop has used is a row of the matrix. *)
Lemma used_row_bound D object_ids dets now pairs :
  forall st r,
    In r (used_rows (fold_left (match_step D object_ids dets now) pairs st)) ->
    In r (used_rows st) \/ (r < length object_ids)%nat.
Proof.
  induction pairs as [|[row col] pairs IH]; intros st r; cbn [fold_left];
    [tauto|].
  intros i. apply IH in i as [i|i]; [|now right].
  destruct (LoopFacts.match_step_cases D object_ids dets now st row col)
    as [e | (tid & det & er & ec & nr & nc & tf & e)]; rewrite e in i.
  - now left.
  - cbn [used_rows] in i. destruct i as [<-|i]; [|now left].
    right. apply nth_error_Some. congruence.
Qed.

(** An assigned identity was active on the camera before the call. *)
Lemma assigned_is_active self dets camera_id now k c :
  tracker_ok self ->
  In (k, c) (assigned_pairs self dets camera_id now) ->
  exists p,
    Dict.get k (objects self) = Some p /\ active_on camera_id p = true.
Proof.
  intros ok. unfold assigned_pairs.
  destruct dets as [|d ds]; [intros []|].
  destruct (length (active_objects self camera_id) =? 0)%nat; [intros []|].
  intros i. apply in_map_iff in i as ([r c'] & e & i). injection e as <- ->.
  apply in_rev in i. apply in_combine_l in i.
  unfold match_loop in i. cbv zeta in i.
  apply used_row_bound in i as [[] | lr].
  apply (UpdateFacts.active_keys self camera_id _ (TableFacts.ok_NoDup _ ok)).
  now apply nth_In.
Qed.

Lemma in_registered n news camera_id now det :
  In det news ->
  exists k,
    n <= k /\
    In (k, new_person k det camera_id now) (registered n news camera_id now).
Proof.
  revert n. induction news as [|d r IH]; intros n; simpl; [tauto|].
  intros [->|i].
  - exists n. split; [lia | now left].
  - destruct (IH (n + 1) i) as (k & le & h). exists k.
    split; [lia | now right].
Qed.

End General.

End RevivalFacts.

Module RevivalClaims.

Import tracking_system observe.

Section General.
Context {numpy : np.Argsort} {python : tracking_system.SetIteration}
  {sqlite : database.Engine} {host : alert_manager.Host}.

(** C7, amended: a departed identity is never revived.  Once a person of
    the table is inactive, no later update changes it in any way (it is
    never made active again and no detection is assigned to it); every
    identity an update creates is active and gets an id at least
    [next_object_id], strictly greater than every id issued before; and
    every detection of an update -- however close to a departed person's
    last centroid -- is either assigned to an identity that was active on
    the camera before the call or registered as such a new identity. *)
Theorem departed_identity_is_never_revived :
  forall self,
    tracker_ok self ->
    (forall calls k p,
       Dict.get k (objects self) = Some p ->
       is_active p = false ->
       Dict.get k (objects (tracker_run self calls)) = Some p) /\
    (forall dets camera_id now k p',
       Dict.get k (objects (update self dets camera_id now)) = Some p' ->
       Dict.get k (objects self) = None ->
       next_object_id self <= k /\ is_active p' = true /\
       tracking_id p' = k /\
       forall k0, In k0 (Dict.keys (objects self)) -> k0 < k) /\
    (forall dets camera_id now c det,
       nth_error dets c = Some det ->
       (exists k p,
          In (k, c) (assigned_pairs self dets camera_id now) /\
          Dict.get k (objects self) = Some p /\
          active_on camera_id p = true) \/
       (exists k,
          next_object_id self <= k /\
          Dict.get k (objects (update self dets camera_id now)) =
          Some (new_person k det camera_id now))).
Proof.
  intros self ok. split; [|split].
  - intros calls. revert self ok.
    induction calls as [|c calls IH]; intros self ok k p g ia; [assumption|].
    cbn [tracker_run fold_left].
    apply (IH (update self (call_detections c) (call_camera c) (call_now c))).
    + now apply UpdateConsequences.update_ok.
    + apply UpdateConsequences.update_keeps_others; try assumption.
      now apply UpdateConsequences.inactive_not_active_on.
    + assumption.
  - intros dets camera_id now k p' g' g.
    destruct (UpdateFacts.update_structure self dets camera_id now ok)
      as (old & news & e & kold & _).
    rewrite e in g'. cbn [objects] in g'.
    rewrite DictFacts.get_app_l in g'.
    assert (go : Dict.get k old = None).
    { apply DictFacts.get_None_keys. rewrite kold.
      now apply DictFacts.get_None_keys. }
    rewrite go in g'. apply DictFacts.get_In in g'.
    apply TableFacts.registered_bound in g' as (b1 & b2 & b3 & _).
    repeat split; try assumption.
    intros k0 i0. destruct ok as (_ & ek & _). rewrite ek in i0.
    apply TableFacts.issued_ids_bound in i0. lia.
  - intros dets camera_id now c det en.
    destruct (in_dec Nat.eq_dec c
                (map snd (assigned_pairs self dets camera_id now)))
      as [i|n].
    + left. apply in_map_iff in i as ([k c'] & e & i). simpl in e. subst c'.
      destruct (RevivalFacts.assigned_is_active self dets camera_id now k c
                  ok i) as (p & g & a).
      exists k, p. repeat split; assumption.
    + right.
      pose proof (UpdateConsequences.update_ok self dets camera_id now ok)
        as ok'.
      destruct (UpdateFacts.update_structure self dets camera_id now ok)
        as (old & news & e & _ & _ & _ & _ & _ & reg).
      destruct (RevivalFacts.in_registered (next_object_id self) news
                  camera_id now det (reg c det en n)) as (k & le & ik).
      exists k. split; [assumption|].
      apply DictFacts.In_get; [now apply TableFacts.ok_NoDup|].
      rewrite e. cbn [objects]. apply in_or_app. now right.
Qed.

End General.

(** On the samples: the insertion sort for [argsort], sets visited in
    ascending order, rows of equal entry time in table order, and a host on
    which nothing fails. *)
Section AtSample.
Existing Instance np.stable.
Existing Instance tracking_system.ascending.
Existing Instance database.table_order.
Existing Instance alert_manager.reliable.

(** C7, as stated, fails in its second half: a later detection does not
    always register a new identity.  In the tracker of the test suite where
    person 1 has departed (last centroid (125,150)) and person 2 is active
    at (130,155), a detection at (125,150) is assigned to person 2 and no
    identity is created. *)
Lemma later_detection_may_join_an_active_identity :
  ~ (forall self dets camera_id now c det,
       tracker_ok self ->
       (exists k0 p0,
          Dict.get k0 (objects self) = Some p0 /\ is_active p0 = false) ->
       nth_error dets c = Some det ->
       exists k,
         (forall k0, In k0 (Dict.keys (objects self)) -> k0 < k) /\
         Dict.get k (objects (update self dets camera_id now)) =
         Some (new_person k det camera_id now)).
Proof.
  intros h.
  assert (ok : tracker_ok sample.departed_and_active).
  { vm_compute. split; [discriminate|].
    split; [reflexivity | repeat constructor]. }
  destruct (h sample.departed_and_active [sample.det 125 150] "cam1"%string
              7 0%nat (sample.det 125 150) ok)
    as (k & gt & g).
  - exists 1. eexists. split; [vm_compute; reflexivity | vm_compute; reflexivity].
  - reflexivity.
  - assert (k2 : 2 < k) by (apply gt; vm_compute; tauto).
    remember (objects (update sample.departed_and_active
                         [sample.det 125 150] "cam1" 7)) as table eqn:et.
    vm_compute in et. subst table. cbn [Dict.get] in g.
    destruct (Dict.eqb_spec k 1) as [e|_]; [lia|].
    destruct (Dict.eqb_spec k 2) as [e|_]; [lia|].
    discriminate g.
Qed.

Lemma sample_departed_ok :
  tracker_ok (feed_empty sample.one_person "cam1" [1; 2; 3; 4; 5; 6]).
Proof.
  vm_compute. split; [discriminate|].
  split; [reflexivity | repeat constructor].
Defined.

Lemma departed_identity_is_never_revived_witness :
  Dict.get 1
    (objects
       (tracker_run (feed_empty sample.one_person "cam1" [1; 2; 3; 4; 5; 6])
          [sample.call "cam1" [sample.det 125 150] 7])) =
  Dict.get 1
    (objects (feed_empty sample.one_person "cam1" [1; 2; 3; 4; 5; 6])).
Proof.
  exact (proj1 (departed_identity_is_never_revived _ sample_departed_ok)
           [sample.call "cam1" [sample.det 125 150] 7] 1 _
           eq_refl eq_refl).
Defined.

End AtSample.

End RevivalClaims.

(* ================================================================== *)
(** * Further properties of the code *)

(* ------------------------------------------------------------------ *)
(** ** The matching loop is one-to-one and updates what it assigns *)

Module MatchFacts.

Import tracking_system observe.

Section General.
Context {numpy : np.Argsort} {python : tracking_system.SetIteration}
  {sqlite : database.Engine} {host : alert_manager.Host}.

(** What the loop adds to the used rows and columns. *)
Lemma loop_used D object_ids dets now pairs :
  forall st,
    let st' := fold_left (match_step D object_ids dets now) pairs st in
    (NoDup (used_rows st) -> NoDup (used_rows st')) /\
    (NoDup (used_cols st) -> NoDup (used_cols st')) /\
    (forall r, In r (used_rows st') ->
       In r (used_rows st) \/ (r < length object_ids)%nat) /\
    (forall c, In c (used_cols st') ->
       In c (used_cols st) \/ (c < length dets)%nat).
Proof.
  induction pairs as [|[row col] pairs IH]; intros st; cbv zeta.
  - cbn [fold_left]. tauto.
  - cbn [fold_left].
    specialize (IH (match_step D object_ids dets now st (row, col))).
    cbv zeta in IH.
    destruct (LoopFacts.match_step_cases D object_ids dets now st row col)
      as [e | (tid & det & er & ec & nr & nc & tf & e)]; rewrite e in IH |- *.
    + exact IH.
    + cbn [ms_self used_rows used_cols] in IH.
      destruct IH as (i1 & i2 & i3 & i4).
      split; [|split; [|split]].
      * intros nd. apply i1. now constructor.
      * intros nd. apply i2. now constructor.
      * intros r i. destruct (i3 r i) as [[<-|h]|h]; auto.
        right. apply nth_error_Some. congruence.
      * intros c i. destruct (i4 c i) as [[<-|h]|h]; auto.
        right. apply nth_error_Some. congruence.
Qed.

(** A pair assigned by the loop has its person overwritten from the
    detection, once. *)
Lemma loop_assigned D object_ids dets now pairs :
  NoDup object_ids ->
  forall st r c,
    let st' := fold_left (match_step D object_ids dets now) pairs st in
    In (r, c) (combine (used_rows st') (used_cols st')) ->
    In (r, c) (combine (used_rows st) (used_cols st)) \/
    exists k det,
      ~ In r (used_rows st) /\
      nth_error object_ids r = Some k /\
      nth_error dets c = Some det /\
      Dict.get k (objects (ms_self st')) =
      option_map (set_matched det now) (Dict.get k (objects (ms_self st))).
Proof.
  intros ndo.
  induction pairs as [|[row col] pairs IH]; intros st r c; cbv zeta.
  - cbn [fold_left]. tauto.
  - cbn [fold_left].
    pose proof (LoopFacts.match_loop_facts D object_ids dets now pairs
                  (match_step D object_ids dets now st (row, col))) as mf.
    specialize (IH (match_step D object_ids dets now st (row, col)) r c).
    cbv zeta in IH, mf.
    destruct (LoopFacts.match_step_cases D object_ids dets now st row col)
      as [e | (tid & det & er & ec & nr & nc & tf & e)];
      rewrite e in IH, mf |- *.
    + exact IH.
    + cbn [ms_self used_rows used_cols objects with_objects combine]
        in IH, mf.
      destruct mf as (_ & _ & _ & _ & _ & frame).
      intros i.
      destruct (IH i) as [[h | h] | (k & det' & n1 & e1 & e2 & g)].
      * injection h as <- <-. right. exists tid, det.
        split; [assumption|]. split; [assumption|]. split; [assumption|].
        rewrite frame.
        -- apply DictFacts.get_modify_same.
        -- intros r' _ e'. left.
           apply (proj1 (NoDup_nth_error object_ids) ndo).
           ++ apply nth_error_Some. congruence.
           ++ congruence.
      * now left.
      * right. exists k, det'.
        split; [intros h; apply n1; now right|].
        split; [assumption|]. split; [assumption|]. rewrite g.
        rewrite DictFacts.get_modify_other; [reflexivity|].
        intros ->. apply n1. left.
        apply (proj1 (NoDup_nth_error object_ids) ndo).
        -- apply nth_error_Some. congruence.
        -- congruence.
Qed.

End General.

End MatchFacts.

Module ShapeFacts.

Import tracking_system observe.

Section General.
Context {numpy : np.Argsort} {python : tracking_system.SetIteration}
  {sqlite : database.Engine} {host : alert_manager.Host}.

Lemma length_unused n used :
  NoDup used -> (forall i, In i used -> (i < n)%nat) ->
  (length (unused n used) + length used = n)%nat.
Proof.
  intros nd bound. unfold unused.
  rewrite (Permutation_length (range_minus_lists n used)).
  assert (split_len : forall (p : nat -> bool) l,
            (length (filter (fun i => negb (p i)) l) +
             length (filter p l) = length l)%nat).
  { intros p l. induction l as [|x l IH]; simpl; [reflexivity|].
    destruct (p x); simpl; lia. }
  pose proof (split_len (fun i => mem i used) (seq 0 n)) as h.
  rewrite length_seq in h.
  assert (e : length (filter (fun i => mem i used) (seq 0 n)) = length used).
  { apply Permutation_length. apply NoDup_Permutation.
    - apply NoDup_filter, seq_NoDup.
    - assumption.
    - intros i. rewrite filter_In, in_seq, LoopFacts.mem_In.
      split; [tauto|].
      intros hi. split; [specialize (bound i hi); lia | assumption]. }
  rewrite e in h. exact h.
Qed.

Lemma length_picks {A} (l : list A) positions :
  (forall i, In i positions -> (i < length l)%nat) ->
  length (picks l positions) = length positions.
Proof.
  induction positions as [|i r IH]; intros bound; simpl; [reflexivity|].
  rewrite length_app, IH by (intros j h; apply bound; now right).
  destruct (nth_error l i) eqn:e; [reflexivity|].
  apply nth_error_None in e. specialize (bound i (or_introl eq_refl)). lia.
Qed.

Lemma incl_picks {A} (l : list A) positions : incl (picks l positions) l.
Proof.
  intros x h. apply LoopFacts.in_picks in h as (i & _ & e).
  eapply nth_error_In; eauto.
Qed.

Lemma map_fst_combine {A B} (l1 : list A) (l2 : list B) :
  length l1 = length l2 -> map fst (combine l1 l2) = l1.
Proof.
  revert l2. induction l1 as [|a l1 IH]; intros [|b l2]; simpl;
    try discriminate; [reflexivity|].
  intros [= e]. now rewrite IH.
Qed.

Lemma map_snd_combine {A B} (l1 : list A) (l2 : list B) :
  length l1 = length l2 -> map snd (combine l1 l2) = l2.
Proof.
  revert l2. induction l1 as [|a l1 IH]; intros [|b l2]; simpl;
    try discriminate; [reflexivity|].
  intros [= e]. now rewrite IH.
Qed.

(** The table after an update, with what was assigned and what was
    registered counted. *)
Lemma update_shape self dets camera_id now :
  tracker_ok self ->
  exists old news,
    update self dets camera_id now =
    {| next_object_id := next_object_id self + Z.of_nat (length news);
       objects := old ++ registered (next_object_id self) news camera_id now;
       max_disappeared := max_disappeared self;
       max_distance := max_distance self |} /\
    Dict.keys old = Dict.keys (objects self) /\
    incl news dets /\
    (length news + length (assigned_pairs self dets camera_id now)
     = length dets)%nat /\
    NoDup (map fst (assigned_pairs self dets camera_id now)) /\
    NoDup (map snd (assigned_pairs self dets camera_id now)) /\
    forall k c,
      In (k, c) (assigned_pairs self dets camera_id now) ->
      exists p det,
        Dict.get k (objects self) = Some p /\
        active_on camera_id p = true /\
        nth_error dets c = Some det /\
        Dict.get k old = Some (set_matched det now p).
Proof.
  intros ok. pose proof (TableFacts.ok_NoDup self ok) as nd.
  destruct dets as [|d ds].
  - exists (map (fun item =>
                   (fst item,
                    aged camera_id now (max_disappeared self) (snd item)))
              (objects self)), [].
    rewrite TrackerFacts.update_empty by assumption.
    split; [|split; [|split; [|split; [|split; [|split]]]]].
    + unfold with_objects. cbn [length registered]. f_equal.
      * change (Z.of_nat 0) with 0. lia.
      * now rewrite app_nil_r.
    + apply EmptyFrames.keys_map_values.
    + intros x [].
    + reflexivity.
    + constructor.
    + constructor.
    + intros k c [].
  - unfold update, assigned_pairs. cbv beta iota zeta.
    destruct (length (active_objects self camera_id) =? 0)%nat eqn:el.
    + exists (objects self), (d :: ds).
      rewrite TableFacts.register_fold by assumption.
      split; [reflexivity|]. split; [reflexivity|].
      split; [apply incl_refl|]. split; [simpl; lia|].
      split; [constructor|]. split; [constructor|]. intros k c [].
    + set (object_ids := Dict.keys (active_objects self camera_id)).
      set (D := distance_matrix self (d :: ds) camera_id).
      set (st := match_loop self (d :: ds) camera_id now).
      set (init_st := {| ms_self := self; used_rows := [];
                         used_cols := [] |}).
      assert (ndo : NoDup object_ids).
      { unfold object_ids, active_objects.
        now apply DictFacts.NoDup_keys_filter. }
      assert (est : st = fold_left (match_step D object_ids (d :: ds) now)
                           (match_order D) init_st) by reflexivity.
      pose proof (LoopFacts.match_loop_facts D object_ids (d :: ds) now
                    (match_order D) init_st) as mf.
      pose proof (MatchFacts.loop_used D object_ids (d :: ds) now
                    (match_order D) init_st) as lu.
      pose proof (fun r c =>
                    MatchFacts.loop_assigned D object_ids (d :: ds) now
                      (match_order D) ndo init_st r c) as la.
      cbv zeta in mf, lu, la. rewrite <- est in mf, lu, la.
      cbn [init_st ms_self used_rows used_cols combine] in mf, lu, la.
      destruct mf as (m1 & m2 & m3 & _ & m5 & m6).
      destruct lu as (u1 & u2 & u3 & u4).
      specialize (m5 eq_refl).
      specialize (u1 (NoDup_nil _)). specialize (u2 (NoDup_nil _)).
      rewrite (TableFacts.fold_picks (miss now) object_ids).
      rewrite TrackerFacts.fold_miss.
      set (ks := picks object_ids (unused (length D) (used_rows st))).
      assert (e0 : max_disappeared (ms_self st) = max_disappeared self)
        by (rewrite m1; reflexivity).
      rewrite e0.
      set (old := fold_left
                    (fun d k =>
                       Dict.modify k (missed now (max_disappeared self)) d)
                    ks (objects (ms_self st))).
      assert (kold : Dict.keys old = Dict.keys (objects self)).
      { unfold old. now rewrite TrackerFacts.keys_fold_modify. }
      assert (fold_keyed : forall ks0 d0,
                Forall keyed d0 ->
                Forall keyed
                  (fold_left
                     (fun d k =>
                        Dict.modify k (missed now (max_disappeared self)) d)
                     ks0 d0)).
      { induction ks0 as [|k0 ks0 IH0]; intros d0 f0; simpl; [assumption|].
        apply IH0. apply DictFacts.Forall_modify; [|assumption].
        intros k1 v1. unfold keyed. simpl.
        now rewrite UpdateFacts.missed_id. }
      assert (okold : tracker_ok (with_objects (ms_self st) old)).
      { rewrite m1. apply (TableFacts.ok_with_objects self old ok kold).
        apply fold_keyed. apply m3. now destruct ok as (_ & _ & fa). }
      rewrite (TableFacts.fold_picks
                 (fun self det =>
                    fst (register self (detection_engine.center det)
                           (detection_engine.bbox det)
                           (detection_engine.confidence det)
                           camera_id now))
                 (d :: ds)).
      rewrite TableFacts.register_fold by assumption.
      set (news := picks (d :: ds)
                     (unused (length (d :: ds)) (used_cols st))).
      exists old, news.
      assert (ndk : NoDup ks).
      { apply LoopFacts.NoDup_picks; [assumption|].
        apply LoopFacts.NoDup_unused. }
      assert (rows_ok : forall r, In r (used_rows st) ->
                (r < length object_ids)%nat).
      { intros r i. destruct (u3 r i) as [[]|h]. exact h. }
      assert (cols_ok : forall c, In c (used_cols st) ->
                (c < length (d :: ds))%nat).
      { intros c i. destruct (u4 c i) as [[]|h]. exact h. }
      split; [|split; [|split; [|split; [|split; [|split]]]]].
      * rewrite m1. reflexivity.
      * exact kold.
      * apply incl_picks.
      * rewrite length_map, length_rev, length_combine, m5, Nat.min_id.
        unfold news. rewrite length_picks.
        -- now apply length_unused.
        -- intros i h. now apply LoopFacts.in_unused in h as [h _].
      * rewrite map_map. cbn [fst].
        rewrite <- (map_map fst (fun r => nth r object_ids 0)).
        rewrite map_rev, map_fst_combine by assumption.
        apply NoDup_map_NoDup_ForallPairs; [|now apply NoDup_rev].
        intros r r' i i' e. apply in_rev in i, i'.
        apply (proj1 (NoDup_nth_error object_ids) ndo).
        -- now apply rows_ok.
        -- rewrite !(nth_error_nth' object_ids 0) by now apply rows_ok.
           now rewrite e.
      * rewrite map_map. cbn [snd].
        rewrite map_rev, map_snd_combine by assumption.
        now apply NoDup_rev.
      * intros k c i. apply in_map_iff in i as ([r c'] & e & i).
        injection e as <- ->. apply in_rev in i.
        assert (ir : In r (used_rows st)).
        { apply in_combine_l in i. exact i. }
        destruct (la r c i) as [[] | (k & det & _ & er & ec & g)].
        assert (ek : nth r object_ids 0 = k)
          by now apply nth_error_nth.
        rewrite ek.
        assert (ik : In k object_ids) by (eapply nth_error_In; eauto).
        apply (UpdateFacts.active_keys self camera_id k nd) in ik
          as (p & gp & ap).
        exists p, det. split; [assumption|]. split; [assumption|].
        split; [assumption|].
        unfold old. rewrite TrackerFacts.get_fold_modify by assumption.
        destruct (in_dec Z.eq_dec k ks) as [ik|_].
        -- exfalso. apply LoopFacts.in_picks in ik as (r' & iu & er').
           apply LoopFacts.in_unused in iu as [_ nu]. apply nu.
           assert (r' = r).
           { apply (proj1 (NoDup_nth_error object_ids) ndo).
             - apply nth_error_Some. congruence.
             - congruence. }
           now subst.
        -- rewrite g, gp. reflexivity.
Qed.

End General.

End ShapeFacts.

Module UpdateCases.

Import tracking_system observe.

Section General.
Context {numpy : np.Argsort} {python : tracking_system.SetIteration}
  {sqlite : database.Engine} {host : alert_manager.Host}.

Lemma registered_inv n news camera_id now k p :
  In (k, p) (registered n news camera_id now) ->
  exists det, In det news /\ p = new_person k det camera_id now /\ n <= k.
Proof.
  revert n. induction news as [|d r IH]; intros n; simpl; [tauto|].
  intros [e|i].
  - injection e as <- <-. exists d. split; [now left|]. split; [reflexivity|].
    lia.
  - destruct (IH (n + 1) i) as (det & h1 & h2 & h3).
    exists det. split; [now right|]. split; [assumption | lia].
Qed.

(** What an update can have done to a person that was in the table. *)
Lemma update_entry self dets camera_id now k p :
  tracker_ok self ->
  Dict.get k (objects self) = Some p ->
  exists p',
    Dict.get k (objects (update self dets camera_id now)) = Some p' /\
    (p' = p \/
     (active_on camera_id p = true /\
      p' = missed now (max_disappeared self) p) \/
     (active_on camera_id p = true /\
      exists det, In det dets /\ p' = set_matched det now p)).
Proof.
  intros ok g.
  destruct (active_on camera_id p) eqn:a.
  - destruct (in_dec Z.eq_dec k
                (map fst (assigned_pairs self dets camera_id now)))
      as [i|n].
    + apply in_map_iff in i as ([k' c] & e & i). simpl in e. subst k'.
      destruct (ShapeFacts.update_shape self dets camera_id now ok)
        as (old & news & e & _ & _ & _ & _ & _ & matched).
      destruct (matched k c i) as (p0 & det & g0 & _ & ec & go).
      assert (p0 = p) by congruence. subst p0.
      exists (set_matched det now p). split.
      * rewrite e. cbn [objects]. now rewrite DictFacts.get_app_l, go.
      * right. right. split; [reflexivity|]. exists det.
        split; [eapply nth_error_In; eauto | reflexivity].
    + destruct (UpdateFacts.update_structure self dets camera_id now ok)
        as (old & news & e & _ & _ & _ & miss & _).
      exists (missed now (max_disappeared self) p). split.
      * eapply UpdateConsequences.get_old; eauto.
      * right. left. now split.
  - exists p. split; [|now left].
    now apply UpdateConsequences.update_keeps_others.
Qed.

(** A key that was not in the table holds a freshly registered person. *)
Lemma update_new_entry self dets camera_id now k p' :
  tracker_ok self ->
  Dict.get k (objects self) = None ->
  Dict.get k (objects (update self dets camera_id now)) = Some p' ->
  exists det,
    In det dets /\ p' = new_person k det camera_id now /\
    next_object_id self <= k.
Proof.
  intros ok g g'.
  destruct (ShapeFacts.update_shape self dets camera_id now ok)
    as (old & news & e & kold & sub & _).
  rewrite e in g'. cbn [objects] in g'. rewrite DictFacts.get_app_l in g'.
  assert (go : Dict.get k old = None).
  { apply DictFacts.get_None_keys. rewrite kold.
    now apply DictFacts.get_None_keys. }
  rewrite go in g'. apply DictFacts.get_In in g'.
  apply registered_inv in g' as (det & h1 & h2 & h3).
  exists det. split; [now apply sub|]. now split.
Qed.

(** Old entries stay under their keys with their identity fields. *)
Lemma update_keeps self dets camera_id now k p :
  tracker_ok self ->
  Dict.get k (objects self) = Some p ->
  exists p',
    Dict.get k (objects (update self dets camera_id now)) = Some p' /\
    tracking_id p' = tracking_id p /\ employee_id p' = employee_id p /\
    first_seen p' = first_seen p /\
    tracking_system.camera_id p' = tracking_system.camera_id p.
Proof.
  intros ok g.
  destruct (update_entry self dets camera_id now k p ok g)
    as (p' & g' & [-> | [(_ & ->) | (_ & det & _ & ->)]]);
    (eexists; split; [exact g'|]); [repeat split | | repeat split].
  unfold missed. now destruct (_ >? _).
Qed.

End General.

End UpdateCases.

(* ------------------------------------------------------------------ *)
(** ** Properties of [CentroidTracker.update] *)

Module UpdateProperties.

Import tracking_system observe behaviour.

Section General.
Context {numpy : np.Argsort} {python : tracking_system.SetIteration}
  {sqlite : database.Engine} {host : alert_manager.Host}.

(** X1: an identity that an update assigns a detection takes its centroid,
    bounding box and confidence from that detection, has its miss counter
    reset to 0 and its [last_seen] set to the time of the call; its id,
    employee id, first-seen time, camera and active flag are unchanged. *)
Theorem matched_identity_takes_detection :
  forall self dets camera_id now k c,
    tracker_ok self ->
    In (k, c) (assigned_pairs self dets camera_id now) ->
    exists p det p',
      Dict.get k (objects self) = Some p /\
      nth_error dets c = Some det /\
      Dict.get k (objects (update self dets camera_id now)) = Some p' /\
      centroid p' = detection_engine.center det /\
      bbox p' = detection_engine.bbox det /\
      confidence p' = detection_engine.confidence det /\
      disappeared_frames p' = 0 /\ last_seen p' = now /\
      is_active p' = true /\
      tracking_id p' = tracking_id p /\ employee_id p' = employee_id p /\
      first_seen p' = first_seen p /\
      tracking_system.camera_id p' = tracking_system.camera_id p.
Proof.
  intros self dets camera_id now k c ok i.
  destruct (ShapeFacts.update_shape self dets camera_id now ok)
    as (old & news & e & _ & _ & _ & _ & _ & matched).
  destruct (matched k c i) as (p & det & g & a & ec & go).
  exists p, det, (set_matched det now p).
  split; [assumption|]. split; [assumption|]. split.
  - rewrite e. cbn [objects]. now rewrite DictFacts.get_app_l, go.
  - unfold active_on in a. apply andb_true_iff in a as [a _].
    simpl. repeat split. exact a.
Qed.

(** X2: an update never deletes or renumbers: every person of the table is
    still filed under its key afterwards with the same tracking id, employee
    id, first-seen time and camera, and the keys after the update are the
    keys before followed by the newly issued ones. *)
Theorem update_keeps_every_identity :
  forall self dets camera_id now,
    tracker_ok self ->
    (forall k p,
       Dict.get k (objects self) = Some p ->
       exists p',
         Dict.get k (objects (update self dets camera_id now)) = Some p' /\
         tracking_id p' = tracking_id p /\ employee_id p' = employee_id p /\
         first_seen p' = first_seen p /\
         tracking_system.camera_id p' = tracking_system.camera_id p) /\
    exists fresh,
      Dict.keys (objects (update self dets camera_id now)) =
      Dict.keys (objects self) ++ fresh /\
      Forall (fun k => next_object_id self <= k) fresh.
Proof.
  intros self dets camera_id now ok. split.
  - intros k p g. now apply UpdateCases.update_keeps.
  - destruct (ShapeFacts.update_shape self dets camera_id now ok)
      as (old & news & e & kold & _).
    exists (Dict.keys (registered (next_object_id self) news camera_id now)).
    rewrite e. cbn [objects]. unfold Dict.keys in *.
    rewrite map_app, kold. split; [reflexivity|].
    apply Forall_forall. intros k i.
    apply in_map_iff in i as ([k' p] & <- & i).
    apply TableFacts.registered_bound in i. tauto.
Qed.

End General.

(** On the samples: the insertion sort for [argsort], sets visited in
    ascending order, rows of equal entry time in table order, and a host on
    which nothing fails. *)
Section AtSample.
Existing Instance np.stable.
Existing Instance tracking_system.ascending.
Existing Instance database.table_order.
Existing Instance alert_manager.reliable.

Lemma sample_two_close_ok : tracker_ok sample.two_close.
Proof.
  vm_compute. split; [discriminate|].
  split; [reflexivity | repeat constructor].
Defined.

Lemma matched_identity_takes_detection_witness :
  exists p det p',
    Dict.get 1 (objects sample.two_close) = Some p /\
    nth_error [sample.det 0 1; sample.det 0 30] 0 = Some det /\
    Dict.get 1
      (objects (update sample.two_close [sample.det 0 1; sample.det 0 30]
                  "cam1" 1)) = Some p' /\
    centroid p' = detection_engine.center det.
Proof.
  assert (i : In (1, 0%nat)
                (assigned_pairs sample.two_close
                   [sample.det 0 1; sample.det 0 30] "cam1" 1)).
  { vm_compute. tauto. }
  destruct (matched_identity_takes_detection sample.two_close
              [sample.det 0 1; sample.det 0 30] "cam1"%string 1 1 0%nat
              sample_two_close_ok i)
    as (p & det & p' & h1 & h2 & h3 & h4 & _).
  exists p, det, p'. repeat split; assumption.
Defined.

Lemma update_keeps_every_identity_witness :
  exists fresh,
    Dict.keys (objects (update sample.two_close
                          [sample.det 0 1; sample.det 0 30] "cam1" 1)) =
    Dict.keys (objects sample.two_close) ++ fresh /\
    Forall (fun k => next_object_id sample.two_close <= k) fresh.
Proof.
  exact (proj2 (update_keeps_every_identity sample.two_close
                  [sample.det 0 1; sample.det 0 30] "cam1"%string 1
                  sample_two_close_ok)).
Defined.

End AtSample.

End UpdateProperties.

Module UpdateAccounting.

Import tracking_system observe behaviour.

Section General.
Context {numpy : np.Argsort} {python : tracking_system.SetIteration}
  {sqlite : database.Engine} {host : alert_manager.Host}.

Lemma length_registered n news camera_id now :
  length (registered n news camera_id now) = length news.
Proof.
  revert n. induction news as [|d r IH]; intros n; simpl; [reflexivity|].
  now rewrite IH.
Qed.

(** X3: an update for one camera leaves every person that is inactive or
    belongs to another camera exactly as it was, and every entry it creates
    is an active, unidentified person of that camera, seen now for the
    first time, with no missed frame. *)
Theorem update_touches_only_its_camera :
  forall self dets camera_id now,
    tracker_ok self ->
    (forall k p,
       Dict.get k (objects self) = Some p ->
       active_on camera_id p = false ->
       Dict.get k (objects (update self dets camera_id now)) = Some p) /\
    (forall k p',
       Dict.get k (objects self) = None ->
       Dict.get k (objects (update self dets camera_id now)) = Some p' ->
       tracking_system.camera_id p' = camera_id /\ is_active p' = true /\
       employee_id p' = None /\ disappeared_frames p' = 0 /\
       first_seen p' = now /\ last_seen p' = now /\ tracking_id p' = k /\
       exists det,
         In det dets /\ centroid p' = detection_engine.center det /\
         bbox p' = detection_engine.bbox det).
Proof.
  intros self dets camera_id now ok. split.
  - intros k p g a. now apply UpdateConsequences.update_keeps_others.
  - intros k p' g g'.
    destruct (UpdateCases.update_new_entry self dets camera_id now k p' ok g g')
      as (det & i & -> & _).
    simpl. do 7 (split; [reflexivity|]). exists det. now repeat split.
Qed.

(** X4: an update accounts for every detection exactly once: each is either
    assigned to one identity (no identity and no detection is assigned
    twice) or registered as a new identity, so the table grows by the number
    of unassigned detections and [next_object_id] advances by the same
    amount. *)
Theorem update_accounts_for_every_detection :
  forall self dets camera_id now,
    tracker_ok self ->
    NoDup (map fst (assigned_pairs self dets camera_id now)) /\
    NoDup (map snd (assigned_pairs self dets camera_id now)) /\
    (length (objects (update self dets camera_id now)) +
     length (assigned_pairs self dets camera_id now) =
     length (objects self) + length dets)%nat /\
    next_object_id (update self dets camera_id now) +
    Z.of_nat (length (assigned_pairs self dets camera_id now)) =
    next_object_id self + Z.of_nat (length dets).
Proof.
  intros self dets camera_id now ok.
  destruct (ShapeFacts.update_shape self dets camera_id now ok)
    as (old & news & e & kold & _ & len & nd1 & nd2 & _).
  split; [assumption|]. split; [assumption|].
  assert (lo : length old = length (objects self)).
  { unfold Dict.keys in kold.
    rewrite <- (length_map fst old), kold. apply length_map. }
  rewrite e. cbn [objects next_object_id].
  rewrite length_app, length_registered, lo. split; lia.
Qed.

(** The counter discipline is kept by an update. *)
Lemma counted_update self dets camera_id now :
  tracker_ok self ->
  0 <= max_disappeared self ->
  (forall k p, Dict.get k (objects self) = Some p ->
               counted (max_disappeared self) p) ->
  forall k p',
    Dict.get k (objects (update self dets camera_id now)) = Some p' ->
    counted (max_disappeared self) p'.
Proof.
  intros ok le inv k p' g'.
  destruct (Dict.get k (objects self)) as [p|] eqn:g.
  - destruct (UpdateCases.update_entry self dets camera_id now k p ok g)
      as (q & gq & cases).
    assert (q = p') by congruence. subst q.
    specialize (inv k p g).
    destruct cases as [-> | [(a & ->) | (a & det & _ & ->)]];
      [assumption | |].
    + unfold active_on in a. apply andb_true_iff in a as [a _].
      destruct inv as [(_ & r) | (ia & _)]; [|congruence].
      unfold missed, counted.
      destruct (Z.gtb_spec (disappeared_frames p + 1) (max_disappeared self));
        simpl; [right | left]; (split; [assumption || reflexivity | lia]).
    + unfold active_on in a. apply andb_true_iff in a as [a _].
      left. simpl. split; [assumption | lia].
  - destruct (UpdateCases.update_new_entry self dets camera_id now k p' ok g g')
      as (det & _ & -> & _).
    left. simpl. split; [reflexivity | lia].
Qed.

(** X5: in a tracker built by [update] calls alone, with a tolerance that is
    not negative, every active person has missed between 0 and
    [max_disappeared] frames in a row and every departed person has a
    counter of exactly [max_disappeared + 1]. *)
Theorem tracker_counts_consecutive_misses :
  forall max_disappeared max_distance calls k p,
    0 <= max_disappeared ->
    Dict.get k
      (objects (tracker_run (init max_disappeared max_distance) calls)) =
    Some p ->
    counted max_disappeared p.
Proof.
  intros md mdist calls k p le.
  assert (inv : forall calls self,
            tracker_ok self -> tracking_system.max_disappeared self = md ->
            (forall k p, Dict.get k (objects self) = Some p -> counted md p) ->
            forall k p,
              Dict.get k (objects (tracker_run self calls)) = Some p ->
              counted md p).
  { clear calls k p. induction calls as [|c calls IH]; intros self ok em inv.
    - exact inv.
    - cbn [tracker_run fold_left]. apply IH.
      + now apply UpdateConsequences.update_ok.
      + now rewrite (proj1 (UpdateConsequences.update_fields self _ _ _ ok)).
      + intros k p g. rewrite <- em.
        eapply counted_update; eauto; rewrite em; assumption. }
  apply (inv calls (init md mdist)).
  - apply TableFacts.ok_init.
  - reflexivity.
  - intros k0 p0. discriminate.
Qed.

End General.

(** On the samples: the insertion sort for [argsort], sets visited in
    ascending order, rows of equal entry time in table order, and a host on
    which nothing fails. *)
Section AtSample.
Existing Instance np.stable.
Existing Instance tracking_system.ascending.
Existing Instance database.table_order.
Existing Instance alert_manager.reliable.

Lemma update_touches_only_its_camera_witness :
  (forall k p,
     Dict.get k (objects sample.one_person) = Some p ->
     active_on "cam2" p = false ->
     Dict.get k
       (objects (update sample.one_person [sample.det 0 0] "cam2" 1)) =
     Some p) /\
  Dict.get 1 (objects (update sample.one_person [sample.det 0 0] "cam2" 1)) =
  Dict.get 1 (objects sample.one_person).
Proof.
  assert (ok : tracker_ok sample.one_person).
  { vm_compute. split; [discriminate|].
    split; [reflexivity | repeat constructor]. }
  split.
  - exact (proj1 (update_touches_only_its_camera sample.one_person
                    [sample.det 0 0] "cam2"%string 1 ok)).
  - vm_compute. reflexivity.
Defined.

Lemma update_accounts_for_every_detection_witness :
  (length (objects (update sample.two_close
                      [sample.det 0 1; sample.det 0 30] "cam1" 1%Z)) +
   length (assigned_pairs sample.two_close
             [sample.det 0 1; sample.det 0 30] "cam1" 1%Z) =
   length (objects sample.two_close) + 2)%nat.
Proof.
  assert (ok : tracker_ok sample.two_close).
  { vm_compute. split; [discriminate|].
    split; [reflexivity | repeat constructor]. }
  exact (proj1 (proj2 (proj2 (update_accounts_for_every_detection
                                sample.two_close
                                [sample.det 0 1; sample.det 0 30]
                                "cam1"%string 1 ok)))).
Defined.

Lemma tracker_counts_consecutive_misses_witness :
  exists p,
    Dict.get 1 (objects (tracker_run (init 5 50)
                           [sample.call "cam1" [sample.det 125 150] 0])) =
    Some p /\ counted 5 p.
Proof.
  eexists. split; [vm_compute; reflexivity|].
  apply (tracker_counts_consecutive_misses 5 50
           [sample.call "cam1" [sample.det 125 150] 0] 1).
  - lia.
  - vm_compute. reflexivity.
Defined.

End AtSample.

End UpdateAccounting.

(* ------------------------------------------------------------------ *)
(** ** Loops over the whole table *)

Module SweepFacts.

Import tracking_system observe behaviour.

Section General.
Context {numpy : np.Argsort} {python : tracking_system.SetIteration}
  {sqlite : database.Engine} {host : alert_manager.Host}.

(** A loop over the keys whose body changes the entry under the key in
    place changes every entry. *)
Lemma sweep (step : CentroidTracker -> Z -> CentroidTracker)
  (f : TrackedPerson -> TrackedPerson) :
  (forall self k,
     step self k = with_objects self (Dict.modify k f (objects self))) ->
  forall self,
    NoDup (Dict.keys (objects self)) ->
    fold_left step (Dict.keys (objects self)) self =
    with_objects self (map_values f (objects self)).
Proof.
  intros st self nd. unfold map_values.
  rewrite <- (TrackerFacts.fold_modify_all f) by assumption.
  generalize (Dict.keys (objects self)) as ks. intros ks. clear nd.
  revert self. induction ks as [|k ks IH]; intros self; simpl.
  - now rewrite TrackerFacts.with_objects_same.
  - rewrite st, IH. reflexivity.
Qed.

Lemma deregister_spec self k :
  deregister self k =
  with_objects self (Dict.modify k (set_is_active false) (objects self)).
Proof.
  unfold deregister. destruct (Dict.contains k (objects self)) eqn:c;
    [reflexivity|].
  apply DictFacts.contains_false in c.
  rewrite DictFacts.modify_absent by assumption.
  now rewrite TrackerFacts.with_objects_same.
Qed.

Lemma set_employee_id_spec self k e :
  set_employee_id self k e =
  with_objects self (Dict.modify k (set_employee e) (objects self)).
Proof.
  unfold set_employee_id. destruct (Dict.contains k (objects self)) eqn:c;
    [reflexivity|].
  apply DictFacts.contains_false in c.
  rewrite DictFacts.modify_absent by assumption.
  now rewrite TrackerFacts.with_objects_same.
Qed.

Lemma clear_camera_objects self camera_id :
  NoDup (Dict.keys (objects self)) ->
  clear_camera self camera_id =
  with_objects self (map_values (cleared camera_id) (objects self)).
Proof.
  intros nd. unfold clear_camera. apply sweep; [|assumption].
  clear self nd. intros self k.
  destruct (Dict.get k (objects self)) as [p|] eqn:g.
  - destruct (String.eqb (tracking_system.camera_id p) camera_id) eqn:c.
    + rewrite deregister_spec. f_equal. apply DictFacts.modify_ext.
      intros v gv. replace v with p by congruence. unfold cleared.
      now rewrite c.
    + rewrite DictFacts.modify_id; [now rewrite TrackerFacts.with_objects_same|].
      intros v gv. replace v with p by congruence. unfold cleared.
      now rewrite c.
  - rewrite DictFacts.modify_absent by assumption.
    now rewrite TrackerFacts.with_objects_same.
Qed.

Lemma identify_all_objects identify frame tracker :
  NoDup (Dict.keys (objects tracker)) ->
  identify_all identify frame tracker =
  with_objects tracker
    (map_values (identified identify frame) (objects tracker)).
Proof.
  intros nd. unfold identify_all. apply sweep; [|assumption].
  clear tracker nd. intros self k.
  destruct (Dict.get k (objects self)) as [p|] eqn:g.
  - destruct (is_active p &&
              match employee_id p with None => true | Some _ => false end)
      eqn:c.
    + cbv zeta. destruct (truthy (identify frame (bbox p))) eqn:t.
      * rewrite set_employee_id_spec. f_equal. apply DictFacts.modify_ext.
        intros v gv. replace v with p by congruence. unfold identified.
        rewrite c. cbv zeta. now rewrite t.
      * rewrite DictFacts.modify_id;
          [now rewrite TrackerFacts.with_objects_same|].
        intros v gv. replace v with p by congruence. unfold identified.
        rewrite c. cbv zeta. now rewrite t.
    + rewrite DictFacts.modify_id;
        [now rewrite TrackerFacts.with_objects_same|].
      intros v gv. replace v with p by congruence. unfold identified.
      now rewrite c.
  - rewrite DictFacts.modify_absent by assumption.
    now rewrite TrackerFacts.with_objects_same.
Qed.

Lemma map_values_get f d k :
  Dict.get k (map_values f d) = option_map f (Dict.get k d).
Proof. apply EmptyFrames.get_map_values. Qed.

Lemma map_values_keys f d : Dict.keys (map_values f d) = Dict.keys d.
Proof. apply EmptyFrames.keys_map_values. Qed.

(** Two tables with the same keys and the same lookups are the same. *)
Lemma dict_ext (d1 d2 : Dict.t Z TrackedPerson) :
  NoDup (Dict.keys d1) ->
  Dict.keys d1 = Dict.keys d2 ->
  (forall k, Dict.get k d1 = Dict.get k d2) ->
  d1 = d2.
Proof.
  revert d2. induction d1 as [|[k v] r IH]; intros [|[k' v'] r'] nd ek eg;
    try discriminate; [reflexivity|].
  simpl in ek. injection ek as -> ek.
  inversion nd as [|? ? ni nd']; subst.
  pose proof (eg k') as e0. simpl in e0. rewrite Z.eqb_refl in e0.
  injection e0 as ->. f_equal. apply IH; [assumption | assumption |].
  intros k. specialize (eg k). simpl in eg.
  destruct (Z.eqb_spec k k') as [e|ne]; [rewrite e | assumption].
  assert (n1 : Dict.get k' r = None) by now apply DictFacts.get_None_keys.
  assert (n2 : Dict.get k' r' = None).
  { apply DictFacts.get_None_keys. now rewrite <- ek. }
  congruence.
Qed.

End General.

End SweepFacts.

(* ------------------------------------------------------------------ *)
(** ** Properties of the other tracker operations *)

Module TableProperties.

Import tracking_system observe behaviour.

Section General.
Context {numpy : np.Argsort} {python : tracking_system.SetIteration}
  {sqlite : database.Engine} {host : alert_manager.Host}.

Lemma cleared_not_active camera_id p :
  active_on camera_id (cleared camera_id p) = false.
Proof.
  unfold cleared, active_on.
  destruct (String.eqb (tracking_system.camera_id p) camera_id) eqn:c.
  - reflexivity.
  - rewrite c. apply andb_false_r.
Qed.

Lemma cleared_twice camera_id p :
  cleared camera_id (cleared camera_id p) = cleared camera_id p.
Proof.
  unfold cleared.
  destruct (String.eqb (tracking_system.camera_id p) camera_id) eqn:c.
  - cbn [tracking_system.camera_id set_is_active]. now rewrite c.
  - now rewrite c.
Qed.

(** X6: [clear_camera] marks every person of the camera inactive and does
    nothing else: no entry is deleted or moved, persons of other cameras
    and the id counter are as before.  Afterwards the camera has no active
    person, and clearing again changes nothing. *)
Theorem clear_camera_deactivates_its_camera :
  forall self camera_id,
    NoDup (Dict.keys (objects self)) ->
    clear_camera self camera_id =
    with_objects self (map_values (cleared camera_id) (objects self)) /\
    active_objects (clear_camera self camera_id) camera_id = [] /\
    clear_camera (clear_camera self camera_id) camera_id =
    clear_camera self camera_id.
Proof.
  intros self camera_id nd.
  pose proof (SweepFacts.clear_camera_objects self camera_id nd) as e.
  split; [exact e|]. split.
  - rewrite e. unfold active_objects, map_values. cbn [objects with_objects].
    clear e nd. induction (objects self) as [|[k v] r IH]; [reflexivity|].
    cbn [map filter fst snd]. now rewrite cleared_not_active.
  - rewrite SweepFacts.clear_camera_objects.
    + rewrite e. unfold with_objects, map_values. cbn. f_equal.
      rewrite map_map. apply map_ext. intros [k v]. cbn.
      now rewrite cleared_twice.
    + rewrite e. cbn [objects with_objects].
      now rewrite SweepFacts.map_values_keys.
Qed.

(** X7: when the camera has no active person, an update registers every
    detection, in input order, under consecutive new ids starting at
    [next_object_id], and leaves the entries already in the table as they
    are. *)
Theorem update_without_active_registers_all :
  forall self dets camera_id now,
    tracker_ok self ->
    active_objects self camera_id = [] ->
    update self dets camera_id now =
    {| next_object_id := next_object_id self + Z.of_nat (length dets);
       objects :=
         objects self ++ registered (next_object_id self) dets camera_id now;
       max_disappeared := max_disappeared self;
       max_distance := max_distance self |}.
Proof.
  intros self dets camera_id now ok none.
  destruct (UpdateFacts.update_structure self dets camera_id now ok)
    as (old & news & e & kold & _ & keep & _ & all & _).
  rewrite (all none) in e. rewrite e. f_equal. f_equal.
  apply SweepFacts.dict_ext.
  - rewrite kold. now apply TableFacts.ok_NoDup.
  - exact kold.
  - intros k. destruct (Dict.get k (objects self)) as [p|] eqn:g.
    + apply keep; [assumption|].
      destruct (active_on camera_id p) eqn:a; [|reflexivity].
      assert (i : In (k, p) (active_objects self camera_id)).
      { unfold active_objects. apply filter_In.
        split; [now apply DictFacts.get_In | exact a]. }
      rewrite none in i. destruct i.
    + apply DictFacts.get_None_keys. rewrite kold.
      now apply DictFacts.get_None_keys.
Qed.

(** X8: the identification loop asks the recogniser about the active
    persons without an employee id, each once, with the person's current
    bounding box, and stores a non-empty answer; persons that are inactive
    or already identified, and every other field, are left as they are. *)
Theorem identification_fills_in_missing_ids_only :
  forall identify frame tracker,
    NoDup (Dict.keys (objects tracker)) ->
    identify_all identify frame tracker =
    with_objects tracker
      (map_values (identified identify frame) (objects tracker)) /\
    forall k p,
      Dict.get k (objects tracker) = Some p ->
      is_active p = false \/ employee_id p <> None ->
      Dict.get k (objects (identify_all identify frame tracker)) = Some p.
Proof.
  intros identify frame tracker nd.
  pose proof (SweepFacts.identify_all_objects identify frame tracker nd) as e.
  split; [exact e|].
  intros k p g h. rewrite e. cbn [objects with_objects].
  rewrite SweepFacts.map_values_get, g. cbn [option_map]. f_equal.
  unfold identified. destruct h as [h|h].
  - now rewrite h.
  - destruct (employee_id p); [|congruence]. now rewrite andb_false_r.
Qed.

End General.

(** On the samples: the insertion sort for [argsort], sets visited in
    ascending order, rows of equal entry time in table order, and a host on
    which nothing fails. *)
Section AtSample.
Existing Instance np.stable.
Existing Instance tracking_system.ascending.
Existing Instance database.table_order.
Existing Instance alert_manager.reliable.

Lemma clear_camera_deactivates_its_camera_witness :
  active_objects (clear_camera sample.two_close "cam1") "cam1" = [].
Proof.
  apply (clear_camera_deactivates_its_camera sample.two_close "cam1"%string).
  vm_compute. repeat constructor; simpl; intuition discriminate.
Defined.

Lemma update_without_active_registers_all_witness :
  objects (update sample.centroid_tracker
             [sample.det 125 150; sample.det 325 250] "cam1" 0) =
  registered 1 [sample.det 125 150; sample.det 325 250] "cam1" 0.
Proof.
  rewrite (update_without_active_registers_all sample.centroid_tracker
             [sample.det 125 150; sample.det 325 250] "cam1"%string 0).
  - reflexivity.
  - apply TableFacts.ok_init.
  - reflexivity.
Defined.

Lemma identification_fills_in_missing_ids_only_witness :
  Dict.get 1
    (objects (identify_all (fun _ _ => Some "EMP007"%string) []
                sample.one_person)) =
  option_map (set_employee "EMP007") (Dict.get 1 (objects sample.one_person)).
Proof.
  rewrite (proj1 (identification_fills_in_missing_ids_only
                    (fun _ _ => Some "EMP007"%string) [] sample.one_person
                    ltac:(vm_compute; repeat constructor; simpl; tauto))).
  vm_compute. reflexivity.
Defined.

End AtSample.

End TableProperties.

(* ------------------------------------------------------------------ *)
(** ** Properties of [TrackingManager] *)

Module ManagerSteps.

Import tracking_system observe behaviour.

Section General.
Context {numpy : np.Argsort} {python : tracking_system.SetIteration}
  {sqlite : database.Engine} {host : alert_manager.Host}.

(** The tracker a manager update works on and the one it stores. *)
Lemma manager_update_trackers self camera_id dets frame now :
  let t := snd (get_tracker self camera_id) in
  let t1 := update t dets camera_id now in
  let t2 :=
    match face_recognition self, frame with
    | Some identify, Some frame => identify_all identify frame t1
    | _, _ => t1
    end in
  (forall cam0,
     Dict.get cam0
       (trackers (fst (manager_update self camera_id dets frame now))) =
     if String.eqb cam0 camera_id then Some t2
     else Dict.get cam0 (trackers self)) /\
  snd (manager_update self camera_id dets frame now) = objects t2 /\
  face_recognition (fst (manager_update self camera_id dets frame now)) =
  face_recognition self.
Proof.
  cbv zeta. unfold manager_update, get_tracker.
  destruct (Dict.get camera_id (trackers self)) as [t|] eqn:g;
    cbn [fst snd trackers with_trackers face_recognition].
  - split; [|split; reflexivity].
    intros cam0. rewrite DictFacts.get_set. reflexivity.
  - split; [|split; reflexivity].
    intros cam0. rewrite !DictFacts.get_set.
    change (Dict.eqb cam0 camera_id) with (String.eqb cam0 camera_id).
    now destruct (String.eqb cam0 camera_id).
Qed.

Lemma get_tracker_some self camera_id t :
  Dict.get camera_id (trackers self) = Some t ->
  snd (get_tracker self camera_id) = t.
Proof. intros g. unfold get_tracker. now rewrite g. Qed.

Lemma get_tracker_none self camera_id :
  Dict.get camera_id (trackers self) = None ->
  snd (get_tracker self camera_id) =
  init config.TRACKING_MAX_DISAPPEARED config.TRACKING_MAX_DISTANCE.
Proof. intros g. unfold get_tracker. now rewrite g. Qed.

Lemma get_tracker_ok self camera_id :
  manager_ok self -> tracker_ok (snd (get_tracker self camera_id)).
Proof.
  intros ok. destruct (Dict.get camera_id (trackers self)) as [t|] eqn:g.
  - rewrite (get_tracker_some _ _ _ g). eapply ok; eauto.
  - rewrite (get_tracker_none _ _ g). apply TableFacts.ok_init.
Qed.

End General.

End ManagerSteps.

Module ManagerProperties.

Import tracking_system observe behaviour.

Section General.
Context {numpy : np.Argsort} {python : tracking_system.SetIteration}
  {sqlite : database.Engine} {host : alert_manager.Host}.

Lemma identified_counted identify frame m p :
  counted m p -> counted m (identified identify frame p).
Proof.
  unfold identified.
  destruct (is_active p && _); [|tauto].
  cbv zeta. destruct (truthy _); tauto.
Qed.

Lemma disciplined_update self camera_id dets frame now :
  disciplined self ->
  disciplined (fst (manager_update self camera_id dets frame now)).
Proof.
  intros inv cam0 t'.
  destruct (ManagerSteps.manager_update_trackers self camera_id dets frame now)
    as (tr & _). cbv zeta in tr. rewrite tr. clear tr.
  destruct (String.eqb cam0 camera_id); [|apply inv].
  set (t := snd (get_tracker self camera_id)).
  assert (it : tracker_ok t /\
               max_disappeared t = config.TRACKING_MAX_DISAPPEARED /\
               forall k p, Dict.get k (objects t) = Some p ->
                           counted config.TRACKING_MAX_DISAPPEARED p).
  { unfold t, get_tracker.
    destruct (Dict.get camera_id (trackers self)) as [t0|] eqn:g; cbn [snd].
    - eapply inv; eauto.
    - split; [apply TableFacts.ok_init|]. split; [reflexivity|].
      intros k p. discriminate. }
  destruct it as (ok & em & cnt).
  set (t1 := update t dets camera_id now).
  assert (i1 : tracker_ok t1 /\
               max_disappeared t1 = config.TRACKING_MAX_DISAPPEARED /\
               forall k p, Dict.get k (objects t1) = Some p ->
                           counted config.TRACKING_MAX_DISAPPEARED p).
  { split; [now apply UpdateConsequences.update_ok|]. split.
    - unfold t1.
      now rewrite (proj1 (UpdateConsequences.update_fields t _ _ _ ok)).
    - intros k p g. rewrite <- em.
      apply (UpdateAccounting.counted_update t dets camera_id now ok)
        with (k := k); [rewrite em; now vm_compute | | exact g].
      intros k0 p0 g0. rewrite em. now apply (cnt k0). }
  destruct i1 as (ok1 & em1 & cnt1).
  destruct (face_recognition self) as [identify|]; [|now intros [= <-]].
  destruct frame as [fr|]; [|now intros [= <-]].
  intros [= <-].
  pose proof (SweepFacts.identify_all_objects identify fr t1
                (TableFacts.ok_NoDup _ ok1)) as e.
  rewrite e. cbn [objects with_objects max_disappeared].
  split; [|split; [exact em1|]].
  - apply TableFacts.ok_with_objects; [assumption | |].
    + apply SweepFacts.map_values_keys.
    + unfold map_values. apply Forall_map.
      destruct ok1 as (_ & _ & fa). eapply Forall_impl; [|exact fa].
      intros [k v]. unfold keyed. cbn [fst snd]. intros <-.
      unfold identified. destruct (is_active v && _); [|reflexivity].
      cbv zeta. now destruct (truthy _).
  - intros k p. rewrite SweepFacts.map_values_get.
    destruct (Dict.get k (objects t1)) as [p1|] eqn:g1; [|discriminate].
    intros [= <-]. apply identified_counted. now apply (cnt1 k).
Qed.

Lemma disciplined_run calls :
  forall self, disciplined self -> disciplined (manager_run self calls).
Proof.
  induction calls as [|c calls IH]; intros self inv; [assumption|].
  cbn [manager_run fold_left]. apply IH. now apply disciplined_update.
Qed.

Lemma disciplined_init fr : disciplined (manager_init fr).
Proof. intros cam t. discriminate. Qed.

(** X9: in a manager driven by [update] calls alone,
    [get_newly_left_persons] returns every departed person of the camera's
    tracker that carries the camera's id, in table order, whenever it is
    called: the test on the counter excludes none of them. *)
Theorem newly_left_are_all_departed :
  forall fr calls camera_id,
    snd (get_newly_left_persons (manager_run (manager_init fr) calls)
           camera_id) =
    filter (departed camera_id)
      (Dict.values
         (objects
            (snd (get_tracker (manager_run (manager_init fr) calls)
                    camera_id)))).
Proof.
  intros fr calls camera_id.
  pose proof (disciplined_run calls _ (disciplined_init fr)) as inv.
  set (m := manager_run (manager_init fr) calls) in *.
  unfold get_newly_left_persons, get_tracker.
  destruct (Dict.get camera_id (trackers m)) as [t|] eqn:g; cbn [snd];
    [|reflexivity].
  destruct (inv camera_id t g) as (ok & em & cnt).
  apply filter_ext_in. intros p i. unfold departed.
  unfold Dict.values in i. apply in_map_iff in i as ([k q] & e & i).
  simpl in e. subst q.
  assert (gk : Dict.get k (objects t) = Some p).
  { apply DictFacts.In_get; [now apply TableFacts.ok_NoDup | assumption]. }
  destruct (cnt k p gk) as [(a & _) | (a & d)].
  - now rewrite a.
  - rewrite a, d, em, Z.eqb_refl. now rewrite andb_true_r.
Qed.

(** X10: a manager update changes the tracker of its camera only, and the
    dictionary it returns is the whole table of that tracker as stored
    afterwards, departed persons included. *)
Theorem manager_update_touches_one_tracker :
  forall self camera_id dets frame now,
    (forall cam0,
       cam0 <> camera_id ->
       Dict.get cam0
         (trackers (fst (manager_update self camera_id dets frame now))) =
       Dict.get cam0 (trackers self)) /\
    exists t',
      Dict.get camera_id
        (trackers (fst (manager_update self camera_id dets frame now))) =
      Some t' /\
      snd (manager_update self camera_id dets frame now) = objects t'.
Proof.
  intros self camera_id dets frame now.
  destruct (ManagerSteps.manager_update_trackers self camera_id dets frame now)
    as (tr & ret & _). cbv zeta in tr, ret.
  split.
  - intros cam0 ne. rewrite tr.
    destruct (String.eqb_spec cam0 camera_id); [contradiction | reflexivity].
  - eexists. split; [|exact ret].
    rewrite tr. now rewrite String.eqb_refl.
Qed.

(** X11: an employee id, once associated with a person, survives every
    manager update: the person stays filed under its key in its camera's
    tracker with the same employee id, tracking id, first-seen time and
    camera. *)
Theorem manager_update_keeps_employee_ids :
  forall self camera_id dets frame now cam0 t k p e,
    manager_ok self ->
    Dict.get cam0 (trackers self) = Some t ->
    Dict.get k (objects t) = Some p ->
    employee_id p = Some e ->
    exists t' p',
      Dict.get cam0
        (trackers (fst (manager_update self camera_id dets frame now))) =
      Some t' /\
      Dict.get k (objects t') = Some p' /\
      employee_id p' = Some e /\ tracking_id p' = tracking_id p /\
      first_seen p' = first_seen p /\
      tracking_system.camera_id p' = tracking_system.camera_id p.
Proof.
  intros self camera_id dets frame now cam0 t k p e ok g gk ee.
  destruct (ManagerSteps.manager_update_trackers self camera_id dets frame now)
    as (tr & _). cbv zeta in tr. rewrite tr. clear tr.
  destruct (String.eqb_spec cam0 camera_id) as [->|ne].
  - rewrite (ManagerSteps.get_tracker_some _ _ _ g).
    assert (okt : tracker_ok t) by (eapply ok; eauto).
    destruct (UpdateCases.update_keeps t dets camera_id now k p okt gk)
      as (p1 & g1 & e1 & e2 & e3 & e4).
    pose proof (UpdateConsequences.update_ok t dets camera_id now okt) as ok1.
    destruct (face_recognition self) as [identify|];
      [destruct frame as [fr|]|].
    + eexists _, p1. split; [reflexivity|].
      rewrite SweepFacts.identify_all_objects
        by now apply TableFacts.ok_NoDup.
      cbn [objects with_objects].
      rewrite SweepFacts.map_values_get, g1. cbn [option_map].
      unfold identified. rewrite e2, ee, andb_false_r.
      repeat split; congruence.
    + eexists _, p1. split; [reflexivity|]. repeat split; congruence.
    + eexists _, p1. split; [reflexivity|]. repeat split; congruence.
  - exists t, p. repeat split; assumption.
Qed.

End General.

(** On the samples: the insertion sort for [argsort], sets visited in
    ascending order, rows of equal entry time in table order, and a host on
    which nothing fails. *)
Section AtSample.
Existing Instance np.stable.
Existing Instance tracking_system.ascending.
Existing Instance database.table_order.
Existing Instance alert_manager.reliable.

Lemma manager_update_touches_one_tracker_witness :
  Dict.get "cam1"%string
    (trackers (fst (manager_update sample.two_cameras "cam2"
                      [sample.det 325 250] None 1))) =
  Dict.get "cam1"%string (trackers sample.two_cameras).
Proof.
  apply (manager_update_touches_one_tracker sample.two_cameras "cam2"%string
           [sample.det 325 250] None 1).
  discriminate.
Defined.

Lemma manager_update_keeps_employee_ids_witness :
  exists t' p',
    Dict.get "cam1"%string
      (trackers (fst (manager_update sample.manager_with_employee "cam1"
                        [sample.det 130 155] (Some []) 1))) = Some t' /\
    Dict.get 1 (objects t') = Some p' /\
    employee_id p' = Some "EMP001"%string.
Proof.
  assert (ok : manager_ok sample.manager_with_employee).
  { destruct (ManagerFacts.manager_update_facts
                (manager_init (Some sample.recogniser)) "cam1"%string
                [sample.det 125 150] (Some []) 0
                (ManagerFacts.manager_init_ok _)) as (ok & _).
    exact ok. }
  destruct (manager_update_keeps_employee_ids sample.manager_with_employee
              "cam1"%string [sample.det 130 155] (Some []) 1 "cam1"%string
              (snd (get_tracker sample.manager_with_employee "cam1"))
              1 (set_employee "EMP001"
                   (new_person 1 (sample.det 125 150) "cam1" 0))
              "EMP001"%string ok)
    as (t' & p' & h1 & h2 & h3 & _).
  - vm_compute. reflexivity.
  - vm_compute. reflexivity.
  - reflexivity.
  - exists t', p'. repeat split; assumption.
Defined.

End AtSample.

End ManagerProperties.

Module StatisticsProperties.

Import tracking_system observe behaviour.

Section General.
Context {numpy : np.Argsort} {python : tracking_system.SetIteration}
  {sqlite : database.Engine} {host : alert_manager.Host}.

Lemma fold_add l : forall a, fold_left Z.add l a = a + sum l.
Proof.
  unfold sum. induction l as [|x l IH]; intros a; simpl; [lia|].
  rewrite IH, (IH x). lia.
Qed.

Lemma sum_cons x l : sum (x :: l) = x + sum l.
Proof. unfold sum at 1. simpl. apply fold_add. Qed.

Lemma length_active t :
  (length (get_active_persons t None) <= length (objects t))%nat.
Proof. unfold get_active_persons. simpl. apply filter_length_le. Qed.

Lemma length_set {V} (k : Z) (v : V) d :
  (length (Dict.set k v d) <= S (length d))%nat.
Proof.
  induction d as [|[k' v'] r IH]; simpl; [lia|].
  destruct (k =? k'); simpl; lia.
Qed.

Lemma length_dict_update {V} (d : Dict.t Z V) :
  forall into,
    (length (dict_update into d) <= length into + length d)%nat.
Proof.
  unfold dict_update.
  induction d as [|[k v] r IH]; intros into; simpl; [lia|].
  specialize (IH (Dict.set k v into)).
  pose proof (length_set k v into). lia.
Qed.

(** X12: the figures of [TrackingManager.get_statistics] agree with each
    other: the totals are the sums of the per-camera figures, there is one
    per-camera entry for each tracker, and the active count is between 0
    and the tracked count, per camera and in total. *)
Theorem statistics_are_consistent :
  forall self,
    total_cameras (manager_get_statistics self) =
      Z.of_nat (length (cameras (manager_get_statistics self))) /\
    total_tracked (manager_get_statistics self) =
      sum (map (fun c => fst (snd c)) (cameras (manager_get_statistics self))) /\
    total_active (manager_get_statistics self) =
      sum (map (fun c => snd (snd c)) (cameras (manager_get_statistics self))) /\
    Forall (fun c => 0 <= snd (snd c) <= fst (snd c))
      (cameras (manager_get_statistics self)) /\
    0 <= total_active (manager_get_statistics self) <=
      total_tracked (manager_get_statistics self).
Proof.
  intros self. unfold manager_get_statistics.
  cbn [total_cameras total_tracked total_active cameras].
  unfold Dict.values. rewrite !map_map, length_map. cbn [fst snd].
  split; [reflexivity|]. split; [reflexivity|]. split; [reflexivity|].
  split.
  - apply Forall_map. apply Forall_forall. intros [c t] _. cbn [fst snd].
    pose proof (length_active t). lia.
  - induction (trackers self) as [|[c t] r IH]; [unfold sum; simpl; lia|].
    cbn [map snd]. rewrite !sum_cons. pose proof (length_active t). lia.
Qed.

(** X13: the dictionary [get_active_persons()] aggregates over all cameras
    never has more entries than [get_statistics] counts as active, and it
    can have fewer: trackers number their persons independently, so persons
    of different cameras with the same tracking id overwrite each other in
    it. *)
Theorem aggregated_active_persons_can_undercount :
  (forall self,
     Z.of_nat (length (snd (manager_get_active_persons self None))) <=
     total_active (manager_get_statistics self)) /\
  Z.of_nat (length (snd (manager_get_active_persons sample.two_cameras None))) <
  total_active (manager_get_statistics sample.two_cameras).
Proof.
  split; [|vm_compute; reflexivity].
  intros self. unfold manager_get_active_persons, manager_get_statistics.
  cbn [truthy snd total_active].
  assert (gen : forall ts acc,
            Z.of_nat
              (length
                 (fold_left
                    (fun all_persons tracker =>
                       dict_update all_persons
                         (get_active_persons tracker None)) ts acc)) <=
            Z.of_nat (length acc) +
            sum (map (fun t => Z.of_nat (length (get_active_persons t None)))
                   ts)).
  { induction ts as [|t ts IH]; intros acc.
    - unfold sum. simpl. lia.
    - cbn [fold_left map]. rewrite sum_cons.
      specialize (IH (dict_update acc (get_active_persons t None))).
      pose proof (length_dict_update (get_active_persons t None) acc). lia. }
  specialize (gen (Dict.values (trackers self)) Dict.empty).
  simpl in gen. exact gen.
Qed.

End General.

End StatisticsProperties.

(* ------------------------------------------------------------------ *)
(** ** Properties of [AlertManager] *)

Module AlertProperties.

Import alert_manager observe behaviour.

Section General.
Context {numpy : np.Argsort} {python : tracking_system.SetIteration}
  {sqlite : database.Engine} {host : alert_manager.Host}.






Lemma nothing_due (d : Dict.t Z Alert) now :
  NoDup (Dict.keys d) ->
  (forall k a, Dict.get k d = Some a -> should_trigger a now = false) ->
  filter (fun item => should_trigger (snd item) now) d = [].
Proof.
  intros nd quiet.
  assert (gen : forall l : list (Z * Alert),
            (forall item, In item l -> should_trigger (snd item) now = false) ->
            filter (fun item => should_trigger (snd item) now) l = []).
  { induction l as [|x l IH]; intros h; [reflexivity|].
    cbn [filter]. rewrite (h x) by now left.
    apply IH. intros item i. apply h. now right. }
  apply gen. intros [k a] i. cbn [snd]. apply (quiet k).
  now apply DictFacts.In_get.
Qed.

(** X15: a second report of the same tracking id changes nothing: the alert
    first added stays, with its departure time and fire time, whatever the
    person handed in later says. *)
Theorem add_pending_alert_keeps_the_first :
  forall self person again,
    tracking_system.tracking_id again = tracking_system.tracking_id person ->
    add_pending_alert (add_pending_alert self person) again =
    add_pending_alert self person.
Proof.
  intros self person again e.
  assert (c : Dict.contains (tracking_system.tracking_id again)
                (pending_alerts (add_pending_alert self person)) = true).
  { rewrite e. unfold add_pending_alert.
    destruct (Dict.contains _ (pending_alerts self)) eqn:c; [exact c|].
    unfold Dict.contains. cbn [pending_alerts with_pending].
    now rewrite DictFacts.get_set, DictFacts.eqb_refl. }
  unfold add_pending_alert at 1. now rewrite c.
Qed.

(** X16: an alert added for a person not yet pending fires at the first
    monitor pass whose time is at least [last_seen] plus the manager's
    timeout in minutes, and at no earlier pass: an earlier pass makes no
    record and shows no notification for the id and leaves the alert
    untriggered; the pass that fires it makes the record unless the write
    raises and shows the notification unless plyer is missing or [notify]
    raises. *)
Theorem alert_fires_at_last_seen_plus_timeout :
  forall self w person now,
    alerts_ok self ->
    Dict.get (tracking_system.tracking_id person) (pending_alerts self) =
      None ->
    let tid := tracking_system.tracking_id person in
    let deadline :=
      tracking_system.last_seen person + 60 * manager_timeout_minutes self in
    let r := _check_alerts (add_pending_alert self person) w now in
    exists a,
      Dict.get tid (pending_alerts (fst r)) = Some a /\
      left_at a = tracking_system.last_seen person /\
      alert_time a = deadline /\
      (now < deadline ->
       triggered a = false /\
       db_records tid (snd r) = db_records tid w /\
       notifications tid (snd r) = notifications tid w) /\
      (deadline <= now ->
       triggered a = true /\
       db_records tid (snd r) = (db_records tid w + recorded a now)%nat /\
       notifications tid (snd r) =
         (notifications tid w + notified a now)%nat).
Proof.
  intros self w person now ok g. cbv zeta.
  set (tid := tracking_system.tracking_id person) in *.
  set (m := add_pending_alert self person).
  assert (okm : alerts_ok m) by now apply AlertFacts.alerts_ok_add.
  set (a0 := new_alert tid
               match tracking_system.employee_id person with
               | Some e => if String.eqb e "" then "Unknown"%string else e
               | None => "Unknown"%string
               end
               (tracking_system.last_seen person)
               (manager_timeout_minutes self)).
  assert (gm : Dict.get tid (pending_alerts m) = Some a0).
  { unfold m, add_pending_alert, Dict.contains. fold tid. rewrite g.
    cbn [pending_alerts with_pending].
    now rewrite DictFacts.get_set, DictFacts.eqb_refl. }
  destruct (AlertFacts.check_effect m w now okm) as (_ & _ & get1 & cnt1).
  specialize (get1 tid). destruct (cnt1 tid) as (c1 & c2 & _).
  unfold to_record in c1. unfold to_notify in c2.
  rewrite gm in get1, c1, c2.
  assert (st : should_trigger a0 now =
               (tracking_system.last_seen person +
                60 * manager_timeout_minutes self <=? now)).
  { reflexivity. }
  rewrite st in get1, c1, c2.
  destruct (Z.leb_spec
              (tracking_system.last_seen person +
               60 * manager_timeout_minutes self) now) as [late|early].
  - exists (set_triggered a0). split; [exact get1|].
    split; [reflexivity|]. split; [reflexivity|]. split; [lia|].
    intros _. split; [reflexivity|]. split; assumption.
  - exists a0. split; [exact get1|].
    split; [reflexivity|]. split; [reflexivity|]. split; [|lia].
    intros _. split; [reflexivity|]. split; [rewrite c1 | rewrite c2]; lia.
Qed.

(** X17: a monitor pass at a time when every pending alert is already
    triggered or not yet due changes neither the manager nor the database
    nor the outputs. *)
Theorem quiet_pass_changes_nothing :
  forall self w now,
    NoDup (Dict.keys (pending_alerts self)) ->
    (forall k a, Dict.get k (pending_alerts self) = Some a ->
                 triggered a = true \/ now < alert_time a) ->
    _check_alerts self w now = (self, w).
Proof.
  intros self w now nd quiet. unfold _check_alerts.
  rewrite nothing_due; [reflexivity | assumption |].
  intros k a g. unfold should_trigger.
  destruct (quiet k a g) as [tr|early].
  - now rewrite tr.
  - destruct (Z.leb_spec (alert_time a) now); [lia|]. apply andb_false_r.
Qed.

(** X18: acknowledging an alert before it fires does not stop it: the next
    monitor pass at or after the fire time still triggers it, with the
    record and the notification a trigger makes where the host does not
    fail, and the alert, now triggered and acknowledged, is not among the
    triggered alerts [get_triggered_alerts] returns. *)
Theorem acknowledged_alert_still_fires :
  forall self w tid a now,
    alerts_ok self ->
    Dict.get tid (pending_alerts self) = Some a ->
    triggered a = false ->
    alert_time a <= now ->
    let r := _check_alerts (acknowledge_alert self tid) w now in
    Dict.get tid (pending_alerts (fst r)) =
      Some (set_triggered (set_acknowledged a)) /\
    db_records tid (snd r) =
      (db_records tid w +
       recorded (set_triggered (set_acknowledged a)) now)%nat /\
    notifications tid (snd r) =
      (notifications tid w +
       notified (set_triggered (set_acknowledged a)) now)%nat /\
    ~ In (set_triggered (set_acknowledged a)) (get_triggered_alerts (fst r)).
Proof.
  intros self w tid a now ok g tr due. cbv zeta.
  set (m := acknowledge_alert self tid).
  assert (okm : alerts_ok m) by now apply AlertFacts.alerts_ok_acknowledge.
  assert (gm : Dict.get tid (pending_alerts m) = Some (set_acknowledged a)).
  { unfold m, acknowledge_alert, Dict.contains. rewrite g.
    cbn [pending_alerts with_pending].
    now rewrite DictFacts.get_modify_same, g. }
  destruct (AlertFacts.check_effect m w now okm) as (_ & _ & get1 & cnt1).
  specialize (get1 tid). destruct (cnt1 tid) as (c1 & c2 & _).
  unfold to_record in c1. unfold to_notify in c2.
  rewrite gm in get1, c1, c2.
  assert (st : should_trigger (set_acknowledged a) now = true).
  { unfold should_trigger. cbn [triggered set_acknowledged alert_time].
    rewrite tr. now apply Z.leb_le. }
  rewrite st in get1, c1, c2.
  split; [exact get1|]. split; [exact c1|]. split; [exact c2|].
  unfold get_triggered_alerts. intros i. apply filter_In in i as [_ i].
  discriminate i.
Qed.

Lemma count_split (l : list Alert) :
  Z.of_nat (length (filter triggered l)) -
  Z.of_nat (length (filter acknowledged l)) =
  Z.of_nat (length (filter (fun alert => triggered alert &&
                                         negb (acknowledged alert)) l)) -
  count (fun alert => acknowledged alert && negb (triggered alert)) l.
Proof.
  unfold count. induction l as [|x l IH]; [reflexivity|].
  cbn [filter]. destruct (triggered x), (acknowledged x);
    cbn [andb negb length]; lia.
Qed.

(** X19: the [unacknowledged] figure of [get_statistics] is the number of
    alerts [get_triggered_alerts] returns minus the number of pending
    alerts acknowledged before they fired; so it never exceeds the former,
    and the two agree exactly when no pending alert is acknowledged and
    untriggered. *)
Theorem unacknowledged_figure_counts_early_acknowledgements :
  forall self,
    snd (get_statistics self) =
    Z.of_nat (length (get_triggered_alerts self)) -
    count (fun alert => acknowledged alert && negb (triggered alert))
      (get_pending_alerts self) /\
    snd (get_statistics self) <= Z.of_nat (length (get_triggered_alerts self)).
Proof.
  intros self. unfold get_statistics, get_triggered_alerts, get_pending_alerts.
  cbn [snd]. rewrite count_split. split; [reflexivity|].
  unfold count. lia.
Qed.

End General.

(** On the samples: the insertion sort for [argsort], sets visited in
    ascending order, rows of equal entry time in table order, and a host on
    which nothing fails. *)
Section AtSample.
Existing Instance np.stable.
Existing Instance tracking_system.ascending.
Existing Instance database.table_order.
Existing Instance alert_manager.reliable.

Lemma add_pending_alert_keeps_the_first_witness :
  add_pending_alert sample.manager_with_alert
    (tracking_system.set_missed 500 (sample.person 1)) =
  sample.manager_with_alert.
Proof.
  apply (add_pending_alert_keeps_the_first (init (Some 20)) (sample.person 1)
           (tracking_system.set_missed 500 (sample.person 1))).
  reflexivity.
Defined.

Lemma alert_fires_at_last_seen_plus_timeout_witness :
  exists a,
    Dict.get 1
      (pending_alerts
         (fst (_check_alerts
                 (add_pending_alert (init (Some 20)) (sample.person 1))
                 sample.no_world 1200))) = Some a /\
    alert_time a = 1200.
Proof.
  destruct (alert_fires_at_last_seen_plus_timeout (init (Some 20))
              sample.no_world (sample.person 1) 1200
              (AlertFacts.alerts_ok_init _) eq_refl)
    as (a & h1 & _ & h3 & _).
  exists a. split; [exact h1 | exact h3].
Defined.

Lemma quiet_pass_changes_nothing_witness :
  _check_alerts sample.manager_with_alert sample.no_world 1199 =
  (sample.manager_with_alert, sample.no_world).
Proof.
  apply (quiet_pass_changes_nothing sample.manager_with_alert
           sample.no_world 1199).
  - vm_compute. repeat constructor. simpl. tauto.
  - intros k a g. apply DictFacts.get_In in g. vm_compute in g.
    destruct g as [e | []]. injection e as <- <-. right. reflexivity.
Defined.


Lemma acknowledged_alert_still_fires_witness :
  db_records 1
    (snd (_check_alerts (acknowledge_alert sample.manager_with_alert 1)
            sample.no_world 1200)) = 1%nat.
Proof.
  refine (proj1 (proj2
    (acknowledged_alert_still_fires sample.manager_with_alert sample.no_world
       1 _ 1200 _ eq_refl eq_refl _))).
  - split; repeat constructor. simpl. tauto.
  - vm_compute. discriminate.
Defined.

End AtSample.

End AlertProperties.

(* ------------------------------------------------------------------ *)
(** ** Properties of the presence log *)

Module DatabaseProperties.

Import database.

(** The row [latest_open] finds: an open row of the key with the greatest
    entry time. *)
Lemma latest_open_spec tid cam rows :
  forall i best,
    match latest_open tid cam rows i best with
    | None =>
        best = None /\
        forall row, In row rows -> open_for tid cam row = false
    | Some j =>
        exists tj,
          ((best = Some (j, tj)) \/
           ((i <= j)%nat /\
            exists row,
              nth_error rows (j - i) = Some row /\
              open_for tid cam row = true /\ entry_time row = tj)) /\
          (forall b t, best = Some (b, t) -> t <= tj) /\
          (forall row, In row rows -> open_for tid cam row = true ->
                       entry_time row <= tj)
    end.
Proof.
  induction rows as [|row rest IH]; intros i best.
  - simpl. destruct best as [[b t]|]; simpl.
    + exists t. split; [now left|]. split.
      * intros b' t' [= _ <-]. lia.
      * tauto.
    + split; [reflexivity | tauto].
  - cbn [latest_open].
    set (best' := if open_for tid cam row
                  then match best with
                       | Some (_, t) =>
                           if t <=? entry_time row
                           then Some (i, entry_time row) else best
                       | None => Some (i, entry_time row)
                       end
                  else best).
    specialize (IH (S i) best').
    destruct (latest_open tid cam rest (S i) best') as [j|].
    + destruct IH as (tj & pos & bb & br). exists tj.
      assert (here : nth_error (row :: rest) (i - i) = Some row)
        by now rewrite Nat.sub_diag.
      assert (later : (S i <= j)%nat ->
                      nth_error (row :: rest) (j - i) =
                      nth_error rest (j - S i)).
      { intros le. replace (j - i)%nat with (S (j - S i)) by lia.
        reflexivity. }
      unfold best' in pos, bb. clear best'.
      destruct (open_for tid cam row) eqn:o.
      * destruct best as [[b t]|].
        -- destruct (Z.leb_spec t (entry_time row)) as [le|gt].
           ++ pose proof (bb i (entry_time row) eq_refl) as bi.
              split; [|split].
              ** destruct pos as [[= <- <-] | (le' & row' & n' & o' & e')].
                 --- right. split; [lia|]. exists row. now repeat split.
                 --- right. split; [lia|]. exists row'.
                     rewrite later by assumption. now repeat split.
              ** intros b' t' [= _ <-]. lia.
              ** intros row' [<- | i'] o'; [lia | now apply br].
           ++ pose proof (bb b t eq_refl) as bi.
              split; [|split].
              ** destruct pos as [e | (le' & row' & n' & o' & e')].
                 --- now left.
                 --- right. split; [lia|]. exists row'.
                     rewrite later by assumption. now repeat split.
              ** intros b' t' [= _ <-]. lia.
              ** intros row' [<- | i'] o'; [lia | now apply br].
        -- pose proof (bb i (entry_time row) eq_refl) as bi.
           split; [|split].
           ++ destruct pos as [[= <- <-] | (le' & row' & n' & o' & e')].
              ** right. split; [lia|]. exists row. now repeat split.
              ** right. split; [lia|]. exists row'.
                 rewrite later by assumption. now repeat split.
           ++ discriminate.
           ++ intros row' [<- | i'] o'; [lia | now apply br].
      * split; [|split].
        -- destruct pos as [e | (le' & row' & n' & o' & e')].
           ++ now left.
           ++ right. split; [lia|]. exists row'.
              rewrite later by assumption. now repeat split.
        -- exact bb.
        -- intros row' [<- | i'] o'; [congruence | now apply br].
    + destruct IH as (eb & none). unfold best' in eb. clear best'.
      destruct (open_for tid cam row) eqn:o.
      * destruct best as [[b t]|]; [|discriminate].
        destruct (t <=? entry_time row); discriminate.
      * split; [assumption|]. intros row' [<- | i']; [assumption|].
        now apply none.
Qed.

Lemma close_at_split now rows :
  forall j row,
    nth_error rows j = Some row ->
    exists before after,
      rows = before ++ row :: after /\ length before = j /\
      close_at j now rows =
      before ++
      {| tracking_id := tracking_id row; camera_id := camera_id row;
         employee_id := employee_id row; entry_time := entry_time row;
         exit_time := Some now |} :: after.
Proof.
  induction rows as [|r rest IH]; intros [|j] row e; try discriminate.
  - injection e as ->. exists [], rest. now repeat split.
  - simpl in e. destruct (IH j row e) as (before & after & e1 & e2 & e3).
    exists (r :: before), after. simpl. rewrite e3, e2. split; [|now split].
    now rewrite e1 at 1.
Qed.


(** X20: [log_exit] answers false and writes nothing exactly when the
    person has no open row on the camera; otherwise it answers true and
    sets the exit time of one row, which was open for that person and
    camera and has the latest entry time among such rows; every other row,
    and the alerts table, is as before. *)
Theorem log_exit_closes_the_latest_open_row :
  forall self tid cam now,
    (snd (log_exit self tid cam now) = false /\
     fst (log_exit self tid cam now) = self /\
     forall row, In row (presence_logs self) -> open_for tid cam row = false)
    \/
    (snd (log_exit self tid cam now) = true /\
     absence_alerts (fst (log_exit self tid cam now)) = absence_alerts self /\
     exists before row after,
       presence_logs self = before ++ row :: after /\
       open_for tid cam row = true /\
       (forall row', In row' (presence_logs self) ->
                     open_for tid cam row' = true ->
                     entry_time row' <= entry_time row) /\
       presence_logs (fst (log_exit self tid cam now)) =
       before ++
       {| tracking_id := tracking_id row; camera_id := camera_id row;
          employee_id := employee_id row; entry_time := entry_time row;
          exit_time := Some now |} :: after).
Proof.
  intros self tid cam now. unfold log_exit.
  pose proof (latest_open_spec tid cam (presence_logs self) 0 None) as sp.
  destruct (latest_open tid cam (presence_logs self) 0 None) as [j|].
  - right. cbn [fst snd presence_logs absence_alerts].
    split; [reflexivity|]. split; [reflexivity|].
    destruct sp as (tj & [e | (_ & row & n & o & et)] & _ & br);
      [discriminate|].
    rewrite Nat.sub_0_r in n.
    destruct (close_at_split now _ _ _ n) as (before & after & e1 & _ & e3).
    exists before, row, after. rewrite <- et in br.
    split; [exact e1|]. split; [exact o|]. split; [exact br | exact e3].
  - left. cbn [fst snd]. split; [reflexivity|]. split; [reflexivity|].
    apply sp.
Qed.

Lemma log_exit_closes_the_latest_open_row_witness :
  snd (log_exit (log_entry empty 1 "cam1" None 0) 1 "cam1" 60) = true.
Proof.
  destruct (log_exit_closes_the_latest_open_row
              (log_entry empty 1 "cam1" None 0) 1 "cam1"%string 60)
    as [(_ & _ & none) | (yes & _)].
  - specialize (none _ (or_introl eq_refl)). discriminate none.
  - exact yes.
Defined.

Lemma latest_open_new tid cam row rows :
  (forall r, In r rows -> open_for tid cam r = false) ->
  open_for tid cam row = true ->
  forall i,
    latest_open tid cam (rows ++ [row]) i None = Some (i + length rows)%nat.
Proof.
  intros none o. induction rows as [|r rest IH]; intros i.
  - simpl. rewrite o. simpl. f_equal. lia.
  - cbn [app latest_open]. rewrite (none r) by now left.
    rewrite IH by (intros r' i'; apply none; now right).
    f_equal. simpl. lia.
Qed.

Lemma close_at_last now row rows :
  close_at (length rows) now (rows ++ [row]) =
  rows ++ [{| tracking_id := tracking_id row; camera_id := camera_id row;
              employee_id := employee_id row; entry_time := entry_time row;
              exit_time := Some now |}].
Proof.
  induction rows as [|r rest IH]; simpl; [reflexivity|]. now rewrite IH.
Qed.

Section General.
Context {sqlite : Engine}.

Lemma insert_row_In rows row sorted r :
  In r (insert_row rows row sorted) <-> r = row \/ In r sorted.
Proof.
  induction sorted as [|x rest IH]; cbn [insert_row].
  - simpl. intuition congruence.
  - destruct ((entry_time x <? entry_time row) ||
              ((entry_time x =? entry_time row) && before_on_tie rows row x)).
    + simpl. intuition congruence.
    + cbn [In]. rewrite IH. intuition congruence.
Qed.

(** Ordering returns the rows it is given. *)
Lemma order_by_In rows r :
  In r (order_by_entry_time_desc rows) <-> In r rows.
Proof.
  unfold order_by_entry_time_desc. generalize rows at 1. intros all.
  induction rows as [|x rest IH]; cbn [fold_right]; [reflexivity|].
  rewrite insert_row_In, IH. simpl. intuition congruence.
Qed.

(** The ids reported are those of the open rows of the camera. *)
Lemma active_presences_In self camera k :
  In k (get_active_presences self camera) <->
  exists row,
    In row (presence_logs self) /\ tracking_id row = k /\
    exit_time row = None /\
    (String.eqb camera "" || String.eqb (camera_id row) camera) = true.
Proof.
  unfold get_active_presences. rewrite in_map_iff. split.
  - intros (row & e & i). apply order_by_In, filter_In in i as [i pr].
    exists row. apply andb_true_iff in pr as [op cm].
    destruct (exit_time row); [discriminate|]. now repeat split.
  - intros (row & i & e & op & cm). exists row. split; [assumption|].
    apply order_by_In, filter_In. split; [assumption|].
    now rewrite op, cm.
Qed.

(** X21: an entry logged for a person with no open row on the camera
    followed by an exit gives one closed row with the two times, after the
    rows already there, and the persons reported as active presences are
    those reported before the entry. *)
Theorem entry_then_exit_leaves_a_closed_row :
  forall self tid cam employee t_in t_out,
    (forall row, In row (presence_logs self) -> open_for tid cam row = false) ->
    log_exit (log_entry self tid cam employee t_in) tid cam t_out =
    ({| presence_logs :=
          presence_logs self ++
          [{| tracking_id := tid; camera_id := cam; employee_id := employee;
              entry_time := t_in; exit_time := Some t_out |}];
        absence_alerts := absence_alerts self |}, true) /\
    forall camera k,
      In k (get_active_presences
              (fst (log_exit (log_entry self tid cam employee t_in)
                      tid cam t_out)) camera) <->
      In k (get_active_presences self camera).
Proof.
  intros self tid cam employee t_in t_out none.
  assert (e : log_exit (log_entry self tid cam employee t_in) tid cam t_out =
              ({| presence_logs :=
                    presence_logs self ++
                    [{| tracking_id := tid; camera_id := cam;
                        employee_id := employee; entry_time := t_in;
                        exit_time := Some t_out |}];
                  absence_alerts := absence_alerts self |}, true)).
  { unfold log_exit, log_entry. cbn [presence_logs absence_alerts].
    rewrite latest_open_new; [|assumption|].
    - cbn [Nat.add]. now rewrite close_at_last.
    - unfold open_for. cbn. now rewrite Z.eqb_refl, String.eqb_refl. }
  split; [exact e|].
  intros camera k. rewrite e. cbn [fst]. rewrite !active_presences_In.
  cbn [presence_logs].
  split; intros (row & i & rest); exists row; (split; [|exact rest]).
  - apply in_app_or in i as [i | [<- | []]]; [assumption|].
    destruct rest as (_ & closed & _). discriminate closed.
  - apply in_or_app. now left.
Qed.

End General.

(** On a sample, with rows of equal entry time in table order. *)
Section AtSample.
Existing Instance table_order.

Lemma entry_then_exit_leaves_a_closed_row_witness :
  snd (log_exit (log_entry empty 1 "cam1" (Some "EMP001"%string) 0)
         1 "cam1" 60) = true.
Proof.
  rewrite (proj1 (entry_then_exit_leaves_a_closed_row empty 1 "cam1"%string
                    (Some "EMP001"%string) 0 60
                    ltac:(intros row [])));
    reflexivity.
Defined.

End AtSample.

End DatabaseProperties.

(* ------------------------------------------------------------------ *)
(** ** Properties of the camera streams *)

Module CameraProperties.

Import camera_manager.

Lemma deliver_queue self frame :
  0 < buffer_size self ->
  Z.of_nat (length (frame_queue self)) <= buffer_size self ->
  frame_queue (deliver self frame) =
  skipn (length (frame_queue self ++ [frame]) - Z.to_nat (buffer_size self))
    (frame_queue self ++ [frame]).
Proof.
  intros pos le. unfold deliver, full. cbn [frame_queue].
  rewrite length_app. cbn [length].
  destruct (Z.ltb_spec 0 (buffer_size self)); [|lia]. cbn [andb].
  destruct (Z.leb_spec (buffer_size self)
              (Z.of_nat (length (frame_queue self)))) as [f|nf]; cbn [negb].
  - destruct (frame_queue self) as [|x q] eqn:e; [simpl in f; lia|].
    replace (length (x :: q) + 1 - Z.to_nat (buffer_size self))%nat
      with 1%nat by lia.
    reflexivity.
  - replace (length (frame_queue self) + 1 - Z.to_nat (buffer_size self))%nat
      with 0%nat by lia.
    reflexivity.
Qed.

Lemma recent_app {A} (l fs : list A) n :
  skipn (length (skipn (length l - n) l ++ fs) - n)
    (skipn (length l - n) l ++ fs) =
  skipn (length (l ++ fs) - n) (l ++ fs).
Proof.
  destruct (Nat.le_gt_cases (length l) n) as [small|big].
  - replace (length l - n)%nat with 0%nat by lia. reflexivity.
  - rewrite !length_app, length_skipn.
    replace (length l - (length l - n) + length fs - n)%nat
      with (length fs) by lia.
    replace (length l + length fs - n)%nat
      with (length fs + (length l - n))%nat by lia.
    rewrite <- skipn_skipn. f_equal.
    rewrite skipn_app.
    replace (length l - n - length l)%nat with 0%nat by lia.
    reflexivity.
Qed.

Lemma deliver_all frames :
  forall self,
    0 < buffer_size self ->
    Z.of_nat (length (frame_queue self)) <= buffer_size self ->
    let self' := fold_left deliver frames self in
    frame_queue self' =
      skipn (length (frame_queue self ++ frames) -
             Z.to_nat (buffer_size self))
        (frame_queue self ++ frames) /\
    buffer_size self' = buffer_size self /\
    frame_count self' = frame_count self + Z.of_nat (length frames) /\
    last_frame self' = last (map Some frames) (last_frame self) /\
    stopped self' = stopped self /\
    info_is_active self' = info_is_active self.
Proof.
  induction frames as [|f frames IH]; intros self pos le; cbv zeta.
  - cbn [fold_left length map last]. rewrite app_nil_r.
    replace (length (frame_queue self) - Z.to_nat (buffer_size self))%nat
      with 0%nat by lia.
    repeat split. lia.
  - cbn [fold_left].
    pose proof (deliver_queue self f pos le) as q1.
    assert (le1 : Z.of_nat (length (frame_queue (deliver self f))) <=
                  buffer_size (deliver self f)).
    { rewrite q1. cbn [buffer_size deliver]. rewrite length_skipn.
      rewrite length_app. cbn [length]. lia. }
    destruct (IH (deliver self f) pos le1) as (i1 & i2 & i3 & i4 & i5 & i6).
    split; [|split; [|split; [|split; [|split]]]].
    + rewrite i1, q1. cbn [buffer_size deliver].
      set (n := Z.to_nat (buffer_size self)).
      set (l := frame_queue self ++ [f]).
      replace (frame_queue self ++ f :: frames) with (l ++ frames)
        by (unfold l; now rewrite <- app_assoc).
      apply recent_app.
    + exact i2.
    + rewrite i3. cbn [frame_count deliver length]. lia.
    + rewrite i4. cbn [last_frame deliver map].
      destruct frames as [|f0 frames]; [reflexivity|].
      cbn [map]. generalize (Some f0) as x, (map Some frames) as l.
      intros x l. simpl. revert x.
      induction l as [|y l IHl]; intros x; [reflexivity|]. apply IHl.
    + exact i5.
    + exact i6.
Qed.

(** X22: the frame buffer keeps the most recent frames: after any number
    of frames were delivered to a stream with a positive buffer size whose
    queue was within bounds, the queue holds the last [buffer_size] of the
    frames queued and delivered, oldest first (all of them if there are
    fewer), [last_frame] is the frame delivered last, and [frame_count]
    has grown by the number of frames. *)
Theorem buffer_keeps_the_most_recent_frames :
  forall self frames,
    0 < buffer_size self ->
    Z.of_nat (length (frame_queue self)) <= buffer_size self ->
    frame_queue (fold_left deliver frames self) =
      skipn (length (frame_queue self ++ frames) -
             Z.to_nat (buffer_size self))
        (frame_queue self ++ frames) /\
    Z.of_nat (length (frame_queue (fold_left deliver frames self))) <=
      buffer_size self /\
    frame_count (fold_left deliver frames self) =
      frame_count self + Z.of_nat (length frames) /\
    last_frame (fold_left deliver frames self) =
      last (map Some frames) (last_frame self).
Proof.
  intros self frames pos le.
  destruct (deliver_all frames self pos le) as (i1 & _ & i3 & i4 & _).
  split; [exact i1|]. split; [|split; assumption].
  rewrite i1, length_skipn. lia.
Qed.

Lemma buffer_keeps_the_most_recent_frames_witness :
  frame_queue
    (fold_left deliver [[[1]]; [[2]]; [[3]]; [[4]]; [[5]]; [[6]]; [[7]]]
       (new_stream 5)) =
  [[[3]]; [[4]]; [[5]]; [[6]]; [[7]]].
Proof.
  rewrite (proj1 (buffer_keeps_the_most_recent_frames (new_stream 5)
                    [[[1]]; [[2]]; [[3]]; [[4]]; [[5]]; [[6]]; [[7]]]
                    ltac:(reflexivity) ltac:(simpl; lia))).
  reflexivity.
Defined.

(** X23: consecutive reads hand out the queued frames oldest first, each
    once, and from then on the latest frame again and again (nothing, if no
    frame ever arrived): a reader faster than the camera sees the last
    frame repeated, not a gap. *)
Theorem reads_drain_then_repeat_the_last_frame :
  forall self k,
    snd (behaviour.reads (length (frame_queue self) + k) self) =
    map Some (frame_queue self) ++ repeat (last_frame self) k.
Proof.
  intros self k. destruct self as [b q st c lf ia]. cbn [frame_queue last_frame].
  induction q as [|f q IH].
  - cbn [length Nat.add map app].
    induction k as [|k IHk]; [reflexivity|].
    cbn [behaviour.reads read frame_queue last_frame repeat].
    destruct (behaviour.reads k _) as [s2 fs] eqn:e. cbn [snd] in *.
    now rewrite IHk.
  - cbn [length Nat.add behaviour.reads read frame_queue last_frame
         buffer_size stopped frame_count info_is_active map app].
    destruct (behaviour.reads (length q + k) _) as [s2 fs] eqn:e.
    cbn [snd] in *. now rewrite IH.
Qed.

(** X24: [get_frame] answers with the frame that arrived last on the
    camera asked for, if that camera is registered and active, and a frame
    arriving on one camera changes the answer for no other camera; nothing
    is consumed by asking. *)
Theorem get_frame_is_the_latest_of_that_camera :
  forall self camera_id frame cam0,
    get_frame (frame_arrives self camera_id frame) cam0 =
    if String.eqb cam0 camera_id then
      match Dict.get camera_id (cameras self) with
      | Some camera => if is_active camera then Some frame else None
      | None => None
      end
    else get_frame self cam0.
Proof.
  intros self camera_id frame cam0. unfold get_frame, frame_arrives.
  cbn [cameras]. rewrite DictFacts.get_modify.
  change (Dict.eqb cam0 camera_id) with (String.eqb cam0 camera_id).
  destruct (String.eqb_spec cam0 camera_id) as [->|ne]; [|reflexivity].
  destruct (Dict.get camera_id (cameras self)) as [camera|]; [|reflexivity].
  cbn [option_map]. unfold is_active, get_latest_frame.
  destruct (stopped camera) eqn:st.
  - rewrite st. now rewrite !andb_false_r.
  - cbn [deliver info_is_active stopped last_frame]. now rewrite st.
Qed.

(** X25: a camera id is never registered twice and a stream is never
    replaced: [add_camera] refuses an id already present, and one whose
    device did not open, leaving the manager as it is; otherwise the new
    camera is active, has no frame yet, and the other cameras are as
    before. *)
Theorem add_camera_never_replaces :
  forall self camera_id opened,
    (Dict.contains camera_id (cameras self) = true \/ opened = false ->
     add_camera self camera_id opened = (self, false)) /\
    (Dict.contains camera_id (cameras self) = false -> opened = true ->
     snd (add_camera self camera_id opened) = true /\
     get_frame (fst (add_camera self camera_id opened)) camera_id = None /\
     get_active_cameras (fst (add_camera self camera_id opened)) =
       get_active_cameras self ++ [camera_id] /\
     forall cam0, cam0 <> camera_id ->
       Dict.get cam0 (cameras (fst (add_camera self camera_id opened))) =
       Dict.get cam0 (cameras self)).
Proof.
  intros self camera_id opened. unfold add_camera. split.
  - intros [c | o].
    + now rewrite c.
    + rewrite o. now destruct (Dict.contains camera_id (cameras self)).
  - intros c o. rewrite c, o. cbn [fst snd].
    apply DictFacts.contains_false in c.
    split; [reflexivity|]. split; [|split].
    + unfold get_frame. cbn [cameras].
      now rewrite DictFacts.get_set, DictFacts.eqb_refl.
    + unfold get_active_cameras. cbn [cameras].
      rewrite DictFacts.set_absent by assumption.
      rewrite filter_app, map_app. reflexivity.
    + intros cam0 ne. cbn [cameras]. rewrite DictFacts.get_set.
      now rewrite DictFacts.eqb_neq.
Qed.

Lemma add_camera_never_replaces_witness :
  add_camera (fst (add_camera init "cam1" true)) "cam1" true =
  (fst (add_camera init "cam1" true), false).
Proof.
  apply (add_camera_never_replaces (fst (add_camera init "cam1" true))
           "cam1"%string true).
  left. reflexivity.
Defined.

(** X26: after [remove_camera] the camera gives no frame and is not listed
    as active, and the other cameras are as before; removing an unknown
    camera changes nothing. *)
Theorem remove_camera_forgets_the_camera :
  forall self camera_id,
    NoDup (Dict.keys (cameras self)) ->
    get_frame (remove_camera self camera_id) camera_id = None /\
    ~ In camera_id (get_active_cameras (remove_camera self camera_id)) /\
    (forall cam0, cam0 <> camera_id ->
       Dict.get cam0 (cameras (remove_camera self camera_id)) =
       Dict.get cam0 (cameras self)) /\
    (Dict.get camera_id (cameras self) = None ->
     remove_camera self camera_id = self).
Proof.
  intros self camera_id nd.
  assert (gone : Dict.get camera_id (cameras (remove_camera self camera_id)) =
                 None).
  { unfold remove_camera, Dict.contains.
    destruct (Dict.get camera_id (cameras self)) eqn:g; [|exact g].
    cbn [cameras]. rewrite DictFacts.get_del by assumption.
    now rewrite DictFacts.eqb_refl. }
  split; [|split; [|split]].
  - unfold get_frame. now rewrite gone.
  - unfold get_active_cameras. intros i.
    apply in_map_iff in i as ([c s] & e & i). cbn in e. subst c.
    apply filter_In in i as [i _].
    apply DictFacts.get_None_keys in gone. apply gone.
    change camera_id with (fst (camera_id, s)). now apply in_map.
  - intros cam0 ne. unfold remove_camera.
    destruct (Dict.contains camera_id (cameras self)); [|reflexivity].
    cbn [cameras]. rewrite DictFacts.get_del by assumption.
    now rewrite DictFacts.eqb_neq.
  - intros g. unfold remove_camera, Dict.contains. now rewrite g.
Qed.

Lemma remove_camera_forgets_the_camera_witness :
  get_frame
    (remove_camera
       (frame_arrives (fst (add_camera init "cam1" true)) "cam1" [[1]])
       "cam1") "cam1" = None.
Proof.
  apply (remove_camera_forgets_the_camera
           (frame_arrives (fst (add_camera init "cam1" true)) "cam1" [[1]])
           "cam1"%string).
  vm_compute. repeat constructor. simpl. tauto.
Defined.

End CameraProperties.

(* ------------------------------------------------------------------ *)
(** ** Properties of the processing loop *)

Module PipelineSteps.

Import tracking_system.

Section General.
Context {numpy : np.Argsort} {python : tracking_system.SetIteration}
  {sqlite : database.Engine} {host : alert_manager.Host}.

Lemma fold_pair {A B C} (f : A -> C -> A) (g : B -> C -> B) l :
  forall a b,
    fold_left (fun st x => (f (fst st) x, g (snd st) x)) l (a, b) =
    (fold_left f l a, fold_left g l b).
Proof.
  induction l as [|x l IH]; intros a b; simpl; [reflexivity | apply IH].
Qed.

Lemma tracker_after_update tm camera_id dets frame now :
  exists t,
    Dict.get camera_id
      (trackers (fst (manager_update tm camera_id dets frame now))) = Some t.
Proof.
  destruct (ManagerSteps.manager_update_trackers tm camera_id dets frame now)
    as (tr & _). cbv zeta in tr.
  eexists. rewrite tr. now rewrite String.eqb_refl.
Qed.

Lemma get_tracker_present tm camera_id t :
  Dict.get camera_id (trackers tm) = Some t ->
  get_tracker tm camera_id = (tm, t).
Proof. intros g. unfold get_tracker. now rewrite g. Qed.

Lemma active_persons_same tm camera_id t :
  Dict.get camera_id (trackers tm) = Some t ->
  fst (manager_get_active_persons tm (Some camera_id)) = tm.
Proof.
  intros g. unfold manager_get_active_persons.
  destruct (truthy (Some camera_id)); [|reflexivity].
  now rewrite (get_tracker_present _ _ _ g).
Qed.

Lemma newly_left_same tm camera_id t :
  Dict.get camera_id (trackers tm) = Some t ->
  fst (get_newly_left_persons tm camera_id) = tm.
Proof.
  intros g. unfold get_newly_left_persons.
  now rewrite (get_tracker_present _ _ _ g).
Qed.

(** A frame that is not skipped: what the loop body leaves. *)
Lemma process_camera_processed sys camera_id frame dets now :
  (main.frame_skip_counter sys + 1) mod config.FRAME_SKIP = 0 ->
  let tm1 :=
    fst (manager_update (main.tracking_manager sys) camera_id dets
           (Some frame) now) in
  let active := snd (manager_get_active_persons tm1 (Some camera_id)) in
  let newly_left := snd (get_newly_left_persons tm1 camera_id) in
  let sys' := main.process_camera sys camera_id (Some frame) dets now in
  main.tracking_manager sys' = tm1 /\
  main.alert_mgr sys' =
    fold_left alert_manager.add_pending_alert newly_left (main.alert_mgr sys) /\
  main.frame_skip_counter sys' = main.frame_skip_counter sys + 1 /\
  alert_manager.db (main.world sys') =
    fold_left
      (fun d person =>
         fst (database.log_exit d (tracking_id person) camera_id now))
      newly_left
      (fold_left
         (fun db item =>
            let existing_ids := database.get_active_presences db camera_id in
            if existsb (Z.eqb (fst item)) existing_ids then db
            else database.log_entry db (fst item) camera_id
                   (employee_id (snd item)) now)
         active (alert_manager.db (main.world sys))) /\
  alert_manager.outputs (main.world sys') =
    alert_manager.outputs (main.world sys) /\
  main.camera_updates sys' =
    main.camera_updates sys ++
    [(camera_id, Z.of_nat (length dets), Z.of_nat (length active), now)].
Proof.
  intros h. cbv zeta. unfold main.process_camera.
  rewrite h. cbn [Z.eqb negb].
  destruct (tracker_after_update (main.tracking_manager sys) camera_id dets
              (Some frame) now) as (t & g).
  destruct (manager_update (main.tracking_manager sys) camera_id dets
              (Some frame) now) as [tm1 tracked]. cbn [fst] in *.
  pose proof (active_persons_same tm1 camera_id t g) as e2.
  destruct (manager_get_active_persons tm1 (Some camera_id))
    as [tm2 active]. cbn [fst snd] in *. subst tm2.
  pose proof (newly_left_same tm1 camera_id t g) as e3.
  destruct (get_newly_left_persons tm1 camera_id) as [tm3 newly_left].
  cbn [fst snd] in *. subst tm3.
  rewrite (fold_pair
             (fun d person =>
                fst (database.log_exit d (tracking_id person) camera_id now))
             alert_manager.add_pending_alert).
  cbn. repeat split.
Qed.

(** A skipped frame moves the counter only. *)
Lemma process_camera_skipped sys camera_id frame dets now :
  (main.frame_skip_counter sys + 1) mod config.FRAME_SKIP <> 0 ->
  main.process_camera sys camera_id (Some frame) dets now =
  {| main.world := main.world sys;
     main.tracking_manager := main.tracking_manager sys;
     main.alert_mgr := main.alert_mgr sys;
     main.frame_skip_counter := main.frame_skip_counter sys + 1;
     main.camera_updates := main.camera_updates sys |}.
Proof.
  intros h. unfold main.process_camera.
  destruct (Z.eqb_spec ((main.frame_skip_counter sys + 1) mod config.FRAME_SKIP)
              0); [contradiction | reflexivity].
Qed.

End General.

End PipelineSteps.

Module PipelineLemmas.

Import tracking_system.

Section General.
Context {numpy : np.Argsort} {python : tracking_system.SetIteration}
  {sqlite : database.Engine} {host : alert_manager.Host}.




Lemma presences_after_entry db k cam e now camera k' :
  In k' (database.get_active_presences
           (database.log_entry db k cam e now) camera) <->
  In k' (database.get_active_presences db camera) \/
  (k' = k /\ (String.eqb camera "" || String.eqb cam camera) = true).
Proof.
  rewrite !DatabaseProperties.active_presences_In.
  unfold database.log_entry. cbn [database.presence_logs]. split.
  - intros (row & i & ek & op & cm).
    apply in_app_or in i as [i | [<- | []]].
    + left. now exists row.
    + right. cbn in ek, cm. now split.
  - intros [(row & i & rest) | (-> & cm)].
    + exists row. split; [apply in_or_app; now left | exact rest].
    + eexists. split; [apply in_or_app; right; now left|].
      cbn. now repeat split.
Qed.

(** The entries logged for the active persons. *)
Lemma entries_cover cam now (active : Dict.t Z TrackedPerson) :
  forall db,
    let db1 :=
      fold_left
        (fun db item =>
           let existing_ids := database.get_active_presences db cam in
           if existsb (Z.eqb (fst item)) existing_ids then db
           else database.log_entry db (fst item) cam
                  (employee_id (snd item)) now)
        active db in
    (forall k, In k (database.get_active_presences db cam) ->
               In k (database.get_active_presences db1 cam)) /\
    (forall item, In item active ->
                  In (fst item) (database.get_active_presences db1 cam)) /\
    database.absence_alerts db1 = database.absence_alerts db.
Proof.
  induction active as [|x r IH]; intros db; cbv zeta; cbn [fold_left].
  - split; [tauto|]. split; [intros item [] | reflexivity].
  - set (db' := if existsb (Z.eqb (fst x))
                     (database.get_active_presences db cam)
                then db
                else database.log_entry db (fst x) cam
                       (employee_id (snd x)) now).
    assert (st : (forall k, In k (database.get_active_presences db cam) ->
                            In k (database.get_active_presences db' cam)) /\
                 In (fst x) (database.get_active_presences db' cam) /\
                 database.absence_alerts db' = database.absence_alerts db).
    { unfold db'.
      destruct (existsb (Z.eqb (fst x))
                  (database.get_active_presences db cam)) eqn:ex.
      - split; [tauto|]. split; [|reflexivity].
        apply existsb_exists in ex as (k & i & e).
        apply Z.eqb_eq in e. now subst k.
      - split; [|split; [|reflexivity]].
        + intros k i. apply presences_after_entry. now left.
        + apply presences_after_entry. right.
          now rewrite String.eqb_refl, orb_true_r. }
    destruct st as (s1 & s2 & s3).
    destruct (IH db') as (i1 & i2 & i3). cbv zeta in i1, i2, i3.
    split; [|split].
    + intros k i. apply i1. now apply s1.
    + intros item [<- | i]; [now apply i1 | now apply i2].
    + congruence.
Qed.




Lemma exit_keeps_alerts db tid cam now :
  database.absence_alerts (fst (database.log_exit db tid cam now)) =
  database.absence_alerts db.
Proof.
  unfold database.log_exit.
  now destruct (database.latest_open tid cam (database.presence_logs db) 0 None).
Qed.

Lemma exits_keep_alerts cam now persons :
  forall db,
    database.absence_alerts
      (fold_left
         (fun d person =>
            fst (database.log_exit d (tracking_id person) cam now))
         persons db) =
    database.absence_alerts db.
Proof.
  induction persons as [|q r IH]; intros db; cbn [fold_left];
    [reflexivity|].
  now rewrite IH, exit_keeps_alerts.
Qed.

End General.

End PipelineLemmas.

Module PipelineProperties.

Import tracking_system observe behaviour.

Section General.
Context {numpy : np.Argsort} {python : tracking_system.SetIteration}
  {sqlite : database.Engine} {host : alert_manager.Host}.


(** X28: processing a frame never records an absence alert and never sends
    a notification, sound or callback, whatever is detected: these are left
    to the monitor. *)
Theorem processing_never_raises_an_alert :
  forall sys camera_id frame dets now,
    database.absence_alerts
      (alert_manager.db
         (main.world (main.process_camera sys camera_id frame dets now))) =
    database.absence_alerts (alert_manager.db (main.world sys)) /\
    alert_manager.outputs
      (main.world (main.process_camera sys camera_id frame dets now)) =
    alert_manager.outputs (main.world sys).
Proof.
  intros sys camera_id frame dets now.
  destruct frame as [frame|]; [|now split].
  destruct (Z.eq_dec ((main.frame_skip_counter sys + 1) mod config.FRAME_SKIP)
              0) as [h|h].
  - destruct (PipelineSteps.process_camera_processed sys camera_id frame dets
                now h) as (_ & _ & _ & e4 & e5 & _). cbv zeta in e4, e5.
    split; [|exact e5].
    rewrite e4, PipelineLemmas.exits_keep_alerts.
    apply PipelineLemmas.entries_cover.
  - now rewrite PipelineSteps.process_camera_skipped.
Qed.


Lemma parity c :
  c mod config.FRAME_SKIP = 0 ->
  (c + 1) mod config.FRAME_SKIP <> 0 /\
  (c + 1 + 1) mod config.FRAME_SKIP = 0 /\
  (c + 2) mod config.FRAME_SKIP = 0.
Proof.
  change config.FRAME_SKIP with 2. intros h.
  rewrite <- Z.add_assoc. change (1 + 1) with 2.
  assert (e2 : (c + 2) mod 2 = 0).
  { replace (c + 2) with (c + 1 * 2) by lia. now rewrite Z.mod_add by lia. }
  split; [|now split].
  intros e1.
  assert (d : ((c + 1) - c) mod 2 = 0).
  { rewrite Zminus_mod, e1, h. reflexivity. }
  replace (c + 1 - c) with 1 in d by lia. discriminate d.
Qed.

Lemma round_skips_the_first sys cam1 cam2 r :
  cam1 <> cam2 ->
  main.frame_skip_counter sys mod config.FRAME_SKIP = 0 ->
  let sys' := main.run sys [frame_event cam1 (fst r); frame_event cam2 (snd r)] in
  Dict.get cam1 (trackers (main.tracking_manager sys')) =
    Dict.get cam1 (trackers (main.tracking_manager sys)) /\
  main.frame_skip_counter sys' = main.frame_skip_counter sys + 2 /\
  exists u,
    main.camera_updates sys' = main.camera_updates sys ++ [u] /\
    fst (fst (fst u)) = cam2.
Proof.
  intros ne h. cbv zeta. unfold main.run, frame_event.
  cbn [fold_left main.step].
  rewrite (PipelineSteps.process_camera_skipped sys cam1 (fst (fst (fst r)))
             (snd (fst (fst r))) (snd (fst r)) (proj1 (parity _ h))).
  match goal with
  | |- context [main.process_camera ?s _ _ _ _] => set (sys1 := s)
  end.
  assert (h1 : (main.frame_skip_counter sys1 + 1) mod config.FRAME_SKIP = 0).
  { unfold sys1. cbn [main.frame_skip_counter].
    exact (proj1 (proj2 (parity _ h))). }
  destruct (PipelineSteps.process_camera_processed sys1 cam2
              (fst (fst (snd r))) (snd (fst (snd r))) (snd (snd r)) h1)
    as (e1 & _ & e3 & _ & _ & e6). cbv zeta in e1, e3, e6.
  rewrite e1, e3, e6. unfold sys1.
  cbn [main.tracking_manager main.frame_skip_counter main.camera_updates].
  split; [|split; [lia|]].
  - destruct (ManagerSteps.manager_update_trackers (main.tracking_manager sys)
                cam2 (snd (fst (snd r))) (Some (fst (fst (snd r))))
                (snd (snd r))) as (tr & _).
    cbv zeta in tr. rewrite tr.
    destruct (String.eqb_spec cam1 cam2); [contradiction | reflexivity].
  - eexists. split; reflexivity.
Qed.

(** X30: the frame-skip counter is shared by all cameras, so with two
    active cameras that both have a frame in every round, and the counter
    even at the start of a round, it is always the first camera's turn that
    is skipped: over any number of such rounds no frame of the first camera
    reaches the tracker, and every update sent is for the second camera. *)
Theorem first_of_two_cameras_is_never_processed :
  forall rounds sys cam1 cam2,
    cam1 <> cam2 ->
    main.frame_skip_counter sys mod config.FRAME_SKIP = 0 ->
    Dict.get cam1
      (trackers (main.tracking_manager
                   (main.run sys (two_camera_rounds cam1 cam2 rounds)))) =
      Dict.get cam1 (trackers (main.tracking_manager sys)) /\
    main.frame_skip_counter
      (main.run sys (two_camera_rounds cam1 cam2 rounds)) =
      main.frame_skip_counter sys + 2 * Z.of_nat (length rounds) /\
    exists updates,
      main.camera_updates
        (main.run sys (two_camera_rounds cam1 cam2 rounds)) =
        main.camera_updates sys ++ updates /\
      length updates = length rounds /\
      Forall (fun u => fst (fst (fst u)) = cam2) updates.
Proof.
  induction rounds as [|r rounds IH]; intros sys cam1 cam2 ne h.
  - cbn. split; [reflexivity|]. split; [lia|].
    exists []. rewrite app_nil_r. now repeat split.
  - unfold two_camera_rounds. cbn [flat_map].
    unfold main.run. rewrite fold_left_app.
    fold (main.run sys [frame_event cam1 (fst r); frame_event cam2 (snd r)]).
    set (sys1 := main.run sys
                   [frame_event cam1 (fst r); frame_event cam2 (snd r)]).
    destruct (round_skips_the_first sys cam1 cam2 r ne h)
      as (g1 & c1 & u & u1 & u2). fold sys1 in g1, c1, u1.
    assert (h1 : main.frame_skip_counter sys1 mod config.FRAME_SKIP = 0).
    { rewrite c1. exact (proj2 (proj2 (parity _ h))). }
    destruct (IH sys1 cam1 cam2 ne h1) as (g2 & c2 & us & us1 & us2 & us3).
    unfold main.run, two_camera_rounds in g2, c2, us1.
    rewrite g2, c2, us1, g1, c1, u1.
    split; [reflexivity|]. split; [cbn [length]; lia|].
    exists (u :: us). rewrite <- app_assoc. split; [reflexivity|].
    split; [cbn [length]; lia|]. now constructor.
Qed.

End General.

(** On the samples: the insertion sort for [argsort], sets visited in
    ascending order, rows of equal entry time in table order, and a host on
    which nothing fails. *)
Section AtSample.
Existing Instance np.stable.
Existing Instance tracking_system.ascending.
Existing Instance database.table_order.
Existing Instance alert_manager.reliable.



Lemma first_of_two_cameras_is_never_processed_witness :
  Dict.get "cam1"%string
    (trackers
       (main.tracking_manager
          (main.run main.initial
             (two_camera_rounds "cam1" "cam2"
                [(([], [sample.det 125 150], 0),
                  ([], [sample.det 325 250], 0));
                 (([], [sample.det 125 150], 1),
                  ([], [sample.det 325 250], 1))])))) = None.
Proof.
  apply (first_of_two_cameras_is_never_processed
           [(([], [sample.det 125 150], 0), ([], [sample.det 325 250], 0));
            (([], [sample.det 125 150], 1), ([], [sample.det 325 250], 1))]
           main.initial "cam1"%string "cam2"%string).
  - discriminate.
  - reflexivity.
Defined.

End AtSample.

End PipelineProperties.
